(** * AtmosTrack air-quality ETL: transform, load and analysis steps

    A shallow embedding of [urban/transform.py], [urban/load.py], the
    risk-distribution KPI and the two tables of [urban/etl_analysis.py],
    and the orchestration of [urban/run_pipeline.py].

    - Python floats (and numpy [float64]) are IEEE-754 binary64 values,
      taken from the Standard Library's [SpecFloat] (a single quiet NaN).
    - A pandas row ([pd.Series]) and a Python [dict] are association lists
      from column names to Python values, in column order; a frame is the
      list of its rows.
    - Code that may raise returns an [outcome].
    - A raw document follows the Open-Meteo layout: an [hourly] object
      with a [time] array of strings and one array of readings per
      pollutant.  The string parsers of pandas ([pd.to_datetime],
      [pd.to_numeric]) are parameters of the model.
    - The staged file is taken field by field; the texts that pandas
      writes for numbers, the numbers it reads, and the reader's null
      markers are parameters of the model.
    - The remote store is an oracle telling, for each batch and attempt,
      whether the insert call returns or raises. *)

From Stdlib Require Import ZArith List String Ascii Bool Arith Lia SpecFloat.
From Stdlib Require Import OrderedTypeEx Sorted Permutation DecimalString.
Import ListNotations.
Open Scope string_scope.
Open Scope list_scope.
Open Scope nat_scope.

(** ** binary64 arithmetic *)

Module F64.

Definition prec : Z := 53.
Definition emax : Z := 1024.

Definition float : Type := spec_float.

Definition nan : float := S754_nan.
Definition zero : float := S754_zero false.

(** The float nearest to an integer (exact below 2^53). *)
Definition of_Z (n : Z) : float := binary_normalize prec emax n 0 false.
Definition of_nat (n : nat) : float := of_Z (Z.of_nat n).

Definition add : float -> float -> float := SFadd prec emax.
Definition mul : float -> float -> float := SFmul prec emax.
Definition div : float -> float -> float := SFdiv prec emax.

(** [x > y] and [x <= y]; both are [false] as soon as one side is NaN. *)
Definition gtb (x y : float) : bool := SFltb y x.
Definition leb (x y : float) : bool := SFleb x y.

Definition is_nan (x : float) : bool :=
  match x with S754_nan => true | _ => false end.

(** The float denoted by the decimal literal [digits * 10^-scale]:
    both operands are exact, and the division rounds to nearest. *)
Definition dec (digits : Z) (scale : nat) : float :=
  div (of_Z digits) (of_Z (10 ^ Z.of_nat scale)).

(** Round to the nearest integer, ties to even ([numpy.rint]). *)
Definition rint (x : float) : float :=
  match x with
  | S754_finite s m (Zneg d) =>
      let q := Z.shiftr (Zpos m) (Zpos d) in
      let r := (Zpos m - Z.shiftl q (Zpos d))%Z in
      let half := Z.shiftl 1 (Zpos d - 1) in
      let n := match (r ?= half)%Z with
               | Lt => q
               | Gt => (q + 1)%Z
               | Eq => if Z.even q then q else (q + 1)%Z
               end in
      binary_normalize prec emax (cond_Zopp s n) 0 s
  | _ => x
  end.

(** [numpy.round(x, decimals)] for [decimals >= 0]: scale, [rint],
    scale back. *)
Definition round (x : float) (decimals : nat) : float :=
  let f := of_Z (10 ^ Z.of_nat decimals) in
  div (rint (mul x f)) f.

(** A float that binary64 can hold: its mantissa has 53 bits, or fewer
    at the smallest exponent, -1074. *)
Definition valid (x : float) : bool := valid_binary prec emax x.

(** The value of a finite float counted in units of 2^-1074, the least
    positive binary64 number; an integer for a valid float. *)
Definition ulps (x : float) : option Z :=
  match x with
  | S754_zero _ => Some 0%Z
  | S754_finite s m e => Some (cond_Zopp s (Zpos m) * 2 ^ (e + 1074))%Z
  | _ => None
  end.

End F64.


(** ** Python values, exceptions, rows *)

Inductive exn : Type :=
| ValueError      (* unparseable or out-of-range timestamp, zero range step *)
| TypeError       (* arithmetic on None *)
| KeyError        (* a column that the frame does not have *)
| AttributeError. (* [.dt] on a value that is not a timestamp *)

Inductive outcome (A : Type) : Type :=
| Ok (a : A)
| Raise (e : exn).
Arguments Ok {A} a.
Arguments Raise {A} e.

Definition bind {A B : Type} (c : outcome A) (k : A -> outcome B) : outcome B :=
  match c with
  | Ok a => k a
  | Raise e => Raise e
  end.

Notation "x <- c ;; k" := (bind c (fun x => k))
  (at level 61, c at next level, right associativity).

Fixpoint mapM {A B : Type} (f : A -> outcome B) (l : list A) : outcome (list B) :=
  match l with
  | [] => Ok []
  | a :: l' => b <- f a ;; bs <- mapM f l' ;; Ok (b :: bs)
  end.

(** A naive timestamp at second resolution. *)
Record Timestamp : Type := mkTimestamp {
  year : nat; month : nat; day : nat;
  hour : nat; minute : nat; second : nat
}.

Inductive pyval : Type :=
| PNone
| PFloat (x : F64.float)
| PInt (n : Z)
| PStr (s : string)
| PTime (t : Timestamp).

(** [pd.isna] / [pd.notnull] on a scalar. *)
Definition isna (v : pyval) : bool :=
  match v with
  | PNone => true
  | PFloat x => F64.is_nan x
  | _ => false
  end.

Definition notnull (v : pyval) : bool := negb (isna v).

(** A [dict] or a [pd.Series]: keys in insertion order, no key twice. *)
Definition Series : Type := list (string * pyval).

Fixpoint lookup {V : Type} (k : string) (d : list (string * V)) : option V :=
  match d with
  | [] => None
  | (k', v) :: d' => if String.eqb k k' then Some v else lookup k d'
  end.

(** [d.get(k, default)]: the default is used only when the key is absent. *)
Definition get {V : Type} (d : list (string * V)) (k : string) (default : V) : V :=
  match lookup k d with
  | Some v => v
  | None => default
  end.

(** A number as a float; arithmetic on [None] raises. *)
Definition as_float (v : pyval) : outcome F64.float :=
  match v with
  | PFloat x => Ok x
  | PInt n => Ok (F64.of_Z n)
  | _ => Raise TypeError
  end.

(** A frame is the list of its rows.  A column that holds numbers and
    nulls only has dtype float64; any other column here has dtype
    object. *)
Definition is_number (v : pyval) : bool :=
  match v with PFloat _ | PInt _ => true | _ => false end.

Definition is_None (v : pyval) : bool :=
  match v with PNone => true | _ => false end.

Definition column (df : list Series) (k : string) : list pyval :=
  map (fun r => get r k PNone) df.

Definition float_column (col : list pyval) : bool :=
  existsb is_number col && forallb (fun v => is_number v || is_None v) col.

(** ** Feature Deriver ([transform.py], utility functions) *)

Module Transform.

Definition POLLUTANTS : list string :=
  ["pm10"; "pm2_5"; "carbon_monoxide"; "nitrogen_dioxide";
   "sulphur_dioxide"; "ozone"; "uv_index"].

Definition compute_aqi (pm2_5 : pyval) : outcome pyval :=
  if isna pm2_5 then Ok PNone
  else
    x <- as_float pm2_5 ;;
    if F64.leb x (F64.of_Z 50) then Ok (PStr "Good")
    else if F64.leb x (F64.of_Z 100) then Ok (PStr "Moderate")
    else if F64.leb x (F64.of_Z 200) then Ok (PStr "Unhealthy")
    else if F64.leb x (F64.of_Z 300) then Ok (PStr "Very Unhealthy")
    else Ok (PStr "Hazardous").

(** [row.get(key, 0) * w] *)
Definition weighted (row : Series) (key : string) (w : Z) : outcome F64.float :=
  x <- as_float (get row key (PInt 0)) ;;
  Ok (F64.mul x (F64.of_Z w)).

Definition compute_severity (row : Series) : outcome F64.float :=
  a <- weighted row "pm2_5" 5 ;;
  b <- weighted row "pm10" 3 ;;
  c <- weighted row "nitrogen_dioxide" 4 ;;
  d <- weighted row "sulphur_dioxide" 4 ;;
  e <- weighted row "carbon_monoxide" 2 ;;
  f <- weighted row "ozone" 3 ;;
  Ok (F64.add (F64.add (F64.add (F64.add (F64.add a b) c) d) e) f).

Definition classify_risk (severity : F64.float) : string :=
  if F64.gtb severity (F64.of_Z 400) then "High Risk"
  else if F64.gtb severity (F64.of_Z 200) then "Moderate Risk"
  else "Low Risk".


(** *** Timestamps *)

Definition leap_year (y : nat) : bool :=
  ((y mod 4 =? 0) && negb (y mod 100 =? 0)) || (y mod 400 =? 0).

Definition days_in_month (y m : nat) : nat :=
  match m with
  | 2 => if leap_year y then 29 else 28
  | 4 | 6 | 9 | 11 => 30
  | _ => 31
  end.

(** Fields packed most significant first, to compare two instants. *)
Definition ts_key (t : Timestamp) : Z :=
  let z := Z.of_nat in
  (((((z (year t) * 100 + z (month t)) * 100 + z (day t)) * 100
       + z (hour t)) * 100 + z (minute t)) * 100 + z (second t))%Z.

(** A calendar date and time of day inside the range of a pandas
    [Timestamp] (1677-09-21 00:12:44 to 2262-04-11 23:47:16). *)
Definition valid_timestamp (t : Timestamp) : bool :=
  (1 <=? month t) && (month t <=? 12) &&
  (1 <=? day t) && (day t <=? days_in_month (year t) (month t)) &&
  (hour t <? 24) && (minute t <? 60) && (second t <? 60) &&
  (16770921001244 <=? ts_key t)%Z && (ts_key t <=? 22620411234716)%Z.

Definition digit (n : nat) : ascii := ascii_of_nat (48 + n mod 10).

Definition two_digits (n : nat) (rest : string) : string :=
  String (digit (n / 10)) (String (digit n) rest).

Definition four_digits (n : nat) (rest : string) : string :=
  String (digit (n / 1000)) (String (digit (n / 100)) (two_digits n rest)).

(** [t.strftime("%Y-%m-%dT%H:%M:%S")] *)
Definition strftime_iso (t : Timestamp) : string :=
  four_digits (year t) (String "-" (two_digits (month t) (String "-"
    (two_digits (day t) (String "T" (two_digits (hour t) (String ":"
      (two_digits (minute t) (String ":" (two_digits (second t) "")))))))))).

(** *** City name from the file stem *)

Definition is_lower (c : ascii) : bool :=
  (97 <=? nat_of_ascii c) && (nat_of_ascii c <=? 122).
Definition is_upper (c : ascii) : bool :=
  (65 <=? nat_of_ascii c) && (nat_of_ascii c <=? 90).
Definition to_upper (c : ascii) : ascii :=
  if is_lower c then ascii_of_nat (nat_of_ascii c - 32) else c.
Definition to_lower (c : ascii) : ascii :=
  if is_upper c then ascii_of_nat (nat_of_ascii c + 32) else c.

(** [s.split("_raw_")[0]] *)
Fixpoint before_raw (s : string) : string :=
  match s with
  | EmptyString => EmptyString
  | String c s' =>
      if String.prefix "_raw_" s then EmptyString else String c (before_raw s')
  end.

(** [s.replace("_", " ")] *)
Fixpoint underscores_to_spaces (s : string) : string :=
  match s with
  | EmptyString => EmptyString
  | String c s' =>
      String (if Ascii.eqb c "_" then " "%char else c) (underscores_to_spaces s')
  end.

(** [s.title()] on ASCII text: a letter that follows a letter is
    lowered, any other letter is raised. *)
Fixpoint title (after_letter : bool) (s : string) : string :=
  match s with
  | EmptyString => EmptyString
  | String c s' =>
      if is_lower c || is_upper c
      then String (if after_letter then to_lower c else to_upper c) (title true s')
      else String c (title false s')
  end.

Definition city_of_stem (stem : string) : string :=
  title false (underscores_to_spaces (before_raw stem)).

(** *** Raw snapshots

    One document per city.  Its [hourly] object holds the time axis (ISO
    strings) and, per pollutant name, an array of readings; a reading is
    a JSON number, [null] or a string. *)

Inductive jval : Type :=
| JNull
| JNum (x : F64.float)
| JStr (s : string).

Record hourly_data : Type := mkHourly {
  h_time : list string;                  (* hourly.get("time", []) *)
  h_series : list (string * list jval)   (* the other keys of hourly *)
}.

(** [content = None]: the file is not valid JSON.  Otherwise the
    document is a JSON object; its [hourly] member, when it has one, is
    an object, whose [time] member is an array of strings and whose
    other members are arrays.  A document without an [hourly] member, or
    whose [hourly] object has no [time] member, has an empty time axis.
    Documents of another shape (a file that is not UTF-8, a document
    that is not an object, an [hourly] member or a pollutant member that
    is [null]) make the script raise at lines 74-95; they are outside
    this type. *)
Record raw_file : Type := mkRawFile {
  stem : string;
  content : option hourly_data
}.

(** *** Record Flattener ([transform.py], lines 71-108) *)

Section Flattener.

(** The string parsers of [pd.to_datetime] and [pd.to_numeric]. *)
Variable parse_datetime : string -> option Timestamp.
Variable parse_number : string -> option F64.float.

(** [pd.to_datetime(timestamp)], [errors="raise"] by default.
    [parse_datetime] gives the naive time, to the second, that pandas
    reads from a text, and [None] for a text that it refuses.  A text
    that pandas reads as no time (NaT, for the empty text) or as a time
    with a fraction of a second or an offset has no counterpart in
    [Timestamp]: runs that meet one are outside the model. *)
Definition to_datetime (timestamp : string) : outcome Timestamp :=
  match parse_datetime timestamp with
  | Some t => if valid_timestamp t then Ok t else Raise ValueError
  | None => Raise ValueError
  end.

(** [pd.to_numeric(v, errors="coerce")] on a scalar. *)
Definition to_numeric (v : jval) : F64.float :=
  match v with
  | JNum x => x
  | JNull => F64.nan
  | JStr s => match parse_number s with
              | Some x => x
              | None => F64.nan
              end
  end.

(** The cell of pollutant [pol] at index [i] (lines 94-95). *)
Definition reading (hourly : hourly_data) (i : nat) (pol : string) : pyval :=
  let values := get (h_series hourly) pol [] in
  if i <? List.length values then PFloat (to_numeric (nth i values JNull))
  else PNone.

Definition build_row (city : string) (hourly : hourly_data)
           (i : nat) (timestamp : string) : outcome Series :=
  t <- to_datetime timestamp ;;
  Ok (("city", PStr city) :: ("time", PTime t) ::
      map (fun pol => (pol, reading hourly i pol)) POLLUTANTS).

(** [for i, timestamp in enumerate(times)], from index [i]. *)
Fixpoint build_rows_from (city : string) (hourly : hourly_data)
         (i : nat) (times : list string) : outcome (list Series) :=
  match times with
  | [] => Ok []
  | timestamp :: rest =>
      row <- build_row city hourly i timestamp ;;
      rows <- build_rows_from city hourly (S i) rest ;;
      Ok (row :: rows)
  end.

Definition build_rows (city : string) (hourly : hourly_data)
  : outcome (list Series) :=
  build_rows_from city hourly 0 (h_time hourly).

(** The loop over the raw files, giving [all_records]. *)
Fixpoint collect_records (files : list raw_file) : outcome (list Series) :=
  match files with
  | [] => Ok []
  | f :: rest =>
      match content f with
      | None => collect_records rest                 (* invalid JSON *)
      | Some hourly =>
          match h_time hourly with
          | [] => collect_records rest               (* if not times *)
          | _ =>
              rows <- build_rows (city_of_stem (stem f)) hourly ;;
              more <- collect_records rest ;;
              Ok (rows ++ more)
          end
      end
  end.

(** [pd.DataFrame(all_records)]: a column of numbers and [None] is
    stored as float64 with [None] turned into NaN; a column holding
    [None] only keeps [None]. *)
Definition store_cell (records : list Series) (kv : string * pyval)
  : string * pyval :=
  (fst kv,
   if is_None (snd kv) && float_column (column records (fst kv))
   then PFloat F64.nan else snd kv).

Definition DataFrame (records : list Series) : list Series :=
  map (map (store_cell records)) records.

(** [df.dropna(subset=subset, how="all")]; a frame built from no
    record has no column at all. *)
Definition has_reading (subset : list string) (row : Series) : bool :=
  existsb (fun k => notnull (get row k PNone)) subset.

Definition dropna_all (subset : list string) (df : list Series)
  : outcome (list Series) :=
  match df with
  | [] => Raise KeyError
  | _ => Ok (filter (has_reading subset) df)
  end.

(** [df[name] = values] *)
Fixpoint assign (df : list Series) (name : string) (values : list pyval)
  : list Series :=
  match df, values with
  | row :: df', v :: values' => (row ++ [(name, v)]) :: assign df' name values'
  | _, _ => []
  end.

Definition risk_of (severity : pyval) : outcome pyval :=
  s <- as_float severity ;;
  Ok (PStr (classify_risk s)).

Definition hour_of (time : pyval) : outcome pyval :=
  match time with
  | PTime t => Ok (PInt (Z.of_nat (hour t)))
  | _ => Raise AttributeError
  end.

(** Derived features (lines 104-108), one column after the other. *)
Definition derive_features (df : list Series) : outcome (list Series) :=
  aqi <- mapM compute_aqi (column df "pm2_5") ;;
  let df := assign df "AQI" aqi in
  severity <- mapM compute_severity df ;;
  let df := assign df "severity" (map PFloat severity) in
  risk <- mapM risk_of (column df "severity") ;;
  let df := assign df "risk" risk in
  hours <- mapM hour_of (column df "time") ;;
  Ok (assign df "hour" hours).

(** The whole step; the result is the table written to the staged CSV. *)
Definition transform (files : list raw_file) : outcome (list Series) :=
  all_records <- collect_records files ;;
  df <- dropna_all POLLUTANTS (DataFrame all_records) ;;
  derive_features df.

End Flattener.

(** *** Reference parsers

    Instances of the two parsers on the formats the pipeline itself
    reads and writes: [YYYY-MM-DDTHH:MM] as in the raw documents, and
    with seconds and either separator as in the staged CSV. *)

Definition digit_value (c : ascii) : option nat :=
  let n := nat_of_ascii c in
  if (48 <=? n) && (n <=? 57) then Some (n - 48) else None.

Fixpoint digits_value (acc : nat) (s : string) : option nat :=
  match s with
  | EmptyString => Some acc
  | String c s' =>
      match digit_value c with
      | Some d => digits_value (acc * 10 + d) s'
      | None => None
      end
  end.

Definition number_at (s : string) (pos len : nat) : option nat :=
  let field := String.substring pos len s in
  if String.length field =? len then digits_value 0 field else None.

Definition char_at (s : string) (pos : nat) (c : ascii) : bool :=
  match String.get pos s with
  | Some c' => Ascii.eqb c c'
  | None => false
  end.

Definition parse_iso (s : string) : option Timestamp :=
  let n := String.length s in
  if ((n =? 16) || (n =? 19))
     && char_at s 4 "-" && char_at s 7 "-"
     && (char_at s 10 "T" || char_at s 10 " ")
     && char_at s 13 ":" && ((n =? 16) || char_at s 16 ":")
  then
    match number_at s 0 4, number_at s 5 2, number_at s 8 2,
          number_at s 11 2, number_at s 14 2,
          (if n =? 16 then Some 0 else number_at s 17 2) with
    | Some y, Some mo, Some d, Some h, Some mi, Some sec =>
        Some (mkTimestamp y mo d h mi sec)
    | _, _, _, _, _, _ => None
    end
  else None.

(** Plain digit strings only. *)
Definition parse_digits (s : string) : option F64.float :=
  match s with
  | EmptyString => None
  | _ => option_map F64.of_nat (digits_value 0 s)
  end.

End Transform.

(** ** Batch Committer ([load.py]) *)

Module Load.

(** A line of the staged CSV as [pd.read_csv] returns it.  The time
    column is text, or empty ([None] here, NaN in the frame); an empty
    field of any other column is NaN. *)
Record staged_row : Type := mkStagedRow {
  c_city : pyval;
  c_time : option string;
  c_pm10 : pyval;
  c_pm2_5 : pyval;
  c_carbon_monoxide : pyval;
  c_nitrogen_dioxide : pyval;
  c_sulphur_dioxide : pyval;
  c_ozone : pyval;
  c_uv_index : pyval;
  c_AQI : pyval;
  c_severity : pyval;
  c_risk : pyval;
  c_hour : pyval
}.

Definition rename_map : list (string * string) :=
  [("AQI", "aqi_category"); ("severity", "severity_score"); ("risk", "risk_flag")].

(** [df.rename(columns=m)] on one row. *)
Definition rename (m : list (string * string)) (row : Series) : Series :=
  map (fun kv => (get m (fst kv) (fst kv), snd kv)) row.

(** [df.where(pd.notnull(df), None)].  A null cell of an object column
    becomes [None].  A float64 column stays float64 (pandas 1.3 and
    later): [None] is a missing value for that dtype and is stored as
    NaN, so the column comes out as it went in.  The [time] column, made
    by [strftime], is an object column whatever it holds. *)
Definition float64_column (frame : list Series) (k : string) : bool :=
  negb (String.eqb k "time") && float_column (column frame k).

Definition where_cell (frame : list Series) (kv : string * pyval)
  : string * pyval :=
  (fst kv,
   if notnull (snd kv) then snd kv
   else if float64_column frame (fst kv) then PFloat F64.nan
   else PNone).

Definition where_notnull (frame : list Series) : list Series :=
  map (map (where_cell frame)) frame.

(** What the script prints and how long it sleeps, in order. *)
Inductive event : Type :=
| Inserted (batch_no rows : nat)
| AttemptFailed (attempt : nat)
| Slept (seconds : Z)
| BatchFailed (batch_no : nat) (retries : Z)
| TotalInserted (rows : nat).

Record state : Type := mkState {
  total_inserted : nat;
  table : list Series;     (* rows of [air_quality_data], oldest first *)
  log : list event
}.

Definition initial : state := mkState 0 [] [].

Definition emit (st : state) (es : list event) : state :=
  mkState (total_inserted st) (table st) (log st ++ es).

(** Batch numbers that the log reports as failed. *)
Fixpoint failed_batches (l : list event) : list nat :=
  match l with
  | [] => []
  | BatchFailed n _ :: l' => n :: failed_batches l'
  | _ :: l' => failed_batches l'
  end.

(** Batch numbers that the log reports as inserted. *)
Fixpoint inserted_batches (l : list event) : list nat :=
  match l with
  | [] => []
  | Inserted n _ :: l' => n :: inserted_batches l'
  | _ :: l' => inserted_batches l'
  end.

(** The verdict on each batch, in the order the log gives them. *)
Fixpoint verdicts (l : list event) : list (nat * bool) :=
  match l with
  | [] => []
  | Inserted n _ :: l' => (n, true) :: verdicts l'
  | BatchFailed n _ :: l' => (n, false) :: verdicts l'
  | _ :: l' => verdicts l'
  end.

(** The trace of [n] failed attempts in a row, the first one being
    attempt number [attempt] (from 0). *)
Fixpoint retries (attempt n : nat) : list event :=
  match n with
  | O => []
  | S n' =>
      AttemptFailed (S attempt) :: Slept (2 ^ Z.of_nat (S attempt))
        :: retries (S attempt) n'
  end.

Section Loader.

Variable parse_datetime : string -> option Timestamp.
Variable BATCH_SIZE : Z.
Variable MAX_RETRIES : Z.

(** The remote store: whether [insert(batch).execute()] returns, for
    the batch of that number (from 1) at that attempt (from 0);
    otherwise it raises. *)
Variable insert_ok : nat -> nat -> bool.

(** [pd.to_datetime(df["time"]).dt.strftime("%Y-%m-%dT%H:%M:%S")] on
    one cell: an empty cell is NaT, which [strftime] gives back as
    NaN. *)
Definition iso_time (cell : option string) : outcome pyval :=
  match cell with
  | None => Ok (PFloat F64.nan)
  | Some s =>
      t <- Transform.to_datetime parse_datetime s ;;
      Ok (PStr (Transform.strftime_iso t))
  end.

Definition columns (r : staged_row) (time : pyval) : Series :=
  [("city", c_city r); ("time", time); ("pm10", c_pm10 r);
   ("pm2_5", c_pm2_5 r); ("carbon_monoxide", c_carbon_monoxide r);
   ("nitrogen_dioxide", c_nitrogen_dioxide r);
   ("sulphur_dioxide", c_sulphur_dioxide r); ("ozone", c_ozone r);
   ("uv_index", c_uv_index r); ("AQI", c_AQI r);
   ("severity", c_severity r); ("risk", c_risk r); ("hour", c_hour r)].

(** Lines 38-54: the frame read from the CSV, then [records].  Each
    time is parsed by itself; pandas parses the column as a whole and
    holds every value to the format of the first, so it refuses a column
    in two formats, which this model takes. *)
Definition to_records (df : list staged_row) : outcome (list Series) :=
  times <- mapM iso_time (map c_time df) ;;
  let frame := map (fun rt => columns (fst rt) (snd rt)) (combine df times) in
  let frame := map (rename rename_map) frame in
  Ok (where_notnull frame).

(** The frame that [to_records] hands to [where], when every time
    parses. *)
Definition renamed_frame (df : list staged_row) : list Series :=
  map (fun r => rename rename_map
                  (columns r (match iso_time (c_time r) with
                              | Ok v => v
                              | Raise _ => PNone
                              end))) df.

(** [range(0, n, step)] *)
Definition range (n : nat) (step : Z) : outcome (list nat) :=
  match step with
  | Z0 => Raise ValueError
  | Zneg _ => Ok []
  | Zpos p =>
      let s := Pos.to_nat p in
      Ok (map (fun k => k * s) (seq 0 ((n + s - 1) / s)))
  end.

(** [records[i:i+BATCH_SIZE]] *)
Definition slice (records : list Series) (i : nat) : list Series :=
  firstn (Z.to_nat BATCH_SIZE) (skipn i records).

(** [i//BATCH_SIZE + 1] *)
Definition batch_number (i : nat) : nat :=
  i / Z.to_nat BATCH_SIZE + 1.

(** The [while attempt <= MAX_RETRIES] loop with its [else] clause;
    [left] counts the iterations that the condition still allows,
    [MAX_RETRIES + 1 - attempt]. *)
Fixpoint insert_batch (left attempt : nat) (batch_no : nat)
         (batch : list Series) (st : state) : state :=
  match left with
  | O => emit st [BatchFailed batch_no MAX_RETRIES]
  | S left' =>
      if insert_ok batch_no attempt
      then mkState (total_inserted st + List.length batch)
                   (table st ++ batch)
                   (log st ++ [Inserted batch_no (List.length batch)])
      else insert_batch left' (S attempt) batch_no batch
             (emit st [AttemptFailed (S attempt);
                       Slept (2 ^ Z.of_nat (S attempt))])
  end.

Definition insert_step (records : list Series) (st : state) (i : nat) : state :=
  insert_batch (Z.to_nat (MAX_RETRIES + 1)) 0 (batch_number i)
               (slice records i) st.

Definition insert_all (records : list Series) : outcome state :=
  starts <- range (List.length records) BATCH_SIZE ;;
  let st := fold_left (insert_step records) starts initial in
  Ok (emit st [TotalInserted (total_inserted st)]).

Definition load (df : list staged_row) : outcome state :=
  records <- to_records df ;;
  insert_all records.

End Loader.

(** The text of an ISO-8601 date and time, [YYYY-MM-DDTHH:MM:SS], with
    every field in its calendar range. *)
Definition is_iso8601 (s : string) : bool :=
  (String.length s =? 19)
  && Transform.char_at s 4 "-" && Transform.char_at s 7 "-"
  && Transform.char_at s 10 "T"
  && Transform.char_at s 13 ":" && Transform.char_at s 16 ":"
  && match Transform.number_at s 0 4, Transform.number_at s 5 2,
           Transform.number_at s 8 2, Transform.number_at s 11 2,
           Transform.number_at s 14 2, Transform.number_at s 17 2 with
     | Some y, Some mo, Some d, Some h, Some mi, Some sec =>
         (1 <=? mo) && (mo <=? 12) && (1 <=? d)
         && (d <=? Transform.days_in_month y mo)
         && (h <? 24) && (mi <? 60) && (sec <? 60)
     | _, _, _, _, _, _ => false
     end.

End Load.

(** ** Aggregator: risk distribution ([etl_analysis.py], lines 64-65) *)

Module Analysis.

(** The [risk_flag] column: a string, or [None] for a null. *)
Definition flag_eqb (k : string) (v : option string) : bool :=
  match v with
  | Some s => String.eqb k s
  | None => false
  end.

Definition count_of (k : string) (flags : list (option string)) : nat :=
  List.length (filter (flag_eqb k) flags).

(** The distinct non-null values, by first appearance. *)
Fixpoint distinct (seen : list string) (flags : list (option string))
  : list string :=
  match flags with
  | [] => []
  | None :: rest => distinct seen rest
  | Some s :: rest =>
      if existsb (String.eqb s) seen then distinct seen rest
      else s :: distinct (s :: seen) rest
  end.

(** Larger counts first; equal counts keep their order. *)
Fixpoint insert_by_count (kc : string * nat) (l : list (string * nat))
  : list (string * nat) :=
  match l with
  | [] => [kc]
  | kc' :: l' =>
      if snd kc' <=? snd kc then kc :: l
      else kc' :: insert_by_count kc l'
  end.

Definition sort_by_count (l : list (string * nat)) : list (string * nat) :=
  fold_right insert_by_count [] l.

(** [df["risk_flag"].value_counts(dropna=True)] *)
Definition value_counts (flags : list (option string)) : list (string * nat) :=
  sort_by_count (map (fun k => (k, count_of k flags)) (distinct [] flags)).

(** [risk_counts.sum()] *)
Definition counts_sum (counts : list (string * nat)) : nat :=
  fold_right (fun kc acc => snd kc + acc) 0 counts.

(** [(count / total * 100).round(2)] for one entry. *)
Definition percentage (count total : nat) : F64.float :=
  F64.round
    (F64.mul (F64.div (F64.of_nat count) (F64.of_nat total)) (F64.of_Z 100))
    2.

Definition risk_pct (flags : list (option string)) : list (string * F64.float) :=
  let risk_counts := value_counts flags in
  let total := counts_sum risk_counts in
  map (fun kc => (fst kc, percentage (snd kc) total)) risk_counts.

(** Rows with a non-null [risk_flag]. *)
Definition non_null (flags : list (option string)) : nat :=
  List.length (filter (fun v => match v with Some _ => true | None => false end) flags).

(** Non-null flags whose value is not in [seen]. *)
Definition is_fresh (seen : list string) (v : option string) : bool :=
  match v with
  | Some s => negb (existsb (String.eqb s) seen)
  | None => false
  end.

Definition fresh (seen : list string) (flags : list (option string)) : nat :=
  List.length (filter (is_fresh seen) flags).

Definition sum_counts (keys : list string) (flags : list (option string)) : nat :=
  counts_sum (map (fun k => (k, count_of k flags)) keys).

End Analysis.

(** ** Aggregator: tables ([etl_analysis.py], lines 82-89)

    The frame is taken as it stands after lines 48-55: every row has a
    valid time; a null city or risk flag is [None]. *)

Module Report.

Record row : Type := mkRow {
  city : option string;
  time : Timestamp;
  pm2_5 : pyval;
  pm10 : pyval;
  ozone : pyval;
  risk_flag : option string
}.

(** *** Pollution trend table (lines 83-84) *)

(** [df[["city", "time", "pm2_5", "pm10", "ozone"]]] *)
Definition trend_cols (r : row) : option string * Timestamp * pyval * pyval * pyval :=
  (city r, time r, pm2_5 r, pm10 r, ozone r).

Definition trend_city (t : option string * Timestamp * pyval * pyval * pyval)
  : option string := fst (fst (fst (fst t))).

Definition trend_time (t : option string * Timestamp * pyval * pyval * pyval)
  : Timestamp := snd (fst (fst (fst t))).

(** The order of [sort_values(["city", "time"])]: by city, a null city
    after every name, then by time. *)
Definition trend_leb (a b : option string * Timestamp * pyval * pyval * pyval)
  : bool :=
  match trend_city a, trend_city b with
  | Some x, Some y =>
      match String.compare x y with
      | Lt => true
      | Eq => (Transform.ts_key (trend_time a) <=? Transform.ts_key (trend_time b))%Z
      | Gt => false
      end
  | Some _, None => true
  | None, Some _ => false
  | None, None =>
      (Transform.ts_key (trend_time a) <=? Transform.ts_key (trend_time b))%Z
  end.

Fixpoint insert_sorted (r : option string * Timestamp * pyval * pyval * pyval)
         (l : list (option string * Timestamp * pyval * pyval * pyval))
  : list (option string * Timestamp * pyval * pyval * pyval) :=
  match l with
  | [] => [r]
  | x :: l' => if trend_leb r x then r :: l else x :: insert_sorted r l'
  end.

(** A stable sort: rows that compare equal keep their order. *)
Definition sort_values (l : list (option string * Timestamp * pyval * pyval * pyval))
  : list (option string * Timestamp * pyval * pyval * pyval) :=
  fold_right insert_sorted [] l.

Definition trend_df (df : list row)
  : list (option string * Timestamp * pyval * pyval * pyval) :=
  sort_values (map trend_cols df).

(** *** City risk distribution (line 88) *)

(** [groupby] leaves out the rows with a null key. *)
Definition group_key (r : row) : option (string * string) :=
  match city r, risk_flag r with
  | Some c, Some f => Some (c, f)
  | _, _ => None
  end.

Definition in_group (c f : string) (r : row) : bool :=
  match group_key r with
  | Some (c', f') => String.eqb c c' && String.eqb f f'
  | None => false
  end.

(** [.size()] of one group. *)
Definition group_size (df : list row) (c f : string) : nat :=
  List.length (filter (in_group c f) df).

Fixpoint insert_unique (s : string) (l : list string) : list string :=
  match l with
  | [] => [s]
  | x :: l' =>
      match String.compare s x with
      | Lt => s :: l
      | Eq => l
      | Gt => x :: insert_unique s l'
      end
  end.

(** The values of a group key, each once, in increasing order. *)
Definition sorted_unique (l : list string) : list string :=
  fold_right insert_unique [] l.

Fixpoint group_keys (df : list row) : list (string * string) :=
  match df with
  | [] => []
  | r :: df' =>
      match group_key r with
      | Some k => k :: group_keys df'
      | None => group_keys df'
      end
  end.

Definition index (df : list row) : list string :=
  sorted_unique (map fst (group_keys df)).

Definition header (df : list row) : list string :=
  sorted_unique (map snd (group_keys df)).

(** [.unstack(fill_value=0)]: one line per city, one count per flag. *)
Definition risk_dist (df : list row) : list (string * list (string * nat)) :=
  map (fun c => (c, map (fun f => (f, group_size df c f)) (header df))) (index df).

(** The counts of the table, all added up. *)
Definition table_total (t : list (string * list (string * nat))) : nat :=
  list_sum (map (fun line => list_sum (map snd (snd line))) t).

End Report.

(** ** Orchestration ([run_pipeline.py])

    What [subprocess.run] does with a script is an oracle: it returns with
    a return code and the captured output, or the interpreter cannot be
    started.  The labels are written without their emoji; the elapsed
    time that is printed is not modelled. *)

Module Pipeline.

Inductive completed : Type :=
| Returned (returncode : Z) (stdout stderr : string)
| FileNotFound.

Inductive line : Type :=
| Banner
| RunningStep (step_name : string)
| Executing (script_name : string)
| TimeTaken
| ErrorRunning (script_name : string)
| Stderr (text : string)
| Completed (step_name : string)
| Stdout (text : string)
| CouldNotFind (script_name : string)
| Finished.

(** What a piece of the script printed, and the exit code if it called
    [sys.exit]. *)
Definition run : Type := list line * option Z.

Definition print (l : list line) : run := (l, None).

Definition exit (code : Z) : run := ([], Some code).

(** [p] and then, unless [p] has exited, [q]. *)
Definition andthen (p q : run) : run :=
  match snd p with
  | Some code => p
  | None => (fst p ++ fst q, snd q)
  end.

Notation "p ;;; q" := (andthen p q) (at level 62, right associativity).

Section Orchestration.

Variable subprocess_run : string -> completed.

Definition run_step (step_name script_name : string) : run :=
  print [RunningStep step_name; Executing script_name] ;;;
  match subprocess_run script_name with
  | Returned returncode stdout stderr =>
      print [TimeTaken] ;;;
      if (returncode =? 0)%Z
      then print [Completed step_name; Stdout stdout]
      else print [ErrorRunning script_name; Stderr stderr] ;;; exit 1
  | FileNotFound =>
      print [CouldNotFind script_name] ;;; exit 1
  end.

Definition main : run :=
  print [Banner] ;;;
  run_step "Extract" "extract.py" ;;;
  run_step "Transform" "transform.py" ;;;
  run_step "Load into Supabase" "load.py" ;;;
  run_step "Analysis & Reports" "etl_analysis.py" ;;;
  print [Finished].

End Orchestration.

(** The scripts that a run launched, in order. *)
Fixpoint launched (l : list line) : list string :=
  match l with
  | [] => []
  | Executing s :: l' => s :: launched l'
  | _ :: l' => launched l'
  end.

Definition SCRIPTS : list string :=
  ["extract.py"; "transform.py"; "load.py"; "etl_analysis.py"].

(** A script that ran and returned 0. *)
Definition passes (subprocess_run : string -> completed) (script : string) : bool :=
  match subprocess_run script with
  | Returned rc _ _ => (rc =? 0)%Z
  | FileNotFound => false
  end.

(** The scripts up to and with the first one that does not pass. *)
Fixpoint until_failure (subprocess_run : string -> completed)
         (scripts : list string) : list string :=
  match scripts with
  | [] => []
  | s :: rest =>
      if passes subprocess_run s then s :: until_failure subprocess_run rest
      else [s]
  end.

End Pipeline.

(** ** Notions used to state the properties *)

(** The entries of the time axis of a document; none when it is not
    valid JSON. *)
Definition time_entries (f : Transform.raw_file) : nat :=
  match Transform.content f with
  | Some hourly => List.length (Transform.h_time hourly)
  | None => 0
  end.

(** The header of the staged CSV, and the keys of a record sent to the
    store. *)
Definition staged_columns : list string :=
  ["city"; "time"; "pm10"; "pm2_5"; "carbon_monoxide"; "nitrogen_dioxide";
   "sulphur_dioxide"; "ozone"; "uv_index"; "AQI"; "severity"; "risk"; "hour"].

Definition record_columns : list string :=
  ["city"; "time"; "pm10"; "pm2_5"; "carbon_monoxide"; "nitrogen_dioxide";
   "sulphur_dioxide"; "ozone"; "uv_index"; "aqi_category"; "severity_score";
   "risk_flag"; "hour"].

(** A cell that the row-building loop can write for a pollutant. *)
Definition reading_cell (v : pyval) : Prop :=
  v = PNone \/ exists x, v = PFloat x.

(** A row as the loop builds it: a city, a valid time, and a reading
    cell for each pollutant. *)
Definition base_row (r : Series) : Prop :=
  exists (c : string) (t : Timestamp) (cell : string -> pyval),
    Transform.valid_timestamp t = true /\
    (forall pol, reading_cell (cell pol)) /\
    r = ("city", PStr c) :: ("time", PTime t)
          :: map (fun pol => (pol, cell pol)) Transform.POLLUTANTS.

(** A column in which no record has a reading. *)
Definition dead_column (recs : list Series) (k : string) : bool :=
  forallb (fun r => is_None (get r k PNone)) recs.

(** Whether the store takes the batch at one of the attempts that
    [MAX_RETRIES] allows. *)
Definition succeeds (MAX_RETRIES : Z) (insert_ok : nat -> nat -> bool)
           (batch_no : nat) : bool :=
  existsb (insert_ok batch_no) (seq 0 (Z.to_nat (MAX_RETRIES + 1))).

(** Seconds spent in [time.sleep]. *)
Fixpoint slept (l : list Load.event) : Z :=
  match l with
  | [] => 0%Z
  | Load.Slept seconds :: l' => (seconds + slept l')%Z
  | _ :: l' => slept l'
  end.

(** Insert calls made. *)
Fixpoint attempts (l : list Load.event) : nat :=
  match l with
  | [] => 0
  | Load.Inserted _ _ :: l' => S (attempts l')
  | Load.AttemptFailed _ :: l' => S (attempts l')
  | _ :: l' => attempts l'
  end.

(** Whether two floats are the same datum (NaN is itself; the two zeros
    differ), and whether two timestamps are the same. *)
Definition same_float (x y : F64.float) : bool :=
  match x, y with
  | S754_zero a, S754_zero b => Bool.eqb a b
  | S754_infinity a, S754_infinity b => Bool.eqb a b
  | S754_nan, S754_nan => true
  | S754_finite a m e, S754_finite b n f =>
      Bool.eqb a b && Pos.eqb m n && Z.eqb e f
  | _, _ => false
  end.

Definition same_time (t u : Timestamp) : bool :=
  (year t =? year u) && (month t =? month u) && (day t =? day u)
  && (hour t =? hour u) && (minute t =? minute u) && (second t =? second u).

(** ** The staged file ([transform.py], line 111; [load.py], lines 38-41)

    [df.to_csv(OUTPUT_FILE, index=False)] and [pd.read_csv(STAGED_CSV)],
    field by field: a file is its header and, line by line, its fields.
    How pandas frames the fields as text (separators, quotes, line
    ends) is not modelled.  Three things of pandas are parameters: the
    text it writes for a float, the number it reads from a field, and
    the texts that its reader takes for a null. *)

Module Staged.

Record csv : Type := mkCsv {
  header : list string;
  lines : list (list string)
}.

(** A number as the reader takes it from a field. *)
Inductive number : Type :=
| Int (n : Z)
| Float (x : F64.float).

(** A cell of the frame that [pd.read_csv] returns: a Python value, or a
    boolean. *)
Inductive cell : Type :=
| Val (v : pyval)
| Boolean (b : bool).

(** The null of a column that was read: NaN, whatever the column. *)
Definition NaN : cell := Val (PFloat F64.nan).

(** [YYYY-MM-DD], and [YYYY-MM-DD HH:MM:SS]. *)
Definition date_text (t : Timestamp) (rest : string) : string :=
  Transform.four_digits (year t) (String "-"
    (Transform.two_digits (month t) (String "-"
      (Transform.two_digits (day t) rest)))).

Definition datetime_text (t : Timestamp) : string :=
  date_text t (String " "
    (Transform.two_digits (hour t) (String ":"
      (Transform.two_digits (minute t) (String ":"
        (Transform.two_digits (second t) "")))))).

(** [str(n)] *)
Definition int_text (n : Z) : string := NilZero.string_of_int (Z.to_int n).

(** A datetime column whose times are all at midnight is written with
    the dates only. *)
Definition midnight (v : pyval) : bool :=
  match v with
  | PTime t => (hour t =? 0) && (minute t =? 0) && (second t =? 0)
  | _ => true
  end.

Definition dates_only (col : list pyval) : bool := forallb midnight col.

(** The words that the reader takes for booleans. *)
Definition bool_word (s : string) : option bool :=
  if existsb (String.eqb s) ["True"; "TRUE"; "true"] then Some true
  else if existsb (String.eqb s) ["False"; "FALSE"; "false"] then Some false
  else None.

Definition as_double (n : number) : F64.float :=
  match n with
  | Int z => F64.of_Z z
  | Float x => x
  end.

Section Csv.

(** The text of a float that is not NaN. *)
Variable float_text : F64.float -> string.

(** The reader's null markers ([na_values], with the defaults kept). *)
Variable na_text : string -> bool.

(** The number that the reader makes of a field, when it is one. *)
Variable read_number : string -> option number.

(** *** Writing *)

(** The field written for a cell; a null is written as the empty text. *)
Definition field (dates : bool) (v : pyval) : string :=
  match v with
  | PNone => ""
  | PFloat x => if F64.is_nan x then "" else float_text x
  | PInt n => int_text n
  | PStr s => s
  | PTime t => if dates then date_text t "" else datetime_text t
  end.

(** Line 111, on the frame of the thirteen staged columns. *)
Definition to_csv (df : list Series) : csv :=
  mkCsv staged_columns
    (map (fun r =>
            map (fun k => field (dates_only (column df k)) (get r k PNone))
                staged_columns)
         df).

(** *** Reading *)

Definition int_field (s : string) : bool :=
  match read_number s with
  | Some (Int _) => true
  | _ => false
  end.

Definition number_field (s : string) : bool :=
  match read_number s with
  | Some _ => true
  | None => false
  end.

Definition bool_field (s : string) : bool :=
  match bool_word s with
  | Some _ => true
  | None => false
  end.

(** The type of a column is inferred from all its fields: integers when
    every field is an integer and none is null; else floats when every
    field that is not null is a number; else booleans when every field
    that is not null is a boolean word; else text.  A null marker is
    read as NaN in every case. *)
Definition read_column (fields : list string) : list cell :=
  if forallb (fun s => negb (na_text s) && int_field s) fields then
    map (fun s => match read_number s with
                  | Some (Int n) => Val (PInt n)
                  | _ => NaN
                  end) fields
  else if forallb (fun s => na_text s || number_field s) fields then
    map (fun s => if na_text s then NaN
                  else match read_number s with
                       | Some n => Val (PFloat (as_double n))
                       | None => NaN
                       end) fields
  else if forallb (fun s => na_text s || bool_field s) fields then
    map (fun s => if na_text s then NaN
                  else match bool_word s with
                       | Some b => Boolean b
                       | None => NaN
                       end) fields
  else
    map (fun s => if na_text s then NaN else Val (PStr s)) fields.

(** Line 38 of [load.py]: the rows, each a cell per column of the
    header; a line that is short of fields has nulls at its end. *)
Definition read_csv (f : csv) : list (list (string * cell)) :=
  let columns :=
    map (fun j => read_column (map (fun line => nth j line "") (lines f)))
        (seq 0 (List.length (header f))) in
  map (fun i => combine (header f) (map (fun col => nth i col NaN) columns))
      (seq 0 (List.length (lines f))).

(** *** Cells that read back *)

(** [pd.to_datetime] of line 41. *)
Variable parse_datetime : string -> option Timestamp.

(** A text that the reader takes as it is. *)
Definition plain_text (s : string) : bool :=
  negb (na_text s) && negb (number_field s) && negb (bool_field s).

(** The written text of a cell reads back, by itself, as the cell: a
    number as the same number, a text as the same text, a time as a text
    that parses to the same time. *)
Definition reads_back (text : string) (v : pyval) : bool :=
  match v with
  | PNone => true
  | PFloat x =>
      F64.is_nan x
      || (negb (na_text text)
          && match read_number text with
             | Some (Float y) => same_float x y
             | _ => false
             end)
  | PInt n =>
      negb (na_text text)
      && match read_number text with
         | Some (Int m) => (n =? m)%Z
         | _ => false
         end
  | PStr _ => plain_text text
  | PTime t =>
      plain_text text
      && match Transform.to_datetime parse_datetime text with
         | Ok u => same_time t u
         | Raise _ => false
         end
  end.

(** What a written cell is read as, when it reads back: itself, a null
    as NaN, a time as its text. *)
Definition stored (dates : bool) (v : pyval) : cell :=
  match v with
  | PNone => NaN
  | PTime t => Val (PStr (field dates (PTime t)))
  | _ => Val v
  end.

End Csv.

(** *** Reference instances

    The null markers that pandas lists as its defaults; the exact
    decimal text of a float, which is the text that Python writes for a
    whole number below 10^16; and the number read from plain decimal
    text. *)

Definition default_na (s : string) : bool :=
  existsb (String.eqb s)
    [""; "#N/A"; "#N/A N/A"; "#NA"; "-1.#IND"; "-1.#QNAN"; "-NaN"; "-nan";
     "1.#IND"; "1.#QNAN"; "<NA>"; "N/A"; "NA"; "NULL"; "NaN"; "None"; "n/a";
     "nan"; "null"].

Definition nat_text (n : Z) : string := NilZero.string_of_uint (N.to_uint (Z.to_N n)).

Fixpoint zeros (n : nat) : string :=
  match n with
  | O => ""
  | S n' => String "0" (zeros n')
  end.

(** The text without the zeros at its end. *)
Fixpoint strip_zeros (s : string) : string :=
  match s with
  | EmptyString => ""
  | String c s' =>
      match strip_zeros s' with
      | EmptyString => if Ascii.eqb c "0" then "" else String c ""
      | rest => String c rest
      end
  end.

(** The digits after the point of [r / 10^k], for [0 <= r < 10^k]. *)
Definition fraction_text (k : nat) (r : Z) : string :=
  let digits := if (r =? 0)%Z then "" else nat_text r in
  match strip_zeros (zeros (k - String.length digits) ++ digits) with
  | EmptyString => "0"
  | s => s
  end.

(** [m * 2^e] in decimal. *)
Definition decimal_text (m : positive) (e : Z) : string :=
  if (0 <=? e)%Z then nat_text (Zpos m * 2 ^ e) ++ ".0"
  else
    let k := Z.to_nat (- e) in
    let n := (Zpos m * 5 ^ (- e))%Z in
    let p := (10 ^ (- e))%Z in
    nat_text (n / p) ++ "." ++ fraction_text k (n mod p).

Definition exact_text (x : F64.float) : string :=
  match x with
  | S754_zero s => if s then "-0.0" else "0.0"
  | S754_infinity s => if s then "-inf" else "inf"
  | S754_nan => "nan"
  | S754_finite s m e => (if s then "-" else "") ++ decimal_text m e
  end.

(** The part of [s] before the first [c], and the part after it. *)
Fixpoint split_at (c : ascii) (s : string) : string * option string :=
  match s with
  | EmptyString => (EmptyString, None)
  | String a s' =>
      if Ascii.eqb a c then (EmptyString, Some s')
      else let (l, r) := split_at c s' in (String a l, r)
  end.

(** Digits, with digits after a point or without, and a sign or none. *)
Definition read_decimal (s : string) : option number :=
  let (negative, body) :=
    match s with
    | String "-" s' => (true, s')
    | _ => (false, s)
    end in
  let sign := fun z : Z => if negative then (- z)%Z else z in
  match split_at "." body with
  | (whole, None) =>
      match whole with
      | EmptyString => None
      | _ => option_map (fun n => Int (sign (Z.of_nat n)))
                        (Transform.digits_value 0 whole)
      end
  | (whole, Some frac) =>
      match whole, frac, Transform.digits_value 0 (whole ++ frac) with
      | String _ _, String _ _, Some n =>
          Some (Float (F64.div (F64.of_Z (sign (Z.of_nat n)))
                               (F64.of_Z (10 ^ Z.of_nat (String.length frac)))))
      | _, _, _ => None
      end
  end.

End Staged.

(** ** Row-wise view of the derived columns

    [transform] fills the four derived columns one column at a time; when
    it succeeds, each output row is [derived] of the row it extends. *)

Definition value {A : Type} (default : A) (c : outcome A) : A :=
  match c with
  | Ok a => a
  | Raise _ => default
  end.

Definition with_aqi (row : Series) : Series :=
  row ++ [("AQI", value PNone (Transform.compute_aqi (get row "pm2_5" PNone)))].

Definition severity_of (row : Series) : F64.float :=
  value F64.nan (Transform.compute_severity (with_aqi row)).

Definition derived (row : Series) : Series :=
  let r1 := with_aqi row in
  let r2 := r1 ++ [("severity", PFloat (severity_of row))] in
  let r3 := r2 ++ [("risk", value PNone (Transform.risk_of (get r2 "severity" PNone)))] in
  r3 ++ [("hour", value PNone (Transform.hour_of (get r3 "time" PNone)))].

(** The columns that the row-building loop writes. *)
Definition base_columns : list string := "city" :: "time" :: Transform.POLLUTANTS.

(** The pollutants that [compute_severity] weighs. *)
Definition weighted_pollutants : list string :=
  ["pm2_5"; "pm10"; "nitrogen_dioxide"; "sulphur_dioxide"; "carbon_monoxide"; "ozone"].

(** ** Sample data *)

Module Samples.
Import Transform.

Definition num (n : Z) : jval := JNum (F64.of_Z n).

(** Three hours; the [pm10] array stops one reading short. *)
Definition pune : hourly_data :=
  mkHourly ["2024-01-01T00:00"; "2024-01-01T01:00"; "2024-01-01T02:00"]
    [("pm10", [num 20; num 30]);
     ("pm2_5", [num 12; num 14; num 90]);
     ("carbon_monoxide", [num 200; num 210; num 220]);
     ("nitrogen_dioxide", [num 8; num 9; num 10]);
     ("sulphur_dioxide", [num 2; num 2; num 3]);
     ("ozone", [num 40; num 41; num 42])].

(** Two hours; [pm2_5] is null in the second one. *)
Definition delhi : hourly_data :=
  mkHourly ["2024-01-01T00:00"; "2024-01-01T01:00"]
    [("pm10", [num 20; num 10]);
     ("pm2_5", [num 12; JNull]);
     ("carbon_monoxide", [num 1; num 1]);
     ("nitrogen_dioxide", [num 1; num 1]);
     ("sulphur_dioxide", [num 1; num 1]);
     ("ozone", [num 1; num 1]);
     ("uv_index", [num 0; num 0])].

(** Two hours; the second timestamp is not a date. *)
Definition agra : hourly_data :=
  mkHourly ["2024-01-01T00:00"; "not-a-time"]
    [("pm10", [num 20; num 10]); ("pm2_5", [num 12; num 13])].

(** One hour with readings, one hour with none. *)
Definition kochi : hourly_data :=
  mkHourly ["2024-01-01T00:00"; "2024-01-01T01:00"]
    [("pm10", [num 20]); ("pm2_5", [num 12]);
     ("carbon_monoxide", [num 1]); ("nitrogen_dioxide", [num 1]);
     ("sulphur_dioxide", [num 1]); ("ozone", [num 1])].

Definition pune_file : raw_file := mkRawFile "pune_raw_20240101" (Some pune).
Definition delhi_file : raw_file := mkRawFile "new_delhi_raw_20240101" (Some delhi).
Definition agra_file : raw_file := mkRawFile "agra_raw_20240101" (Some agra).
Definition kochi_file : raw_file := mkRawFile "kochi_raw_20240101" (Some kochi).

(** A file whose name starts with the marker: its city is the empty text. *)
Definition nameless_file : raw_file := mkRawFile "_raw_20240101" (Some delhi).

(** A staged line whose [pm10] field is empty. *)
Definition staged_line : Load.staged_row :=
  Load.mkStagedRow (PStr "Pune") (Some "2024-01-01 05:00:00")
    (PFloat F64.nan) (PFloat (F64.of_Z 12)) (PFloat (F64.of_Z 1))
    (PFloat (F64.of_Z 1)) (PFloat (F64.of_Z 1)) (PFloat (F64.of_Z 1))
    (PFloat F64.zero) (PStr "Good") (PFloat F64.nan) (PStr "Low Risk")
    (PInt 5).

(** 450 records, and a store that refuses batch 2 at every attempt,
    takes batch 1 at once and batch 3 at the second attempt. *)
Definition records450 : list Series := repeat [("city", PStr "Pune")] 450.

Definition store (batch_no attempt : nat) : bool :=
  match batch_no with
  | 1 => true
  | 2 => false
  | _ => attempt =? 1
  end.

End Samples.

(** * Properties *)

Import Transform.

(** ** Generic lemmas *)

Lemma mapM_value {A B : Type} (f : A -> outcome B) (d : B) (l : list A) (vs : list B) :
  mapM f l = Ok vs -> vs = map (fun a => value d (f a)) l.
Proof.
  revert vs; induction l as [|a l IH]; intros vs H; simpl in *.
  - now inversion H.
  - destruct (f a) as [b|e]; simpl in H; [|discriminate].
    destruct (mapM f l) as [bs|e]; simpl in H; [|discriminate].
    inversion H; subst. simpl. now rewrite <- (IH bs eq_refl).
Qed.

Lemma mapM_Forall {A B : Type} (f : A -> outcome B) (l : list A) (vs : list B) :
  mapM f l = Ok vs -> Forall (fun a => exists b, f a = Ok b) l.
Proof.
  revert vs; induction l as [|a l IH]; intros vs H; simpl in *; [constructor|].
  destruct (f a) as [b|e] eqn:Ea; simpl in H; [|discriminate].
  destruct (mapM f l) as [bs|e]; simpl in H; [|discriminate].
  constructor; eauto.
Qed.

Lemma assign_map (F : Series -> Series) (h : Series -> pyval) (name : string)
      (l : list Series) :
  assign (map F l) name (map h l) = map (fun r => F r ++ [(name, h r)]) l.
Proof.
  induction l as [|r l IH]; simpl; [reflexivity|]. now rewrite IH.
Qed.

Lemma assign_same (h : Series -> pyval) (name : string) (l : list Series) :
  assign l name (map h l) = map (fun r => r ++ [(name, h r)]) l.
Proof.
  induction l as [|r l IH]; simpl; [reflexivity|]. now rewrite IH.
Qed.

Lemma lookup_app {V : Type} (k : string) (d1 d2 : list (string * V)) :
  lookup k (d1 ++ d2) =
  match lookup k d1 with
  | Some v => Some v
  | None => lookup k d2
  end.
Proof.
  induction d1 as [|[k' v] d1 IH]; simpl; [reflexivity|].
  destruct (String.eqb k k'); auto.
Qed.

Lemma lookup_None_keys {V : Type} (k : string) (d : list (string * V)) :
  ~ In k (map fst d) -> lookup k d = None.
Proof.
  induction d as [|[k' v] d IH]; simpl; intros H; [reflexivity|].
  destruct (String.eqb k k') eqn:E.
  - apply String.eqb_eq in E. subst. tauto.
  - apply IH. tauto.
Qed.

(** ** NaN in binary64 arithmetic *)

Lemma mul_nan_l (y : F64.float) : F64.mul F64.nan y = F64.nan.
Proof. reflexivity. Qed.

Lemma add_nan_l (y : F64.float) : F64.add F64.nan y = F64.nan.
Proof. reflexivity. Qed.

Lemma add_nan_r (x : F64.float) : F64.add x F64.nan = F64.nan.
Proof. destruct x; reflexivity. Qed.

Lemma gtb_nan (y : F64.float) : F64.gtb F64.nan y = false.
Proof. destruct y; reflexivity. Qed.

(** A NaN reading of a weighted pollutant makes the severity NaN. *)
Lemma compute_severity_nan (row : Series) (key : string) (sev : F64.float) :
  In key weighted_pollutants ->
  get row key (PInt 0) = PFloat F64.nan ->
  compute_severity row = Ok sev ->
  sev = F64.nan.
Proof.
  intros Hin Hnan. unfold compute_severity.
  assert (Hw : forall w, weighted row key w = Ok F64.nan).
  { intros w. unfold weighted. now rewrite Hnan. }
  destruct (weighted row "pm2_5" 5) as [a|] eqn:Ea; simpl; [|discriminate].
  destruct (weighted row "pm10" 3) as [b|] eqn:Eb; simpl; [|discriminate].
  destruct (weighted row "nitrogen_dioxide" 4) as [c|] eqn:Ec; simpl; [|discriminate].
  destruct (weighted row "sulphur_dioxide" 4) as [d|] eqn:Ed; simpl; [|discriminate].
  destruct (weighted row "carbon_monoxide" 2) as [e|] eqn:Ee; simpl; [|discriminate].
  destruct (weighted row "ozone" 3) as [f|] eqn:Ef; simpl; [|discriminate].
  intros H; inversion H; subst sev; clear H.
  simpl in Hin.
  repeat (destruct Hin as [<-|Hin];
          [ rewrite Hw in *;
            repeat match goal with
                   | H : Ok _ = Ok _ |- _ => inversion H; subst; clear H
                   end;
            now rewrite ?add_nan_l, ?add_nan_r
          | ]).
  contradiction.
Qed.

(** ** The Flattener, row by row *)

Section FlattenerFacts.

Variable parse_datetime : string -> option Timestamp.
Variable parse_number : string -> option F64.float.

Local Abbreviation build_row := (build_row parse_datetime parse_number).
Local Abbreviation build_rows_from := (build_rows_from parse_datetime parse_number).
Local Abbreviation build_rows := (build_rows parse_datetime parse_number).
Local Abbreviation collect_records := (collect_records parse_datetime parse_number).
Local Abbreviation transform := (transform parse_datetime parse_number).
Local Abbreviation reading := (reading parse_number).

Lemma build_row_Ok city hourly i ts row :
  build_row city hourly i ts = Ok row ->
  exists t, to_datetime parse_datetime ts = Ok t /\
            row = ("city", PStr city) :: ("time", PTime t) ::
                  map (fun pol => (pol, reading hourly i pol)) POLLUTANTS.
Proof.
  unfold Transform.build_row.
  destruct (to_datetime parse_datetime ts) as [t|e]; simpl; [|discriminate].
  intros H; inversion H; eauto.
Qed.

Lemma build_row_keys city hourly i ts row :
  build_row city hourly i ts = Ok row -> map fst row = base_columns.
Proof.
  intros H. apply build_row_Ok in H as (t & _ & ->). reflexivity.
Qed.

Lemma build_rows_from_keys city hourly times : forall i rows,
  build_rows_from city hourly i times = Ok rows ->
  Forall (fun r => map fst r = base_columns) rows.
Proof.
  induction times as [|ts times IH]; intros i rows H; simpl in H.
  - inversion H. constructor.
  - destruct (build_row city hourly i ts) as [row|e] eqn:Er; simpl in H; [|discriminate].
    destruct (build_rows_from city hourly (S i) times) as [rs|e] eqn:Ers;
      simpl in H; [|discriminate].
    inversion H; subst. constructor; eauto using build_row_keys.
Qed.

Lemma collect_records_keys files : forall recs,
  collect_records files = Ok recs ->
  Forall (fun r => map fst r = base_columns) recs.
Proof.
  induction files as [|f files IH]; intros recs H; simpl in H.
  - inversion H. constructor.
  - destruct (content f) as [hourly|]; [|now apply IH].
    destruct (h_time hourly) as [|ts times] eqn:Et; [now apply IH|].
    destruct (build_rows (city_of_stem (stem f)) hourly) as [rows|e] eqn:Er;
      simpl in H; [|discriminate].
    destruct (collect_records files) as [more|e]; simpl in H; [|discriminate].
    inversion H; subst. apply Forall_app. split; [|now apply IH].
    unfold Transform.build_rows in Er. eauto using build_rows_from_keys.
Qed.

Lemma DataFrame_keys recs :
  Forall (fun r => map fst r = base_columns) recs ->
  Forall (fun r => map fst r = base_columns) (DataFrame recs).
Proof.
  unfold DataFrame. intros H. apply Forall_map.
  eapply Forall_impl; [|exact H]. cbv beta. intros r Hr.
  rewrite map_map. simpl. exact Hr.
Qed.

Lemma mapM_map {A B C : Type} (f : B -> outcome C) (g : A -> B) (l : list A) :
  mapM f (map g l) = mapM (fun a => f (g a)) l.
Proof.
  induction l as [|a l IH]; simpl; [reflexivity|]. now rewrite IH.
Qed.

Lemma derive_features_Ok df out :
  derive_features df = Ok out ->
  out = map derived df /\
  Forall (fun r => exists sev,
            compute_severity (r ++ [("AQI", value PNone (compute_aqi (get r "pm2_5" PNone)))])
            = Ok sev) df.
Proof.
  unfold derive_features, column.
  destruct (mapM compute_aqi _) as [aqi|e] eqn:Ea; cbn [bind]; [|discriminate].
  apply (mapM_value _ PNone) in Ea. subst aqi.
  rewrite !map_map, assign_same.
  destruct (mapM compute_severity _) as [sev|e] eqn:Es; cbn [bind]; [|discriminate].
  rewrite mapM_map in Es.
  pose proof (mapM_Forall _ _ _ Es) as Hsev.
  apply (mapM_value _ F64.nan) in Es. subst sev.
  rewrite !map_map, assign_map.
  destruct (mapM risk_of _) as [risk|e] eqn:Er; cbn [bind]; [|discriminate].
  apply (mapM_value _ PNone) in Er. subst risk.
  rewrite !map_map, assign_map.
  destruct (mapM hour_of _) as [hours|e] eqn:Eh; cbn [bind]; [|discriminate].
  apply (mapM_value _ PNone) in Eh. subst hours.
  rewrite !map_map, assign_map.
  intros H; inversion H; subst out; clear H.
  split; [reflexivity|]. exact Hsev.
Qed.

(** A successful run: the records were collected, there was at least one,
    and the output extends, row by row, the rows that [dropna] keeps. *)
Lemma transform_Ok files out :
  transform files = Ok out ->
  exists recs,
    collect_records files = Ok recs /\
    recs <> [] /\
    out = map derived (filter (has_reading POLLUTANTS) (DataFrame recs)) /\
    Forall (fun r => exists sev,
              compute_severity (r ++ [("AQI", value PNone (compute_aqi (get r "pm2_5" PNone)))])
              = Ok sev)
           (filter (has_reading POLLUTANTS) (DataFrame recs)).
Proof.
  unfold Transform.transform.
  destruct (collect_records files) as [recs|e]; cbn [bind]; [|discriminate].
  unfold dropna_all.
  destruct (DataFrame recs) as [|r0 df0] eqn:Edf; cbn [bind]; [discriminate|].
  intros H. apply derive_features_Ok in H as [-> Hsev].
  exists recs. rewrite Edf. split; [reflexivity|]. split.
  - intros ->. discriminate.
  - split; [reflexivity|]. exact Hsev.
Qed.

End FlattenerFacts.

(** ** Cells of an output row *)

Lemma get_app_l {V : Type} (k : string) (d1 d2 : list (string * V)) (x : V) :
  In k (map fst d1) -> get (d1 ++ d2) k x = get d1 k x.
Proof.
  intros Hin. unfold get. rewrite lookup_app.
  destruct (lookup k d1) eqn:E; [reflexivity|].
  exfalso. induction d1 as [|[k' v] d1 IH]; simpl in *; [contradiction|].
  destruct (String.eqb k k') eqn:Ek; [discriminate|].
  destruct Hin as [->|Hin]; [|auto].
  now rewrite String.eqb_refl in Ek.
Qed.

Lemma get_app_r {V : Type} (k : string) (d1 d2 : list (string * V)) (x : V) :
  ~ In k (map fst d1) -> get (d1 ++ d2) k x = get d2 k x.
Proof.
  intros Hin. unfold get. now rewrite lookup_app, (lookup_None_keys k d1 Hin).
Qed.

Lemma derived_cells (row : Series) :
  map fst row = base_columns ->
  get (derived row) "severity" PNone = PFloat (severity_of row) /\
  get (derived row) "risk" PNone = PStr (classify_risk (severity_of row)) /\
  (forall k, In k base_columns -> get (derived row) k PNone = get row k PNone) /\
  (forall k, In k base_columns -> get (with_aqi row) k (PInt 0) = get row k (PInt 0)).
Proof.
  intros Hk.
  assert (Hsev : forall tl, get ((with_aqi row ++ [("severity", PFloat (severity_of row))]) ++ tl)
                                "severity" PNone = PFloat (severity_of row)).
  { intros tl. unfold with_aqi. rewrite <- !app_assoc.
    rewrite get_app_r by (rewrite Hk; simpl; intuition discriminate).
    reflexivity. }
  unfold derived.
  repeat split.
  - rewrite <- app_assoc. apply Hsev.
  - pose proof (Hsev []) as H0. rewrite app_nil_r in H0. rewrite H0.
    unfold with_aqi. rewrite <- !app_assoc.
    rewrite get_app_r by (rewrite Hk; simpl; intuition discriminate).
    reflexivity.
  - intros k Hin. unfold with_aqi. rewrite <- !app_assoc.
    apply get_app_l. now rewrite Hk.
  - intros k Hin. unfold with_aqi. apply get_app_l. now rewrite Hk.
Qed.

Lemma get_default {V : Type} (k : string) (d : list (string * V)) (x y : V) :
  In k (map fst d) -> get d k x = get d k y.
Proof.
  intros Hin. unfold get. destruct (lookup k d) eqn:E; [reflexivity|].
  exfalso. induction d as [|[k' v] d IH]; simpl in *; [contradiction|].
  destruct (String.eqb k k') eqn:Ek; [discriminate|].
  destruct Hin as [->|Hin]; [|auto].
  now rewrite String.eqb_refl in Ek.
Qed.

Lemma weighted_in_base (k : string) :
  In k weighted_pollutants -> In k base_columns.
Proof. simpl. intuition. Qed.

Lemma pollutant_in_base (k : string) : In k POLLUTANTS -> In k base_columns.
Proof. simpl. intuition. Qed.

Lemma firstn_derived (row : Series) :
  map fst row = base_columns -> firstn (List.length base_columns) (derived row) = row.
Proof.
  intros Hk. unfold derived, with_aqi. rewrite <- !app_assoc.
  replace (List.length base_columns) with (List.length row + 0).
  - rewrite firstn_app_2. simpl. apply app_nil_r.
  - rewrite <- Hk, length_map. lia.
Qed.

Section FlattenerClaims.

Variable parse_datetime : string -> option Timestamp.
Variable parse_number : string -> option F64.float.

(** The rows that a successful run derives its output from. *)
Lemma transform_rows files out :
  transform parse_datetime parse_number files = Ok out ->
  exists recs,
    collect_records parse_datetime parse_number files = Ok recs /\
    out = map derived (filter (has_reading POLLUTANTS) (DataFrame recs)) /\
    Forall (fun r => map fst r = base_columns /\
                     exists sev, compute_severity (with_aqi r) = Ok sev)
           (filter (has_reading POLLUTANTS) (DataFrame recs)).
Proof.
  intros H. apply transform_Ok in H as (recs & Hc & _ & -> & Hsev).
  exists recs. repeat split; auto.
  pose proof (DataFrame_keys _ (collect_records_keys _ _ _ _ Hc)) as Hk.
  rewrite Forall_forall in *. intros r Hr. split; [|now apply Hsev].
  apply Hk. now apply filter_In in Hr.
Qed.

End FlattenerClaims.

(** C10. Classifying a NaN severity gives Low Risk; so in the output of
    the transform step every row whose severity is NaN, and in particular
    every row with a NaN reading of a weighted pollutant, has risk
    "Low Risk". *)
Theorem nan_severity_is_low_risk :
  classify_risk F64.nan = "Low Risk" /\
  forall parse_datetime parse_number files out row,
    transform parse_datetime parse_number files = Ok out ->
    In row out ->
    (get row "severity" PNone = PFloat F64.nan ->
     get row "risk" PNone = PStr "Low Risk") /\
    (forall key, In key weighted_pollutants ->
                 get row key PNone = PFloat F64.nan ->
                 get row "severity" PNone = PFloat F64.nan /\
                 get row "risk" PNone = PStr "Low Risk").
Proof.
  split; [reflexivity|].
  intros pd pn files out row Ht Hin.
  apply transform_rows in Ht as (recs & _ & -> & Hall).
  apply in_map_iff in Hin as (r & <- & Hr).
  rewrite Forall_forall in Hall. destruct (Hall r Hr) as [Hk [sev Hsev]].
  destruct (derived_cells r Hk) as (Hs & Hrisk & Hbase & Haqi).
  assert (Hlow : severity_of r = F64.nan -> get (derived r) "risk" PNone = PStr "Low Risk").
  { intros E. now rewrite Hrisk, E. }
  split.
  - rewrite Hs. intros E. apply Hlow. congruence.
  - intros key Hkey Hnan.
    assert (E : severity_of r = F64.nan).
    { unfold severity_of. rewrite Hsev. simpl.
      apply (compute_severity_nan (with_aqi r) key sev Hkey); [|exact Hsev].
      rewrite Haqi by now apply weighted_in_base.
      rewrite <- Hnan, Hbase by now apply weighted_in_base.
      apply get_default. rewrite Hk. now apply weighted_in_base. }
    split; [now rewrite Hs, E | now apply Hlow].
Qed.

Lemma nan_severity_is_low_risk_witness :
  let out := value [] (transform parse_iso parse_digits [Samples.delhi_file]) in
  get (nth 1 out []) "pm2_5" PNone = PFloat F64.nan /\
  get (nth 1 out []) "severity" PNone = PFloat F64.nan /\
  get (nth 1 out []) "risk" PNone = PStr "Low Risk".
Proof.
  intros out. split; [vm_compute; reflexivity|].
  refine (proj2 (proj2 nan_severity_is_low_risk parse_iso parse_digits
                   [Samples.delhi_file] out (nth 1 out []) _ _) "pm2_5" _ _).
  - vm_compute. reflexivity.
  - vm_compute. right. left. reflexivity.
  - simpl. left. reflexivity.
  - vm_compute. reflexivity.
Defined.

(** C7. Every row of the transform step's output has a non-null pollutant
    field; the output rows are, in order, exactly the rows of the frame
    that have one: a row whose seven pollutant fields are all null is
    excluded, a row with a non-null pollutant field is retained. *)
Theorem output_rows_have_a_reading :
  forall parse_datetime parse_number files out,
    transform parse_datetime parse_number files = Ok out ->
    Forall (fun row => exists pol, In pol POLLUTANTS /\
                                   notnull (get row pol PNone) = true) out /\
    exists recs,
      collect_records parse_datetime parse_number files = Ok recs /\
      map (firstn (List.length base_columns)) out
      = filter (has_reading POLLUTANTS) (DataFrame recs) /\
      forall r, In r (DataFrame recs) ->
        (forallb (fun pol => isna (get r pol PNone)) POLLUTANTS = true ->
         ~ In r (map (firstn (List.length base_columns)) out)) /\
        ((exists pol, In pol POLLUTANTS /\ notnull (get r pol PNone) = true) ->
         In r (map (firstn (List.length base_columns)) out)).
Proof.
  intros pd pn files out Ht.
  apply transform_rows in Ht as (recs & Hc & -> & Hall).
  rewrite Forall_forall in Hall.
  assert (Hfirst : map (firstn (List.length base_columns))
                       (map derived (filter (has_reading POLLUTANTS) (DataFrame recs)))
                   = filter (has_reading POLLUTANTS) (DataFrame recs)).
  { rewrite map_map. rewrite <- (map_id (filter _ _)) at 2.
    apply map_ext_in. intros r Hr. apply firstn_derived. now apply Hall. }
  split.
  - apply Forall_forall. intros row Hin.
    apply in_map_iff in Hin as (r & <- & Hr).
    destruct (Hall r Hr) as [Hk _].
    apply filter_In in Hr as [_ Hr]. unfold has_reading in Hr.
    apply existsb_exists in Hr as (pol & Hpol & Hnn).
    exists pol. split; [exact Hpol|].
    destruct (derived_cells r Hk) as (_ & _ & Hbase & _).
    rewrite Hbase by now apply pollutant_in_base. exact Hnn.
  - exists recs. split; [exact Hc|]. split; [exact Hfirst|].
    intros r Hr. rewrite Hfirst. split.
    + intros Hnull Hin. apply filter_In in Hin as [_ Hin].
      unfold has_reading in Hin. apply existsb_exists in Hin as (pol & Hpol & Hnn).
      rewrite forallb_forall in Hnull. specialize (Hnull pol Hpol).
      unfold notnull in Hnn. rewrite Hnull in Hnn. discriminate.
    + intros (pol & Hpol & Hnn). apply filter_In. split; [exact Hr|].
      unfold has_reading. apply existsb_exists. eauto.
Qed.

Lemma output_rows_have_a_reading_witness :
  let out := value [] (transform parse_iso parse_digits [Samples.kochi_file]) in
  List.length out = 1 /\
  Forall (fun row => exists pol, In pol POLLUTANTS /\
                                 notnull (get row pol PNone) = true) out.
Proof.
  intros out. split; [vm_compute; reflexivity|].
  refine (proj1 (output_rows_have_a_reading parse_iso parse_digits
                   [Samples.kochi_file] out _)).
  vm_compute. reflexivity.
Defined.

(** With a number for each of its six readings the severity is the
    weighted sum, in binary64, added from left to right. *)
Lemma compute_severity_full (row : Series) (pm2_5 pm10 no2 so2 co o3 : F64.float) :
  map (fun k => get row k (PInt 0)) weighted_pollutants
  = map PFloat [pm2_5; pm10; no2; so2; co; o3] ->
  compute_severity row
  = Ok (F64.add (F64.add (F64.add (F64.add (F64.add
         (F64.mul pm2_5 (F64.of_Z 5)) (F64.mul pm10 (F64.of_Z 3)))
         (F64.mul no2 (F64.of_Z 4))) (F64.mul so2 (F64.of_Z 4)))
         (F64.mul co (F64.of_Z 2))) (F64.mul o3 (F64.of_Z 3))).
Proof.
  cbn [map weighted_pollutants]. intros H.
  injection H as H1 H2 H3 H4 H5 H6.
  unfold compute_severity, weighted.
  now rewrite H1, H2, H3, H4, H5, H6.
Qed.

(** C1 (the code departs from it). In the run on [Samples.delhi_file] the
    first row has all its readings and gets the weighted sum,
    5*12 + 3*20 + 4*1 + 4*1 + 2*1 + 3*1 = 133.  The second row has a null
    [pm2_5] and the readings 10, 1, 1, 1, 1 for the five other weighted
    pollutants; its severity is NaN, not the sum 3*10 + 4 + 4 + 2 + 3 = 43
    over the readings it has. *)
Theorem severity_with_null_reading_is_nan :
  exists r1 r2,
    transform parse_iso parse_digits [Samples.delhi_file] = Ok [r1; r2] /\
    get r1 "severity" PNone = PFloat (F64.of_Z 133) /\
    get r2 "pm2_5" PNone = PFloat F64.nan /\
    map (fun k => get r2 k PNone)
        ["pm10"; "nitrogen_dioxide"; "sulphur_dioxide"; "carbon_monoxide"; "ozone"]
    = map (fun n => PFloat (F64.of_Z n)) [10; 1; 1; 1; 1]%Z /\
    get r2 "severity" PNone = PFloat F64.nan /\
    get r2 "severity" PNone <> PFloat (F64.of_Z 43).
Proof.
  do 2 eexists. split; [vm_compute; reflexivity|].
  split; [vm_compute; reflexivity|].
  split; [vm_compute; reflexivity|].
  split; [vm_compute; reflexivity|].
  split; [vm_compute; reflexivity|].
  vm_compute. discriminate.
Qed.

(** ** The row-building loop *)

Section RowLoop.

Variable parse_datetime : string -> option Timestamp.
Variable parse_number : string -> option F64.float.

Lemma to_datetime_raises ts e :
  to_datetime parse_datetime ts = Raise e -> e = ValueError.
Proof.
  unfold to_datetime. destruct (parse_datetime ts) as [t|].
  - destruct (valid_timestamp t); [discriminate|]. now intros [= <-].
  - now intros [= <-].
Qed.

Lemma build_row_raises city hourly i ts e :
  build_row parse_datetime parse_number city hourly i ts = Raise e ->
  e = ValueError.
Proof.
  unfold build_row.
  destruct (to_datetime parse_datetime ts) as [t|e'] eqn:E; simpl; [discriminate|].
  intros [= <-]. eauto using to_datetime_raises.
Qed.

Lemma build_rows_from_raises city hourly times : forall i e,
  build_rows_from parse_datetime parse_number city hourly i times = Raise e ->
  e = ValueError.
Proof.
  induction times as [|ts times IH]; intros i e; simpl; [discriminate|].
  destruct (build_row _ _ city hourly i ts) as [row|e'] eqn:Er; simpl.
  - destruct (build_rows_from _ _ city hourly (S i) times) as [rows|e''] eqn:Ers;
      simpl; [discriminate|].
    intros [= <-]. eauto.
  - intros [= <-]. eauto using build_row_raises.
Qed.

Lemma build_rows_from_bad city hourly ts times : forall i,
  In ts times -> parse_datetime ts = None ->
  build_rows_from parse_datetime parse_number city hourly i times = Raise ValueError.
Proof.
  induction times as [|ts' times IH]; intros i Hin Hbad; [contradiction|].
  simpl.
  destruct (build_row _ _ city hourly i ts') as [row|e] eqn:Er; simpl.
  - destruct Hin as [->|Hin].
    + unfold build_row, to_datetime in Er. rewrite Hbad in Er. discriminate.
    + now rewrite IH.
  - f_equal. eauto using build_row_raises.
Qed.

Lemma collect_records_raises files : forall e,
  collect_records parse_datetime parse_number files = Raise e -> e = ValueError.
Proof.
  induction files as [|f files IH]; intros e; simpl; [discriminate|].
  destruct (content f) as [hourly|]; [|apply IH].
  destruct (h_time hourly) as [|ts times] eqn:Et; [apply IH|].
  destruct (build_rows _ _ (city_of_stem (stem f)) hourly) as [rows|e'] eqn:Er; simpl.
  - destruct (collect_records _ _ files) as [more|e'']; simpl; [discriminate|].
    intros [= <-]. eauto.
  - intros [= <-]. unfold build_rows in Er. eauto using build_rows_from_raises.
Qed.

Lemma collect_records_bad files f hourly ts :
  In f files -> content f = Some hourly -> In ts (h_time hourly) ->
  parse_datetime ts = None ->
  collect_records parse_datetime parse_number files = Raise ValueError.
Proof.
  intros Hf Hc Hts Hbad.
  induction files as [|f' files IH]; [contradiction|].
  simpl. destruct Hf as [->|Hf].
  - rewrite Hc. destruct (h_time hourly) as [|ts' times] eqn:Et; [contradiction|].
    unfold build_rows. rewrite Et.
    now rewrite (build_rows_from_bad _ _ ts (ts' :: times) 0 Hts Hbad).
  - specialize (IH Hf).
    destruct (content f') as [h'|]; [|exact IH].
    destruct (h_time h') as [|ts' times] eqn:Et; [exact IH|].
    destruct (build_rows _ _ (city_of_stem (stem f')) h') as [rows|e] eqn:Er; simpl.
    + now rewrite IH.
    + f_equal. unfold build_rows in Er. eauto using build_rows_from_raises.
Qed.

Lemma reading_nth_error hourly i pol :
  reading parse_number hourly i pol =
  match lookup pol (h_series hourly) with
  | None => PNone
  | Some values =>
      match nth_error values i with
      | Some v => PFloat (to_numeric parse_number v)
      | None => PNone
      end
  end.
Proof.
  unfold reading, get.
  destruct (lookup pol (h_series hourly)) as [values|]; simpl.
  - destruct (Nat.ltb_spec i (List.length values)) as [Hlt|Hge].
    + destruct (nth_error values i) as [v|] eqn:E.
      * now rewrite (nth_error_nth _ _ _ E).
      * apply nth_error_None in E. lia.
    + apply nth_error_None in Hge. now rewrite Hge.
  - now destruct i.
Qed.

Lemma row_pollutant city t hourly i pol :
  In pol POLLUTANTS ->
  get (("city", PStr city) :: ("time", PTime t)
         :: map (fun p => (p, reading parse_number hourly i p)) POLLUTANTS)
      pol PNone
  = reading parse_number hourly i pol.
Proof.
  simpl. intros H.
  repeat (destruct H as [<-|H]; [reflexivity|]). contradiction.
Qed.

Lemma build_rows_from_rows city hourly times : forall i,
  Forall (fun ts => exists t, to_datetime parse_datetime ts = Ok t) times ->
  exists rows,
    build_rows_from parse_datetime parse_number city hourly i times = Ok rows /\
    List.length rows = List.length times /\
    forall j, j < List.length times ->
      exists t, to_datetime parse_datetime (nth j times "") = Ok t /\
        nth j rows [] =
        ("city", PStr city) :: ("time", PTime t)
          :: map (fun p => (p, reading parse_number hourly (i + j) p)) POLLUTANTS.
Proof.
  induction times as [|ts times IH]; intros i Hok.
  - exists []. simpl. repeat split; auto. intros j Hj. lia.
  - inversion Hok as [|? ? [t Ht] Hrest]; subst.
    destruct (IH (S i) Hrest) as (rows & Hrows & Hlen & Hnth).
    simpl. unfold build_row. rewrite Ht. simpl. rewrite Hrows. simpl.
    eexists. split; [reflexivity|]. split; [simpl; now rewrite Hlen|].
    intros [|j] Hj; simpl.
    + exists t. split; [exact Ht|]. now rewrite Nat.add_0_r.
    + simpl in Hj. destruct (Hnth j ltac:(lia)) as (t' & Ht' & E).
      exists t'. split; [exact Ht'|]. rewrite E.
      now replace (i + S j) with (S i + j) by lia.
Qed.

End RowLoop.

(** C2 (the code departs from it). A timestamp that does not parse, in any
    document with a non-empty time axis, makes the whole transform step
    raise: no row is produced, for that document or for any other. *)
Theorem unparseable_timestamp_aborts :
  forall parse_datetime parse_number files f hourly ts,
    In f files -> content f = Some hourly -> In ts (h_time hourly) ->
    parse_datetime ts = None ->
    transform parse_datetime parse_number files = Raise ValueError.
Proof.
  intros pd pn files f hourly ts Hf Hc Hts Hbad.
  unfold transform.
  now rewrite (collect_records_bad pd pn files f hourly ts Hf Hc Hts Hbad).
Qed.

Lemma unparseable_timestamp_aborts_witness :
  parse_iso "not-a-time" = None /\
  transform parse_iso parse_digits [Samples.pune_file; Samples.agra_file]
  = Raise ValueError.
Proof.
  split; [reflexivity|].
  apply (unparseable_timestamp_aborts parse_iso parse_digits
           [Samples.pune_file; Samples.agra_file]
           Samples.agra_file Samples.agra "not-a-time").
  - right. left. reflexivity.
  - reflexivity.
  - right. left. reflexivity.
  - reflexivity.
Defined.

(** ** The batch loop *)

Import Load.

Lemma failed_batches_app (l1 l2 : list event) :
  failed_batches (l1 ++ l2) = failed_batches l1 ++ failed_batches l2.
Proof.
  induction l1 as [|[] l1 IH]; simpl; auto. now rewrite IH.
Qed.

Lemma verdicts_app (l1 l2 : list event) :
  verdicts (l1 ++ l2) = verdicts l1 ++ verdicts l2.
Proof.
  induction l1 as [|[] l1 IH]; simpl; auto; now rewrite IH.
Qed.

Lemma failed_batches_retries (attempt n : nat) :
  failed_batches (retries attempt n) = [].
Proof. revert attempt; induction n; intros; simpl; auto. Qed.

Lemma verdicts_retries (attempt n : nat) : verdicts (retries attempt n) = [].
Proof. revert attempt; induction n; intros; simpl; auto. Qed.

Section BatchLoop.

Variable MAX_RETRIES : Z.
Variable insert_ok : nat -> nat -> bool.

(** Every allowed attempt fails: the batch is reported failed and the
    counter and the table stay as they were. *)
Lemma insert_batch_exhausted batch_no batch : forall left attempt st,
  (forall a, a < left -> insert_ok batch_no (attempt + a) = false) ->
  insert_batch MAX_RETRIES insert_ok left attempt batch_no batch st
  = mkState (total_inserted st) (table st)
            (log st ++ retries attempt left ++ [BatchFailed batch_no MAX_RETRIES]).
Proof.
  induction left as [|left IH]; intros attempt st Hfail; cbn [insert_batch retries].
  - reflexivity.
  - assert (E : insert_ok batch_no attempt = false)
      by (rewrite <- (Nat.add_0_r attempt); apply Hfail; lia).
    rewrite E, IH.
    + unfold emit; cbn [total_inserted table log]. f_equal.
      now rewrite <- app_assoc.
    + intros a Ha. replace (S attempt + a) with (attempt + S a) by lia.
      apply Hfail. lia.
Qed.

(** Some allowed attempt succeeds: the batch is inserted at the first
    such attempt. *)
Lemma insert_batch_inserted batch_no batch : forall left attempt st,
  (exists a, a < left /\ insert_ok batch_no (attempt + a) = true) ->
  exists k, k < left /\
    insert_batch MAX_RETRIES insert_ok left attempt batch_no batch st
    = mkState (total_inserted st + List.length batch) (table st ++ batch)
              (log st ++ retries attempt k
                      ++ [Inserted batch_no (List.length batch)]).
Proof.
  induction left as [|left IH]; intros attempt st (a & Ha & Hok); [lia|].
  cbn [insert_batch]. destruct (insert_ok batch_no attempt) eqn:E.
  - exists 0. split; [lia|]. reflexivity.
  - destruct a as [|a]; [rewrite Nat.add_0_r in Hok; congruence|].
    destruct (IH (S attempt)
                 (emit st [AttemptFailed (S attempt); Slept (2 ^ Z.of_nat (S attempt))]))
      as (k & Hk & Hres).
    + exists a. split; [lia|]. now replace (S attempt + a) with (attempt + S a) by lia.
    + exists (S k). split; [lia|]. rewrite Hres.
      unfold emit; cbn [total_inserted table log retries]. f_equal.
      now rewrite <- app_assoc.
Qed.

End BatchLoop.

Lemma slice_length (records : list Series) (size i : nat) :
  List.length (slice (Z.of_nat size) records i)
  = Nat.min size (List.length records - i).
Proof.
  unfold slice. now rewrite Nat2Z.id, length_firstn, length_skipn.
Qed.

(** C3. With 450 records, a batch size of 200 and 2 retries, the loop
    forms the batches at offsets 0, 200 and 400, of 200, 200 and 50
    records.  If the store refuses batch 2 at each of its three attempts
    and accepts batches 1 and 3 at some attempt, the run ends with 250
    rows inserted, reports batch 2 and no other as failed, and goes on to
    insert batch 3 after it. *)
Theorem commit_450_rows_batch_2_failing :
  forall (insert_ok : nat -> nat -> bool) (records : list Series),
    List.length records = 450 ->
    (forall attempt, attempt <= 2 -> insert_ok 2 attempt = false) ->
    (exists attempt, attempt <= 2 /\ insert_ok 1 attempt = true) ->
    (exists attempt, attempt <= 2 /\ insert_ok 3 attempt = true) ->
    range (List.length records) 200 = Ok [0; 200; 400] /\
    map (fun i => List.length (slice 200 records i)) [0; 200; 400]
    = [200; 200; 50] /\
    slice 200 records 0 ++ slice 200 records 200 ++ slice 200 records 400
    = records /\
    exists st k1 k3,
      insert_all 200 2 insert_ok records = Ok st /\
      total_inserted st = 250 /\
      failed_batches (log st) = [2] /\
      verdicts (log st) = [(1, true); (2, false); (3, true)] /\
      table st = slice 200 records 0 ++ slice 200 records 400 /\
      k1 <= 2 /\ k3 <= 2 /\
      log st = retries 0 k1 ++ [Inserted 1 200]
               ++ retries 0 3 ++ [BatchFailed 2 2]
               ++ retries 0 k3 ++ [Inserted 3 50]
               ++ [TotalInserted 250].
Proof.
  intros insert_ok records Hlen Hfail H1 H3.
  assert (L0 : List.length (slice 200 records 0) = 200)
    by (change 200%Z with (Z.of_nat 200); rewrite slice_length, Hlen; reflexivity).
  assert (L1 : List.length (slice 200 records 200) = 200)
    by (change 200%Z with (Z.of_nat 200); rewrite slice_length, Hlen; reflexivity).
  assert (L2 : List.length (slice 200 records 400) = 50)
    by (change 200%Z with (Z.of_nat 200); rewrite slice_length, Hlen; reflexivity).
  split; [rewrite Hlen; reflexivity|].
  split; [simpl map; now rewrite L0, L1, L2|].
  split.
  { unfold slice. change (Z.to_nat 200) with 200. simpl skipn at 1.
    rewrite <- (firstn_skipn 200 records) at 4. f_equal.
    rewrite <- (firstn_skipn 200 (skipn 200 records)) at 2. f_equal.
    rewrite skipn_skipn. simpl Nat.add.
    apply firstn_all2. rewrite length_skipn, Hlen. simpl. lia. }
  unfold insert_all. rewrite Hlen.
  change (range 450 200) with (Ok (A := list nat) [0; 200; 400]).
  cbn [bind fold_left]. unfold insert_step.
  change (Z.to_nat (2 + 1)) with 3.
  change (batch_number 200 0) with 1.
  change (batch_number 200 200) with 2.
  change (batch_number 200 400) with 3.
  destruct (insert_batch_inserted 2 insert_ok 1 (slice 200 records 0) 3 0 initial)
    as (k1 & Hk1 & ->).
  { destruct H1 as (a & Ha & Hok). exists a. split; [lia | exact Hok]. }
  rewrite (insert_batch_exhausted 2 insert_ok 2 (slice 200 records 200) 3 0)
    by (intros a Ha; apply Hfail; simpl; lia).
  match goal with
  | |- context [insert_batch 2 insert_ok 3 0 3 ?b ?st] =>
      destruct (insert_batch_inserted 2 insert_ok 3 b 3 0 st) as (k3 & Hk3 & ->)
  end.
  { destruct H3 as (a & Ha & Hok). exists a. split; [lia | exact Hok]. }
  eexists. exists k1, k3. split; [reflexivity|].
  unfold emit. cbn [total_inserted table log initial].
  rewrite L0, L2. cbn [app Nat.add].
  repeat split; try lia.
  - rewrite !failed_batches_app, !failed_batches_retries. reflexivity.
  - rewrite !verdicts_app, !verdicts_retries. reflexivity.
  - rewrite <- !app_assoc. reflexivity.
Qed.

Lemma commit_450_rows_batch_2_failing_witness :
  exists st,
    insert_all 200 2 Samples.store Samples.records450 = Ok st /\
    total_inserted st = 250 /\
    failed_batches (log st) = [2] /\
    verdicts (log st) = [(1, true); (2, false); (3, true)].
Proof.
  destruct (commit_450_rows_batch_2_failing Samples.store Samples.records450)
    as (_ & _ & _ & st & k1 & k3 & Hst & Htotal & Hfailed & Hverdicts & _).
  - vm_compute. reflexivity.
  - intros attempt _. reflexivity.
  - exists 0. split; [lia | reflexivity].
  - exists 1. split; [lia | reflexivity].
  - exists st. repeat split; assumption.
Defined.

(** ** Timestamps as ISO-8601 text *)

Lemma digit_value_digit (n : nat) : digit_value (digit n) = Some (n mod 10).
Proof.
  unfold digit_value, digit.
  assert (H : n mod 10 < 10) by (apply Nat.mod_upper_bound; lia).
  rewrite nat_ascii_embedding by lia.
  replace ((48 <=? 48 + n mod 10) && (48 + n mod 10 <=? 57)) with true.
  - f_equal. lia.
  - symmetry. apply andb_true_iff. split; apply Nat.leb_le; lia.
Qed.

Lemma two_digits_value (n : nat) :
  n < 100 ->
  digits_value 0 (String (digit (n / 10)) (String (digit n) "")) = Some n.
Proof.
  intros H. cbn [digits_value]. rewrite !digit_value_digit. f_equal.
  pose proof (Nat.div_mod_eq n 10).
  assert (n / 10 < 10) by (apply Nat.Div0.div_lt_upper_bound; lia).
  rewrite (Nat.mod_small (n / 10)) by lia. lia.
Qed.

Lemma four_digits_value (n : nat) :
  n < 100 * 100 ->
  digits_value 0 (String (digit (n / 1000)) (String (digit (n / 100))
                   (String (digit (n / 10)) (String (digit n) ""))))
  = Some n.
Proof.
  intros H. cbn [digits_value]. rewrite !digit_value_digit. f_equal.
  assert (E1 : n / 100 = n / 10 / 10) by (now rewrite Nat.Div0.div_div).
  assert (E2 : n / 1000 = n / 10 / 10 / 10) by (now rewrite !Nat.Div0.div_div).
  rewrite E1, E2.
  pose proof (Nat.div_mod_eq n 10).
  pose proof (Nat.div_mod_eq (n / 10) 10).
  pose proof (Nat.div_mod_eq (n / 10 / 10) 10).
  assert (n / 10 / 10 / 10 < 10).
  { rewrite <- E2. apply Nat.Div0.div_lt_upper_bound; lia. }
  rewrite (Nat.mod_small (n / 10 / 10 / 10)) by lia. lia.
Qed.

Lemma strftime_iso_is_iso8601 (t : Timestamp) :
  valid_timestamp t = true -> is_iso8601 (strftime_iso t) = true.
Proof.
  unfold valid_timestamp, ts_key. destruct t as [y mo d h mi sec].
  cbn [year month day hour minute second].
  rewrite !andb_true_iff.
  intros [[[[[[[[Hmo1 Hmo2] Hd1] Hd2] Hh] Hmi] Hs] Hlo] Hhi].
  apply Nat.leb_le in Hmo1, Hmo2, Hd1.
  pose proof Hd2 as Hd2'. apply Nat.leb_le in Hd2'.
  apply Nat.ltb_lt in Hh, Hmi, Hs.
  apply Z.leb_le in Hlo, Hhi.
  assert (Hy : y < 100 * 100) by lia.
  assert (Hd : d < 100).
  { assert (days_in_month y mo <= 31); [|lia].
    unfold days_in_month.
    do 12 (destruct mo as [|mo]; [try destruct (leap_year y); lia|]). lia. }
  unfold is_iso8601, strftime_iso, four_digits, two_digits, number_at, char_at.
  cbn -[digit digits_value Nat.div Nat.leb Nat.ltb days_in_month].
  rewrite four_digits_value by exact Hy.
  rewrite !two_digits_value by lia.
  rewrite Hd2.
  repeat (apply andb_true_iff; split);
    try (apply Nat.leb_le; lia); try (apply Nat.ltb_lt; lia); reflexivity.
Qed.

(** ** Records sent to the store *)

Lemma combine_map_r {A B : Type} (f : A -> B) (l : list A) :
  combine l (map f l) = map (fun a => (a, f a)) l.
Proof. induction l as [|a l IH]; simpl; [reflexivity|]. now rewrite IH. Qed.

Section RecordFacts.

Variable parse_datetime : string -> option Timestamp.

Lemma iso_time_Ok cell v :
  iso_time parse_datetime cell = Ok v ->
  (cell = None /\ v = PFloat F64.nan) \/
  (exists s, v = PStr s /\ is_iso8601 s = true).
Proof.
  destruct cell as [s|]; simpl.
  - unfold to_datetime. destruct (parse_datetime s) as [t|]; [|discriminate].
    destruct (valid_timestamp t) eqn:Hv; simpl; [|discriminate].
    intros [= <-]. right. eauto using strftime_iso_is_iso8601.
  - intros [= <-]. now left.
Qed.

Lemma to_records_Ok df records :
  to_records parse_datetime df = Ok records ->
  records = where_notnull (renamed_frame parse_datetime df) /\
  Forall (fun r => exists v, iso_time parse_datetime (c_time r) = Ok v) df.
Proof.
  unfold to_records.
  destruct (mapM (iso_time parse_datetime) (map c_time df)) as [times|e] eqn:E;
    cbn [bind]; [|discriminate].
  rewrite mapM_map in E.
  pose proof (mapM_Forall _ _ _ E) as Hall.
  apply (mapM_value _ PNone) in E. subst times.
  rewrite combine_map_r, !map_map. cbn [fst snd].
  intros [= <-]. split; [reflexivity | exact Hall].
Qed.

(** In every record the [time] field is an ISO-8601 string, or [None]
    when the line had no time. *)
Lemma records_time_is_iso df records :
  to_records parse_datetime df = Ok records ->
  Forall (fun rec => get rec "time" PNone = PNone \/
                     exists s, get rec "time" PNone = PStr s /\
                               is_iso8601 s = true) records.
Proof.
  intros H. apply to_records_Ok in H as [-> Hall].
  unfold where_notnull. apply Forall_map.
  apply Forall_forall. intros row Hrow.
  unfold renamed_frame in Hrow. apply in_map_iff in Hrow as (r & <- & Hr).
  rewrite Forall_forall in Hall. destruct (Hall r Hr) as [v Hv].
  rewrite Hv. cbn [value].
  change (get (map (where_cell (renamed_frame parse_datetime df))
                   (rename rename_map (columns r v))) "time" PNone)
    with (if notnull v then v else PNone).
  destruct (iso_time_Ok _ _ Hv) as [[_ ->]|(s & -> & Hs)].
  - now left.
  - right. exists s. now split.
Qed.

End RecordFacts.

(** C5 (the code departs from it). The staged line [Samples.staged_line]
    has a time and an empty [pm10] field.  Its record carries the time as
    the ISO-8601 string "2024-01-01T05:00:00", but the missing [pm10]
    reading and the missing severity go out as NaN, not as [None]. *)
Theorem null_reading_is_sent_as_nan :
  exists record,
    to_records parse_iso [Samples.staged_line] = Ok [record] /\
    get record "time" PNone = PStr "2024-01-01T05:00:00" /\
    isna (Load.c_pm10 Samples.staged_line) = true /\
    get record "pm10" PNone = PFloat F64.nan /\
    get record "severity_score" PNone = PFloat F64.nan /\
    get record "pm10" PNone <> PNone.
Proof.
  eexists. split; [vm_compute; reflexivity|].
  split; [vm_compute; reflexivity|].
  split; [vm_compute; reflexivity|].
  split; [vm_compute; reflexivity|].
  split; [vm_compute; reflexivity|].
  vm_compute. discriminate.
Qed.

(** ** Counting risk flags *)

Import Analysis.

Lemma count_of_cons (k : string) (v : option string) (flags : list (option string)) :
  count_of k (v :: flags) = (if flag_eqb k v then 1 else 0) + count_of k flags.
Proof. unfold count_of. simpl. now destruct (flag_eqb k v). Qed.

Lemma existsb_eqb_In (s : string) (l : list string) :
  existsb (String.eqb s) l = true <-> In s l.
Proof.
  rewrite existsb_exists. split.
  - intros (x & Hx & E). apply String.eqb_eq in E. now subst.
  - intros H. exists s. split; [exact H | apply String.eqb_refl].
Qed.

Lemma distinct_not_seen (k : string) (flags : list (option string)) :
  forall seen, In k (distinct seen flags) -> ~ In k seen.
Proof.
  induction flags as [|[s|] flags IH]; intros seen Hin; simpl in Hin.
  - contradiction.
  - destruct (existsb (String.eqb s) seen) eqn:E.
    + now apply IH.
    + destruct Hin as [->|Hin].
      * intros H. apply existsb_eqb_In in H. congruence.
      * intros H. apply (IH _ Hin). now right.
  - now apply IH.
Qed.

Lemma distinct_In (k : string) (flags : list (option string)) :
  forall seen, In k (distinct seen flags) -> In (Some k) flags.
Proof.
  induction flags as [|[s|] flags IH]; intros seen Hin; simpl in Hin.
  - contradiction.
  - destruct (existsb (String.eqb s) seen).
    + right. eauto.
    + destruct Hin as [->|Hin]; [now left | right; eauto].
  - right. eauto.
Qed.

Lemma In_distinct (k : string) (flags : list (option string)) :
  forall seen, In (Some k) flags -> ~ In k seen -> In k (distinct seen flags).
Proof.
  induction flags as [|[s|] flags IH]; intros seen Hin Hseen; simpl.
  - contradiction.
  - destruct Hin as [[= ->]|Hin].
    + destruct (existsb (String.eqb k) seen) eqn:E; [|now left].
      apply existsb_eqb_In in E. contradiction.
    + destruct (existsb (String.eqb s) seen) eqn:E; [now apply IH|].
      destruct (String.eqb_spec s k) as [->|Hne]; [now left|].
      right. apply IH; [exact Hin|]. intros [H|H]; [congruence | contradiction].
  - destruct Hin as [H|Hin]; [discriminate | now apply IH].
Qed.

Lemma count_of_pos (k : string) (flags : list (option string)) :
  0 < count_of k flags <-> In (Some k) flags.
Proof.
  induction flags as [|v flags IH]; [simpl; split; [unfold count_of; simpl; lia | tauto]|].
  rewrite count_of_cons. simpl. destruct v as [s|]; simpl.
  - destruct (String.eqb_spec k s) as [->|Hne].
    + split; [now left | lia].
    + rewrite Nat.add_0_l, IH. split; [tauto|]. intros [[= E]|H]; [congruence | exact H].
  - rewrite IH. split; [tauto|]. intros [H|H]; [discriminate | exact H].
Qed.

Lemma sum_counts_cons (keys : list string) (v : option string)
      (flags : list (option string)) :
  (forall s, v = Some s -> ~ In s keys) ->
  sum_counts keys (v :: flags) = sum_counts keys flags.
Proof.
  unfold sum_counts. induction keys as [|k keys IH]; intros Hv; simpl; [reflexivity|].
  rewrite IH by (intros s E H; apply (Hv s E); now right).
  rewrite count_of_cons. destruct v as [s|]; simpl; [|reflexivity].
  destruct (String.eqb_spec k s) as [->|Hne]; [|reflexivity].
  exfalso. apply (Hv s eq_refl). now left.
Qed.

Lemma fresh_cons (seen : list string) (v : option string)
      (flags : list (option string)) :
  fresh seen (v :: flags) = (if is_fresh seen v then 1 else 0) + fresh seen flags.
Proof. unfold fresh. simpl. now destruct (is_fresh seen v). Qed.

Lemma fresh_split (s : string) (seen : list string) (flags : list (option string)) :
  ~ In s seen ->
  fresh seen flags = count_of s flags + fresh (s :: seen) flags.
Proof.
  intros Hs. induction flags as [|[x|] flags IH].
  - reflexivity.
  - rewrite count_of_cons, !fresh_cons, IH. simpl.
    destruct (String.eqb_spec x s) as [->|Hne].
    + rewrite String.eqb_refl. simpl.
      destruct (existsb (String.eqb s) seen) eqn:E; simpl; [|lia].
      apply existsb_eqb_In in E. contradiction.
    + destruct (String.eqb_spec s x) as [->|_]; [congruence|].
      simpl. destruct (existsb (String.eqb x) seen); simpl; lia.
  - rewrite count_of_cons, !fresh_cons, IH. simpl. lia.
Qed.

Lemma sum_counts_distinct (flags : list (option string)) :
  forall seen, sum_counts (distinct seen flags) flags = fresh seen flags.
Proof.
  induction flags as [|[s|] flags IH]; intros seen.
  - reflexivity.
  - rewrite fresh_cons. cbn [distinct is_fresh].
    destruct (existsb (String.eqb s) seen) eqn:E; cbn [negb].
    + rewrite sum_counts_cons.
      * now rewrite IH.
      * intros s' [= <-] H. apply distinct_not_seen in H.
        apply existsb_eqb_In in E. contradiction.
    + assert (Hs : ~ In s seen).
      { intros H. apply existsb_eqb_In in H. congruence. }
      unfold sum_counts. cbn [map counts_sum fold_right snd].
      fold (counts_sum (map (fun k => (k, count_of k (Some s :: flags)))
                            (distinct (s :: seen) flags))).
      fold (sum_counts (distinct (s :: seen) flags) (Some s :: flags)).
      rewrite sum_counts_cons.
      * rewrite IH, count_of_cons. cbn [flag_eqb]. rewrite String.eqb_refl.
        rewrite (fresh_split s seen flags Hs). lia.
      * intros s' [= <-] H. apply distinct_not_seen in H. apply H. now left.
  - rewrite fresh_cons. cbn [distinct is_fresh].
    rewrite sum_counts_cons by discriminate. now rewrite IH.
Qed.

Lemma fresh_nil (flags : list (option string)) : fresh [] flags = non_null flags.
Proof.
  reflexivity.
Qed.

Lemma counts_sum_insert (kc : string * nat) (l : list (string * nat)) :
  counts_sum (insert_by_count kc l) = snd kc + counts_sum l.
Proof.
  induction l as [|kc' l IH]; simpl; [reflexivity|].
  destruct (snd kc' <=? snd kc); simpl; [reflexivity|]. rewrite IH. lia.
Qed.

Lemma counts_sum_sort (l : list (string * nat)) :
  counts_sum (sort_by_count l) = counts_sum l.
Proof.
  induction l as [|kc l IH]; simpl; [reflexivity|].
  now rewrite counts_sum_insert, IH.
Qed.

Lemma In_insert (x kc : string * nat) (l : list (string * nat)) :
  In x (insert_by_count kc l) <-> x = kc \/ In x l.
Proof.
  induction l as [|kc' l IH]; simpl.
  - intuition.
  - destruct (snd kc' <=? snd kc); simpl; [intuition|]. rewrite IH. intuition.
Qed.

Lemma In_sort (x : string * nat) (l : list (string * nat)) :
  In x (sort_by_count l) <-> In x l.
Proof.
  induction l as [|kc l IH]; simpl; [tauto|].
  rewrite In_insert, IH. intuition.
Qed.

(** C8. The risk distribution divides the count of each risk flag by the
    number of rows whose flag is not null, times 100, rounded to 2
    decimals; the counts are those of the flags that occur.  Flags High,
    High, Low give High 66.67 and Low 33.33, and a further row with a null
    flag leaves these shares as they are. *)
Theorem risk_distribution :
  forall flags : list (option string),
    counts_sum (value_counts flags) = non_null flags /\
    (forall k c, In (k, c) (value_counts flags) <->
                 c = count_of k flags /\ 0 < c) /\
    risk_pct flags
    = map (fun kc => (fst kc, percentage (snd kc) (non_null flags)))
          (value_counts flags) /\
    (forall high low : string, high <> low ->
       risk_pct [Some high; Some high; Some low]
       = [(high, F64.dec 6667 2); (low, F64.dec 3333 2)] /\
       risk_pct [Some high; None; Some high; Some low]
       = [(high, F64.dec 6667 2); (low, F64.dec 3333 2)]).
Proof.
  intros flags.
  assert (Hsum : counts_sum (value_counts flags) = non_null flags).
  { unfold value_counts. rewrite counts_sum_sort, <- fresh_nil.
    apply (sum_counts_distinct flags []). }
  split; [exact Hsum|]. split; [|split].
  - intros k c. unfold value_counts. rewrite In_sort, in_map_iff. split.
    + intros (k' & [= -> <-] & Hin). split; [reflexivity|].
      apply count_of_pos. eauto using distinct_In.
    + intros [-> Hpos]. exists k. split; [reflexivity|].
      apply In_distinct; [now apply count_of_pos | tauto].
  - unfold risk_pct. now rewrite Hsum.
  - intros high low Hne.
    assert (E1 : String.eqb high low = false) by now apply String.eqb_neq.
    assert (E2 : String.eqb low high = false)
      by (apply String.eqb_neq; congruence).
    unfold risk_pct, value_counts, count_of.
    cbn [distinct existsb filter flag_eqb orb].
    rewrite !String.eqb_refl, ?E1, ?E2.
    cbn [distinct existsb filter flag_eqb orb map List.length].
    rewrite !String.eqb_refl, ?E1, ?E2.
    cbn [distinct existsb filter flag_eqb orb map List.length].
    split; vm_compute; reflexivity.
Qed.

Lemma risk_distribution_witness :
  risk_pct [Some "High Risk"; Some "High Risk"; Some "Low Risk"]
  = [("High Risk", F64.dec 6667 2); ("Low Risk", F64.dec 3333 2)].
Proof.
  refine (proj1 (proj2 (proj2 (proj2
            (risk_distribution [Some "High Risk"; Some "High Risk"; Some "Low Risk"])))
            "High Risk" "Low Risk" _)).
  discriminate.
Defined.

(** ** Comparison of binary64 values *)

Lemma digits2_pos_bounds (m : positive) :
  (2 ^ (Zpos (digits2_pos m) - 1) <= Zpos m < 2 ^ Zpos (digits2_pos m))%Z.
Proof.
  induction m as [m IH|m IH|]; cbn [digits2_pos].
  - rewrite Pos2Z.inj_succ.
    replace (Z.succ (Zpos (digits2_pos m)) - 1)%Z with (Zpos (digits2_pos m)) by lia.
    rewrite Z.pow_succ_r by lia.
    replace (2 ^ Zpos (digits2_pos m))%Z
      with (2 * 2 ^ (Zpos (digits2_pos m) - 1))%Z in *
      by (rewrite <- Z.pow_succ_r by lia; f_equal; lia).
    lia.
  - rewrite Pos2Z.inj_succ.
    replace (Z.succ (Zpos (digits2_pos m)) - 1)%Z with (Zpos (digits2_pos m)) by lia.
    rewrite Z.pow_succ_r by lia.
    replace (2 ^ Zpos (digits2_pos m))%Z
      with (2 * 2 ^ (Zpos (digits2_pos m) - 1))%Z in *
      by (rewrite <- Z.pow_succ_r by lia; f_equal; lia).
    lia.
  - simpl. lia.
Qed.

(** What [bounded] says of a mantissa and its exponent. *)
Lemma bounded_mantissa (m : positive) (e : Z) :
  bounded F64.prec F64.emax m e = true ->
  (-1074 <= e)%Z /\ (Zpos m < 2 ^ 53)%Z /\
  (e = -1074 \/ 2 ^ 52 <= Zpos m)%Z.
Proof.
  unfold bounded, canonical_mantissa, fexp, emin, F64.prec, F64.emax.
  intros H. apply andb_true_iff in H as [H _]. apply Z.eqb_eq in H.
  pose proof (digits2_pos_bounds m) as [Hlo Hhi].
  set (d := Zpos (digits2_pos m)) in *.
  assert (Hd : (d <= 53)%Z) by lia.
  split; [lia|]. split.
  - eapply Z.lt_le_trans; [exact Hhi|]. apply Z.pow_le_mono_r; lia.
  - destruct (Z.eq_dec e (-1074)) as [->|Hne]; [now left|right].
    assert (d = 53)%Z by lia. subst d.
    replace 52%Z with (Zpos (digits2_pos m) - 1)%Z by lia. exact Hlo.
Qed.

(** Against a positive threshold with a full 53-bit mantissa, [SFltb]
    is the order of the values. *)
Lemma ltb_threshold (mT : positive) (eT : Z) (s : bool) (m : positive) (e : Z) :
  (2 ^ 52 <= Zpos mT < 2 ^ 53)%Z -> (-1074 <= eT)%Z ->
  bounded F64.prec F64.emax m e = true ->
  SFltb (S754_finite false mT eT) (S754_finite s m e) = true <->
  (Zpos mT * 2 ^ (eT + 1074) < cond_Zopp s (Zpos m) * 2 ^ (e + 1074))%Z.
Proof.
  intros [HT1 HT2] HeT Hb.
  apply bounded_mantissa in Hb as (He & Hm & Hnorm).
  assert (HK : (0 < 2 ^ (eT + 1074))%Z) by (apply Z.pow_pos_nonneg; lia).
  assert (HL : (0 < 2 ^ (e + 1074))%Z) by (apply Z.pow_pos_nonneg; lia).
  unfold SFltb, SFcompare. destruct s; cbn [cond_Zopp].
  - split; [discriminate|]. intros H. exfalso.
    assert (0 < Zpos mT * 2 ^ (eT + 1074))%Z by (apply Z.mul_pos_pos; lia).
    assert (Z.neg m * 2 ^ (e + 1074) < 0)%Z by (apply Z.mul_neg_pos; lia).
    lia.
  - destruct (Z.compare_spec eT e) as [->|Hlt|Hgt].
    + rewrite Pos.compare_cont_spec. cbn [Pos.switch_Eq].
      destruct (Pos.compare_spec mT m) as [->|H|H].
      * split; [discriminate | lia].
      * split; [intros _ | reflexivity].
        apply Z.mul_lt_mono_pos_r; [exact HL | lia].
      * split; [discriminate|]. intros H'. exfalso.
        apply Z.mul_lt_mono_pos_r in H'; [lia | exact HL].
    + split; [intros _ | reflexivity].
      destruct Hnorm as [->|Hnorm]; [lia|].
      replace (e + 1074)%Z with ((e - eT) + (eT + 1074))%Z by lia.
      rewrite (Z.pow_add_r 2 (e - eT) (eT + 1074)) by lia.
      assert (HP : (2 ^ 1 <= 2 ^ (e - eT))%Z) by (apply Z.pow_le_mono_r; lia).
      change (2 ^ 1)%Z with 2%Z in HP.
      change (2 ^ 52)%Z with 4503599627370496%Z in *.
      change (2 ^ 53)%Z with 9007199254740992%Z in *.
      rewrite Z.mul_assoc. apply Z.mul_lt_mono_pos_r; [exact HK|].
      set (P := (2 ^ (e - eT))%Z) in *. nia.
    + split; [discriminate|]. intros H'. exfalso.
      replace (eT + 1074)%Z with ((eT - e) + (e + 1074))%Z in H' by lia.
      rewrite (Z.pow_add_r 2 (eT - e) (e + 1074)) in H' by lia.
      assert (HP : (2 ^ 1 <= 2 ^ (eT - e))%Z) by (apply Z.pow_le_mono_r; lia).
      change (2 ^ 1)%Z with 2%Z in HP.
      change (2 ^ 52)%Z with 4503599627370496%Z in *.
      change (2 ^ 53)%Z with 9007199254740992%Z in *.
      rewrite Z.mul_assoc in H'. apply Z.mul_lt_mono_pos_r in H'; [|exact HL].
      set (P := (2 ^ (eT - e))%Z) in *. nia.
Qed.

(** [x > k] for a threshold [k] whose float has a full mantissa: true
    exactly when the value of [x] exceeds that of the threshold. *)
Lemma gtb_threshold (mT : positive) (eT : Z) (x : F64.float) (u : Z) :
  (2 ^ 52 <= Zpos mT < 2 ^ 53)%Z -> (-1074 <= eT)%Z ->
  F64.valid x = true -> F64.ulps x = Some u ->
  F64.gtb x (S754_finite false mT eT) = true <->
  (Zpos mT * 2 ^ (eT + 1074) < u)%Z.
Proof.
  intros HT HeT Hv Hu. unfold F64.gtb.
  destruct x as [s| | |s m e]; try discriminate; simpl in Hu; inversion Hu; subst u.
  - split; [destruct s; discriminate|]. intros H. exfalso.
    assert (0 < Zpos mT * 2 ^ (eT + 1074))%Z; [|lia].
    apply Z.mul_pos_pos; [lia | apply Z.pow_pos_nonneg; lia].
  - now apply ltb_threshold.
Qed.

Lemma gtb_of_Z (k : Z) (mT : positive) (eT : Z) (x : F64.float) (u : Z) :
  F64.of_Z k = S754_finite false mT eT ->
  (2 ^ 52 <=? Zpos mT)%Z && (Zpos mT <? 2 ^ 53)%Z && (-1074 <=? eT)%Z
  && (Zpos mT * 2 ^ (eT + 1074) =? k * 2 ^ 1074)%Z = true ->
  F64.valid x = true -> F64.ulps x = Some u ->
  F64.gtb x (F64.of_Z k) = true <-> (k * 2 ^ 1074 < u)%Z.
Proof.
  intros -> H Hv Hu.
  apply andb_true_iff in H as [H H4]. apply andb_true_iff in H as [H H3].
  apply andb_true_iff in H as [H1 H2].
  apply Z.leb_le in H1, H3. apply Z.ltb_lt in H2. apply Z.eqb_eq in H4.
  rewrite <- H4. apply gtb_threshold; [split; assumption | assumption ..].
Qed.

(** C4. A severity above 400 is High Risk, one above 200 but not above
    400 is Moderate Risk, any other value is Low Risk, the comparisons
    being those of binary64 (for a finite severity: of its value, here
    counted in units of 2^-1074); so 400.0 is Moderate, 400.01 is High
    and 200.0 is Low. *)
Theorem classify_risk_buckets :
  forall severity : F64.float,
    (classify_risk severity = "High Risk" <->
     F64.gtb severity (F64.of_Z 400) = true) /\
    (classify_risk severity = "Moderate Risk" <->
     F64.gtb severity (F64.of_Z 400) = false /\
     F64.gtb severity (F64.of_Z 200) = true) /\
    (classify_risk severity = "Low Risk" <->
     F64.gtb severity (F64.of_Z 400) = false /\
     F64.gtb severity (F64.of_Z 200) = false) /\
    (forall u, F64.valid severity = true -> F64.ulps severity = Some u ->
       (F64.gtb severity (F64.of_Z 400) = true <-> (400 * 2 ^ 1074 < u)%Z) /\
       (F64.gtb severity (F64.of_Z 200) = true <-> (200 * 2 ^ 1074 < u)%Z)) /\
    classify_risk (F64.dec 4000 1) = "Moderate Risk" /\
    classify_risk (F64.dec 40001 2) = "High Risk" /\
    classify_risk (F64.dec 2000 1) = "Low Risk".
Proof.
  intros severity. unfold classify_risk.
  split; [|split; [|split; [|split]]].
  - destruct (F64.gtb severity (F64.of_Z 400)).
    + tauto.
    + split; [|discriminate].
      destruct (F64.gtb severity (F64.of_Z 200)); discriminate.
  - destruct (F64.gtb severity (F64.of_Z 400)).
    + split; [discriminate | intros [H _]; discriminate].
    + destruct (F64.gtb severity (F64.of_Z 200)).
      * tauto.
      * split; [discriminate | intros [_ H]; discriminate].
  - destruct (F64.gtb severity (F64.of_Z 400)).
    + split; [discriminate | intros [H _]; discriminate].
    + destruct (F64.gtb severity (F64.of_Z 200)).
      * split; [discriminate | intros [_ H]; discriminate].
      * tauto.
  - intros u Hv Hu. split.
    + apply (gtb_of_Z 400 7036874417766400 (-44) severity u);
        [vm_compute; reflexivity | vm_compute; reflexivity | exact Hv | exact Hu].
    + apply (gtb_of_Z 200 7036874417766400 (-45) severity u);
        [vm_compute; reflexivity | vm_compute; reflexivity | exact Hv | exact Hu].
  - split; [|split]; vm_compute; reflexivity.
Qed.

Lemma classify_risk_buckets_witness :
  classify_risk (F64.dec 40001 2) = "High Risk" /\
  (400 * 2 ^ 1074 < 7037050339626844 * 2 ^ 1030)%Z.
Proof.
  assert (H : F64.gtb (F64.dec 40001 2) (F64.of_Z 400) = true)
    by (vm_compute; reflexivity).
  split.
  - apply (proj1 (classify_risk_buckets (F64.dec 40001 2))). exact H.
  - refine (proj1 (proj1 (proj1 (proj2 (proj2 (proj2
              (classify_risk_buckets (F64.dec 40001 2)))))
              (7037050339626844 * 2 ^ 1030)%Z _ _)) H).
    + vm_compute. reflexivity.
    + vm_compute. reflexivity.
Defined.

(** ** Decimal literals

    [F64.dec] gives the binary64 value that the literal denotes: the one
    within half a unit in the last place of the decimal. *)

Lemma dec_400_01 :
  F64.dec 40001 2 = S754_finite false 7037050339626844 (-44) /\
  (Z.abs (7037050339626844 * 100 - 40001 * 2 ^ 44) <= 50)%Z.
Proof. split; vm_compute; [reflexivity | discriminate]. Qed.

Lemma dec_66_67 :
  F64.dec 6667 2 = S754_finite false 4691484174324859 (-46) /\
  (Z.abs (4691484174324859 * 100 - 6667 * 2 ^ 46) <= 50)%Z.
Proof. split; vm_compute; [reflexivity | discriminate]. Qed.

Lemma dec_33_33 :
  F64.dec 3333 2 = S754_finite false 4690780486883082 (-47) /\
  (Z.abs (4690780486883082 * 100 - 3333 * 2 ^ 47) <= 50)%Z.
Proof. split; vm_compute; [reflexivity | discriminate]. Qed.

Lemma dec_400_0 : F64.dec 4000 1 = F64.of_Z 400.
Proof. vm_compute. reflexivity. Qed.

Lemma dec_200_0 : F64.dec 2000 1 = F64.of_Z 200.
Proof. vm_compute. reflexivity. Qed.

(** * Further properties *)

(** ** Orchestration *)

Lemma launched_app (l1 l2 : list Pipeline.line) :
  Pipeline.launched (l1 ++ l2) = Pipeline.launched l1 ++ Pipeline.launched l2.
Proof.
  induction l1 as [|[] l1 IH]; simpl; auto. now rewrite IH.
Qed.

(** What one step launches and whether the run goes on after it. *)
Lemma run_step_spec (subprocess_run : string -> Pipeline.completed)
      (step_name script_name : string) :
  Pipeline.launched (fst (Pipeline.run_step subprocess_run step_name script_name))
  = [script_name] /\
  snd (Pipeline.run_step subprocess_run step_name script_name)
  = if Pipeline.passes subprocess_run script_name then None else Some 1%Z.
Proof.
  unfold Pipeline.run_step, Pipeline.passes.
  destruct (subprocess_run script_name) as [rc out err|]; [|split; reflexivity].
  destruct (rc =? 0)%Z; split; reflexivity.
Qed.

Lemma andthen_step (subprocess_run : string -> Pipeline.completed)
      (step_name script_name : string) (rest : Pipeline.run) :
  Pipeline.launched
    (fst (Pipeline.andthen (Pipeline.run_step subprocess_run step_name script_name) rest))
  = script_name ::
    (if Pipeline.passes subprocess_run script_name
     then Pipeline.launched (fst rest) else []) /\
  snd (Pipeline.andthen (Pipeline.run_step subprocess_run step_name script_name) rest)
  = if Pipeline.passes subprocess_run script_name then snd rest else Some 1%Z.
Proof.
  destruct (run_step_spec subprocess_run step_name script_name) as [Hl Hs].
  unfold Pipeline.andthen. rewrite Hs.
  destruct (Pipeline.passes subprocess_run script_name); cbn [fst snd].
  - now rewrite launched_app, Hl.
  - now rewrite Hl.
Qed.

(** X1. The pipeline launches the four scripts in the fixed order extract,
    transform, load, analysis, and stops at the first one that does not
    return 0: no later script is launched and the exit code is 1.  It
    prints its closing line exactly when all four return 0. *)
Theorem main_runs_until_first_failure :
  forall subprocess_run : string -> Pipeline.completed,
    Pipeline.launched (fst (Pipeline.main subprocess_run))
    = Pipeline.until_failure subprocess_run Pipeline.SCRIPTS /\
    (snd (Pipeline.main subprocess_run) = None <->
     forallb (Pipeline.passes subprocess_run) Pipeline.SCRIPTS = true) /\
    (snd (Pipeline.main subprocess_run) = None \/
     snd (Pipeline.main subprocess_run) = Some 1%Z) /\
    (In Pipeline.Finished (fst (Pipeline.main subprocess_run)) <->
     snd (Pipeline.main subprocess_run) = None).
Proof.
  intros run. unfold Pipeline.main.
  set (s4 := Pipeline.andthen (Pipeline.run_step run "Analysis & Reports" "etl_analysis.py")
                              (Pipeline.print [Pipeline.Finished])).
  set (s3 := Pipeline.andthen (Pipeline.run_step run "Load into Supabase" "load.py") s4).
  set (s2 := Pipeline.andthen (Pipeline.run_step run "Transform" "transform.py") s3).
  set (s1 := Pipeline.andthen (Pipeline.run_step run "Extract" "extract.py") s2).
  destruct (andthen_step run "Analysis & Reports" "etl_analysis.py"
                         (Pipeline.print [Pipeline.Finished])) as [L4 E4].
  destruct (andthen_step run "Load into Supabase" "load.py" s4) as [L3 E3].
  destruct (andthen_step run "Transform" "transform.py" s3) as [L2 E2].
  destruct (andthen_step run "Extract" "extract.py" s2) as [L1 E1].
  fold s4 in L4, E4. fold s3 in L3, E3. fold s2 in L2, E2. fold s1 in L1, E1.
  cbn [Pipeline.andthen Pipeline.print snd fst app].
  split; [|split; [|split]].
  - cbn [Pipeline.launched]. rewrite L1, L2, L3, L4.
    cbn [Pipeline.until_failure Pipeline.SCRIPTS Pipeline.print fst Pipeline.launched].
    destruct (Pipeline.passes run "extract.py"); [|reflexivity].
    destruct (Pipeline.passes run "transform.py"); [|reflexivity].
    destruct (Pipeline.passes run "load.py"); [|reflexivity].
    destruct (Pipeline.passes run "etl_analysis.py"); reflexivity.
  - rewrite E1, E2, E3, E4. cbn [forallb Pipeline.SCRIPTS Pipeline.print snd].
    destruct (Pipeline.passes run "extract.py"); [|split; discriminate].
    destruct (Pipeline.passes run "transform.py"); [|split; discriminate].
    destruct (Pipeline.passes run "load.py"); [|split; discriminate].
    destruct (Pipeline.passes run "etl_analysis.py"); split; try discriminate; reflexivity.
  - rewrite E1, E2, E3, E4. cbn [Pipeline.print snd].
    destruct (Pipeline.passes run "extract.py"); [|now right].
    destruct (Pipeline.passes run "transform.py"); [|now right].
    destruct (Pipeline.passes run "load.py"); [|now right].
    destruct (Pipeline.passes run "etl_analysis.py"); [now left | now right].
  - subst s1 s2 s3 s4. unfold Pipeline.run_step.
    destruct (run "extract.py") as [r1 o1 e1|];
      [destruct (r1 =? 0)%Z|];
      try (cbn; split; [intuition discriminate | discriminate]).
    destruct (run "transform.py") as [r2 o2 e2|];
      [destruct (r2 =? 0)%Z|];
      try (cbn; split; [intuition discriminate | discriminate]).
    destruct (run "load.py") as [r3 o3 e3|];
      [destruct (r3 =? 0)%Z|];
      try (cbn; split; [intuition discriminate | discriminate]).
    destruct (run "etl_analysis.py") as [r4 o4 e4|];
      [destruct (r4 =? 0)%Z|];
      try (cbn; split; [intuition discriminate | discriminate]).
    cbn. split; [reflexivity | intuition].
Qed.

(** ** The batch loop, for any batch size *)

Lemma range_positive (n b : nat) :
  0 < b ->
  range n (Z.of_nat b) = Ok (map (fun k => k * b) (seq 0 ((n + b - 1) / b))).
Proof.
  intros Hb. unfold range. destruct (Z.of_nat b) as [|p|p] eqn:E; try lia.
  assert (Hp : Pos.to_nat p = b) by lia. now rewrite Hp.
Qed.

Lemma batch_number_start (b k : nat) :
  0 < b -> batch_number (Z.of_nat b) (k * b) = k + 1.
Proof.
  intros Hb. unfold batch_number. rewrite Nat2Z.id, Nat.div_mul by lia. reflexivity.
Qed.

(** Cutting a list into consecutive pieces of [b] elements. *)
Lemma chunks_concat (b : nat) : forall (m : nat) (A : Type) (l : list A),
  List.length l <= m * b ->
  List.concat (map (fun k => firstn b (skipn (k * b) l)) (seq 0 m)) = l.
Proof.
  induction m as [|m IH]; intros A l Hlen.
  - simpl in *. destruct l; [reflexivity | simpl in Hlen; lia].
  - cbn [seq map List.concat]. rewrite <- seq_shift, map_map.
    rewrite (map_ext _ (fun k => firstn b (skipn (k * b) (skipn b l)))).
    + rewrite IH.
      * simpl. apply firstn_skipn.
      * rewrite length_skipn. simpl in Hlen. lia.
    + intros k. rewrite skipn_skipn. do 2 f_equal. simpl. lia.
Qed.

Lemma ceil_div_bounds (n b : nat) :
  0 < b ->
  n <= (n + b - 1) / b * b /\ (forall k, k < (n + b - 1) / b -> k * b < n).
Proof.
  intros Hb.
  pose proof (Nat.div_mod_eq (n + b - 1) b) as E.
  pose proof (Nat.mod_upper_bound (n + b - 1) b ltac:(lia)) as Hm.
  set (q := (n + b - 1) / b) in *. set (r := (n + b - 1) mod b) in *.
  split; [nia|]. intros k Hk. nia.
Qed.

Lemma partition_facts (records : list Series) (b : nat) :
  0 < b ->
  let starts := map (fun k => k * b) (seq 0 ((List.length records + b - 1) / b)) in
  List.concat (map (slice (Z.of_nat b) records) starts) = records /\
  Forall (fun i => 0 < List.length (slice (Z.of_nat b) records i) <= b) starts /\
  forall j, S j < List.length starts ->
            List.length (slice (Z.of_nat b) records (nth j starts 0)) = b.
Proof.
  intros Hb starts. subst starts.
  destruct (ceil_div_bounds (List.length records) b Hb) as [Hcover Hstart].
  set (m := (List.length records + b - 1) / b) in *.
  split; [|split].
  - rewrite map_map. unfold slice. rewrite Nat2Z.id.
    now apply chunks_concat.
  - apply Forall_forall. intros i Hi.
    apply in_map_iff in Hi as (k & <- & Hk). apply in_seq in Hk.
    rewrite slice_length. specialize (Hstart k ltac:(lia)). lia.
  - intros j Hj. rewrite length_map, length_seq in Hj.
    rewrite (nth_indep _ 0 (0 * b)) by (rewrite length_map, length_seq; lia).
    rewrite (map_nth (fun k => k * b)), seq_nth by lia.
    rewrite slice_length. specialize (Hstart (S j) Hj). simpl in *. nia.
Qed.

(** X2. For a positive batch size the loop cuts the records into
    consecutive batches that together give back the records, in order:
    no record is left out or taken twice.  No batch is empty, none is
    longer than the batch size, and every batch before the last is
    full. *)
Theorem batches_partition_the_records :
  forall (records : list Series) (b : nat),
    0 < b ->
    exists starts,
      range (List.length records) (Z.of_nat b) = Ok starts /\
      List.concat (map (slice (Z.of_nat b) records) starts) = records /\
      Forall (fun i => 0 < List.length (slice (Z.of_nat b) records i) <= b) starts /\
      forall j, S j < List.length starts ->
                List.length (slice (Z.of_nat b) records (nth j starts 0)) = b.
Proof.
  intros records b Hb.
  rewrite (range_positive _ _ Hb). eexists. split; [reflexivity|].
  exact (partition_facts records b Hb).
Qed.

Lemma batches_partition_the_records_witness :
  exists starts,
    range 450 200 = Ok starts /\
    List.concat (map (slice 200 Samples.records450) starts) = Samples.records450.
Proof.
  destruct (batches_partition_the_records Samples.records450 200)
    as (starts & Hr & Hc & _); [lia|].
  exists starts. split; [exact Hr | exact Hc].
Defined.

(** X3. A batch size of 0 makes the loop raise [ValueError] before any
    insert; a negative batch size makes it run over no batch at all: the
    run ends normally with nothing inserted, whatever the records. *)
Theorem batch_size_not_positive :
  forall (MAX_RETRIES : Z) (insert_ok : nat -> nat -> bool) (records : list Series),
    insert_all 0 MAX_RETRIES insert_ok records = Raise ValueError /\
    forall p : positive,
      insert_all (Zneg p) MAX_RETRIES insert_ok records
      = Ok (mkState 0 [] [TotalInserted 0]).
Proof.
  intros R ok records. split; [reflexivity|]. intros p. reflexivity.
Qed.

(** ** Accounting of a load *)

Lemma attempts_app (l1 l2 : list event) :
  attempts (l1 ++ l2) = attempts l1 + attempts l2.
Proof. induction l1 as [|[] l1 IH]; simpl; auto; now rewrite IH. Qed.

Lemma slept_app (l1 l2 : list event) :
  slept (l1 ++ l2) = (slept l1 + slept l2)%Z.
Proof. induction l1 as [|[] l1 IH]; simpl; auto; rewrite IH; lia. Qed.

Lemma attempts_retries (attempt n : nat) : attempts (retries attempt n) = n.
Proof. revert attempt; induction n; intros; simpl; auto. Qed.

Lemma slept_retries (attempt n : nat) :
  slept (retries attempt n)
  = (2 ^ Z.of_nat (attempt + n + 1) - 2 ^ Z.of_nat (attempt + 1))%Z.
Proof.
  revert attempt; induction n as [|n IH]; intros attempt; cbn [retries slept].
  - rewrite Nat.add_0_r. lia.
  - rewrite IH.
    replace (S attempt + n + 1) with (attempt + S n + 1) by lia.
    replace (Z.of_nat (S attempt + 1)) with (Z.succ (Z.of_nat (S attempt))) by lia.
    rewrite Z.pow_succ_r by lia.
    replace (Z.of_nat (attempt + 1)) with (Z.of_nat (S attempt)) by lia. lia.
Qed.

Section LoadAccounting.

Variable MAX_RETRIES : Z.
Variable insert_ok : nat -> nat -> bool.

(** One batch: the attempts made, the verdict, and what it does to the
    counter and the table. *)
Lemma insert_batch_trace batch_no batch : forall left attempt st,
  let ok := existsb (insert_ok batch_no) (seq attempt left) in
  exists k,
    k <= left /\ (if ok then k < left else k = left) /\
    insert_batch MAX_RETRIES insert_ok left attempt batch_no batch st
    = mkState (total_inserted st + (if ok then List.length batch else 0))
              (table st ++ (if ok then batch else []))
              (log st ++ retries attempt k
                      ++ [if ok then Inserted batch_no (List.length batch)
                          else BatchFailed batch_no MAX_RETRIES]).
Proof.
  induction left as [|left IH]; intros attempt st; cbn [seq existsb insert_batch].
  - exists 0. split; [lia|]. split; [reflexivity|].
    unfold emit. cbn [retries app]. now rewrite Nat.add_0_r, app_nil_r.
  - destruct (insert_ok batch_no attempt) eqn:E; cbn [orb].
    + exists 0. split; [lia|]. split; [lia|]. reflexivity.
    + destruct (IH (S attempt)
                   (emit st [AttemptFailed (S attempt); Slept (2 ^ Z.of_nat (S attempt))]))
        as (k & Hk & Hok & Hres).
      exists (S k). split; [lia|]. split.
      * destruct (existsb (insert_ok batch_no) (seq (S attempt) left)); lia.
      * rewrite Hres. unfold emit. cbn [total_inserted table log retries].
        f_equal. now rewrite <- app_assoc.
Qed.

End LoadAccounting.

Section LoadRun.

Variable b : nat.
Variable MAX_RETRIES : Z.
Variable insert_ok : nat -> nat -> bool.
Variable records : list Series.

Let r : nat := Z.to_nat (MAX_RETRIES + 1).
Let number (i : nat) : nat := batch_number (Z.of_nat b) i.
Let taken (i : nat) : bool := succeeds MAX_RETRIES insert_ok (number i).
Let piece (i : nat) : list Series := slice (Z.of_nat b) records i.

(** The state after the batches that start at [starts]. *)
Lemma fold_insert_steps : forall (starts : list nat) (st : state),
  let st' := fold_left (insert_step (Z.of_nat b) MAX_RETRIES insert_ok records) starts st in
  table st' = table st ++ List.concat (map piece (filter taken starts)) /\
  total_inserted st'
  = total_inserted st + List.length (List.concat (map piece (filter taken starts))) /\
  verdicts (log st')
  = verdicts (log st) ++ map (fun i => (number i, taken i)) starts /\
  failed_batches (log st')
  = failed_batches (log st) ++ map number (filter (fun i => negb (taken i)) starts) /\
  attempts (log st') <= attempts (log st) + List.length starts * r /\
  (slept (log st')
   <= slept (log st) + Z.of_nat (List.length starts) * (2 ^ Z.of_nat (r + 1) - 2))%Z.
Proof.
  induction starts as [|i starts IH]; intros st.
  - cbn. rewrite !app_nil_r. repeat split; lia.
  - cbn [fold_left].
    destruct (insert_batch_trace MAX_RETRIES insert_ok (number i) (piece i) r 0 st)
      as (k & Hk & Hok & Hres).
    change (existsb (insert_ok (number i)) (seq 0 r)) with (taken i) in *.
    change (insert_batch MAX_RETRIES insert_ok r 0 (number i) (piece i) st)
      with (insert_step (Z.of_nat b) MAX_RETRIES insert_ok records st i) in Hres.
    rewrite Hres. clear Hres.
    match goal with
    | |- context [fold_left _ starts ?s] => specialize (IH s)
    end.
    cbv zeta in IH. destruct IH as (Ht & Hn & Hv & Hf & Ha & Hs).
    match goal with
    | |- context [fold_left ?f starts ?s] => set (F := fold_left f starts s) in *
    end.
    cbn [table total_inserted log] in Ht, Hn, Hv, Hf, Ha, Hs.
    cbv zeta.
    rewrite Ht, Hn, Hv, Hf. clear Ht Hn Hv Hf.
    rewrite !verdicts_app, !failed_batches_app, verdicts_retries,
      failed_batches_retries in *.
    rewrite !attempts_app, attempts_retries in Ha.
    rewrite !slept_app, slept_retries in Hs.
    assert (Hpow : (2 ^ Z.of_nat (0 + k + 1) <= 2 ^ Z.of_nat (r + 1))%Z)
      by (apply Z.pow_le_mono_r; lia).
    set (P := (2 ^ Z.of_nat (r + 1))%Z) in *. set (Q := (2 ^ Z.of_nat (0 + k + 1))%Z) in *.
    change (Z.of_nat (0 + 1)) with 1%Z in Hs. change (2 ^ 1)%Z with 2%Z in Hs.
    cbn [filter map List.concat negb].
    destruct (taken i); cbn [negb map List.concat verdicts failed_batches attempts slept app] in *;
      rewrite ?length_app, ?app_nil_r, <- ?app_assoc; cbn [app List.length];
      repeat split; try reflexivity; try lia; try nia.
Qed.

End LoadRun.

Lemma filter_map_comm {A B : Type} (p : B -> bool) (f : A -> B) (l : list A) :
  filter p (map f l) = map f (filter (fun a => p (f a)) l).
Proof.
  induction l as [|a l IH]; simpl; [reflexivity|].
  destruct (p (f a)); simpl; now rewrite IH.
Qed.

Lemma concat_filter_split {A B : Type} (piece : A -> list B) (p : A -> bool)
      (l : list A) :
  List.length (List.concat (map piece (filter p l)))
  + List.length (List.concat (map piece (filter (fun a => negb (p a)) l)))
  = List.length (List.concat (map piece l)).
Proof.
  induction l as [|a l IH]; simpl; [reflexivity|].
  destruct (p a); simpl; rewrite !length_app; lia.
Qed.

Lemma concat_nonempty {A B : Type} (piece : A -> list B) (l : list A) :
  Forall (fun a => 0 < List.length (piece a)) l ->
  List.length (List.concat (map piece l)) = 0 -> l = [].
Proof.
  intros H. destruct l as [|a l]; [reflexivity|].
  inversion H; subst. simpl. rewrite length_app. lia.
Qed.

(** A run with a positive batch size, summed up. *)
Lemma insert_all_run (b : nat) (MAX_RETRIES : Z) (insert_ok : nat -> nat -> bool)
      (records : list Series) :
  0 < b ->
  let m := (List.length records + b - 1) / b in
  let r := Z.to_nat (MAX_RETRIES + 1) in
  let starts := map (fun k => k * b) (seq 0 m) in
  let taken := fun i => succeeds MAX_RETRIES insert_ok (batch_number (Z.of_nat b) i) in
  exists st,
    insert_all (Z.of_nat b) MAX_RETRIES insert_ok records = Ok st /\
    table st = List.concat (map (slice (Z.of_nat b) records) (filter taken starts)) /\
    total_inserted st = List.length (table st) /\
    verdicts (log st)
    = map (fun k => (k, succeeds MAX_RETRIES insert_ok k)) (seq 1 m) /\
    failed_batches (log st)
    = filter (fun k => negb (succeeds MAX_RETRIES insert_ok k)) (seq 1 m) /\
    attempts (log st) <= m * r /\
    (slept (log st) <= Z.of_nat m * (2 ^ Z.of_nat (r + 1) - 2))%Z /\
    exists l, log st = l ++ [TotalInserted (total_inserted st)].
Proof.
  intros Hb m r starts taken.
  unfold insert_all. rewrite (range_positive _ _ Hb). cbn [bind].
  fold m starts.
  destruct (fold_insert_steps b MAX_RETRIES insert_ok records starts initial)
    as (Ht & Hn & Hv & Hf & Ha & Hs).
  set (st' := fold_left (insert_step (Z.of_nat b) MAX_RETRIES insert_ok records)
                        starts initial) in *.
  fold taken in Ht, Hn, Hv, Hf. fold r in Ha, Hs.
  cbn [initial table total_inserted log verdicts failed_batches attempts slept app] in *.
  eexists. split; [reflexivity|].
  unfold emit. cbn [table total_inserted log].
  rewrite verdicts_app, failed_batches_app, attempts_app, slept_app.
  cbn [verdicts failed_batches attempts slept]. rewrite !app_nil_r.
  assert (Hnum : forall k, batch_number (Z.of_nat b) (k * b) = S k)
    by (intros k; rewrite batch_number_start by exact Hb; lia).
  split; [exact Ht|]. split; [now rewrite Hn, Ht|]. split; [|split; [|split; [|split]]].
  - rewrite Hv. unfold starts. rewrite map_map, <- seq_shift, map_map.
    apply map_ext. intros k. unfold taken. now rewrite Hnum.
  - rewrite Hf. unfold starts. rewrite filter_map_comm, map_map.
    rewrite <- seq_shift, filter_map_comm.
    rewrite (map_ext _ S) by exact Hnum.
    f_equal. apply filter_ext. intros k. unfold taken. now rewrite Hnum.
  - unfold starts in Ha. rewrite length_map, length_seq in Ha. lia.
  - unfold starts in Hs. rewrite length_map, length_seq in Hs. lia.
  - eexists. reflexivity.
Qed.

(** X4. With a positive batch size the run gives every batch exactly one
    verdict, in batch order, and never stops early: batch [k] is inserted
    when the store takes it at one of the [MAX_RETRIES + 1] attempts and
    is reported failed otherwise, and the next batch follows in both
    cases. *)
Theorem every_batch_gets_one_verdict :
  forall (b : nat) (MAX_RETRIES : Z) (insert_ok : nat -> nat -> bool)
         (records : list Series),
    0 < b ->
    exists st,
      insert_all (Z.of_nat b) MAX_RETRIES insert_ok records = Ok st /\
      verdicts (log st)
      = map (fun k => (k, succeeds MAX_RETRIES insert_ok k))
            (seq 1 ((List.length records + b - 1) / b)) /\
      failed_batches (log st)
      = filter (fun k => negb (succeeds MAX_RETRIES insert_ok k))
               (seq 1 ((List.length records + b - 1) / b)).
Proof.
  intros b R ok records Hb.
  destruct (insert_all_run b R ok records Hb)
    as (st & Hst & _ & _ & Hv & Hf & _).
  exists st. repeat split; assumption.
Qed.

Lemma every_batch_gets_one_verdict_witness :
  exists st,
    insert_all 200 2 Samples.store Samples.records450 = Ok st /\
    verdicts (log st) = [(1, true); (2, false); (3, true)].
Proof.
  destruct (every_batch_gets_one_verdict 200 2 Samples.store Samples.records450)
    as (st & Hst & Hv & _); [lia|].
  exists st. split; [exact Hst|]. rewrite Hv. vm_compute. reflexivity.
Defined.

(** X5. After a run with a positive batch size the table holds exactly
    the records of the batches that were inserted, in order, and
    [total_inserted] is their number, which the last printed line
    reports.  It never exceeds the number of records, and equals it
    exactly when no batch is reported failed; the table is then the whole
    list of records. *)
Theorem total_inserted_counts_the_table :
  forall (b : nat) (MAX_RETRIES : Z) (insert_ok : nat -> nat -> bool)
         (records : list Series),
    0 < b ->
    exists st starts,
      range (List.length records) (Z.of_nat b) = Ok starts /\
      insert_all (Z.of_nat b) MAX_RETRIES insert_ok records = Ok st /\
      table st
      = List.concat
          (map (slice (Z.of_nat b) records)
               (filter (fun i => succeeds MAX_RETRIES insert_ok
                                   (batch_number (Z.of_nat b) i)) starts)) /\
      total_inserted st = List.length (table st) /\
      total_inserted st <= List.length records /\
      (total_inserted st = List.length records <-> failed_batches (log st) = []) /\
      (failed_batches (log st) = [] -> table st = records) /\
      last (log st) (TotalInserted 0) = TotalInserted (total_inserted st).
Proof.
  intros b R ok records Hb.
  destruct (insert_all_run b R ok records Hb)
    as (st & Hst & Ht & Hn & _ & Hf & _ & _ & l & Hl).
  destruct (partition_facts records b Hb) as (Hcat & Hpos & _).
  set (starts := map (fun k => k * b) (seq 0 ((List.length records + b - 1) / b))) in *.
  set (taken := fun i => succeeds R ok (batch_number (Z.of_nat b) i)) in *.
  pose proof (concat_filter_split (slice (Z.of_nat b) records) taken starts) as Hsplit.
  rewrite Hcat, <- Ht, <- Hn in Hsplit.
  assert (Hfailed : failed_batches (log st) = []
                    <-> filter (fun i => negb (taken i)) starts = []).
  { rewrite Hf. unfold starts. rewrite filter_map_comm, <- seq_shift, filter_map_comm.
    rewrite (filter_ext (fun a => negb (taken (a * b)))
                        (fun a => negb (succeeds R ok (S a)))).
    - split; intros H.
      + apply map_eq_nil in H. now rewrite H.
      + apply map_eq_nil in H. now rewrite H.
    - intros k. unfold taken. rewrite batch_number_start by exact Hb.
      now rewrite Nat.add_1_r. }
  assert (Hzero : total_inserted st = List.length records
                  <-> filter (fun i => negb (taken i)) starts = []).
  { split; intros H.
    - apply (concat_nonempty (slice (Z.of_nat b) records)).
      + apply Forall_forall. intros i Hi. apply filter_In in Hi as [Hi _].
        rewrite Forall_forall in Hpos. specialize (Hpos i Hi). lia.
      + lia.
    - rewrite H in Hsplit. simpl in Hsplit. lia. }
  exists st, starts. split; [apply range_positive; exact Hb|].
  split; [exact Hst|]. split; [exact Ht|]. split; [exact Hn|].
  split; [lia|]. split; [now rewrite Hzero, Hfailed|]. split.
  - intros H. apply Hfailed in H. rewrite Ht.
    etransitivity; [|exact Hcat]. do 2 f_equal.
    clear - H. induction starts as [|i starts IH]; [reflexivity|].
    simpl in *. destruct (taken i); simpl in *; [f_equal; auto | discriminate].
  - rewrite Hl. apply last_last.
Qed.

Lemma total_inserted_counts_the_table_witness :
  exists st,
    insert_all 200 2 Samples.store Samples.records450 = Ok st /\
    total_inserted st = List.length (table st) /\
    total_inserted st <= 450.
Proof.
  destruct (total_inserted_counts_the_table 200 2 Samples.store Samples.records450)
    as (st & starts & _ & Hst & _ & Hn & Hle & _); [lia|].
  exists st. split; [exact Hst|]. split; [exact Hn | exact Hle].
Defined.

(** X6. Retries are bounded: a run over [m] batches makes at most
    [m * (MAX_RETRIES + 1)] insert calls and sleeps at most
    [m * (2^(MAX_RETRIES + 2) - 2)] seconds in all.  With a negative
    [MAX_RETRIES] it makes no insert call and inserts nothing. *)
Theorem retries_are_bounded :
  forall (b : nat) (MAX_RETRIES : Z) (insert_ok : nat -> nat -> bool)
         (records : list Series),
    0 < b ->
    exists st,
      insert_all (Z.of_nat b) MAX_RETRIES insert_ok records = Ok st /\
      attempts (log st)
      <= (List.length records + b - 1) / b * Z.to_nat (MAX_RETRIES + 1) /\
      (slept (log st)
       <= Z.of_nat ((List.length records + b - 1) / b)
          * (2 ^ Z.of_nat (Z.to_nat (MAX_RETRIES + 1) + 1) - 2))%Z /\
      ((MAX_RETRIES < 0)%Z ->
       attempts (log st) = 0 /\ total_inserted st = 0 /\ table st = []).
Proof.
  intros b R ok records Hb.
  destruct (insert_all_run b R ok records Hb)
    as (st & Hst & Ht & Hn & _ & _ & Ha & Hs & _).
  exists st. split; [exact Hst|]. split; [exact Ha|]. split; [exact Hs|].
  intros HR.
  assert (Hr : Z.to_nat (R + 1) = 0) by lia.
  rewrite Hr, Nat.mul_0_r in Ha.
  assert (Hnone : table st = []).
  { rewrite Ht. unfold succeeds. rewrite Hr. cbn [seq existsb].
    clear. induction (map (fun k => k * b) _) as [|i l IH];
      [reflexivity | exact IH]. }
  split; [lia|]. split; [now rewrite Hn, Hnone | exact Hnone].
Qed.

Lemma retries_are_bounded_witness :
  exists st,
    insert_all 200 2 Samples.store Samples.records450 = Ok st /\
    attempts (log st) <= 9 /\ (slept (log st) <= 42)%Z.
Proof.
  destruct (retries_are_bounded 200 2 Samples.store Samples.records450)
    as (st & Hst & Ha & Hs & _); [lia|].
  exists st. split; [exact Hst|]. split; [exact Ha | exact Hs].
Defined.

(** ** Records built from the staged file *)

Lemma mapM_Ok_iff {A B : Type} (f : A -> outcome B) (l : list A) :
  (exists vs, mapM f l = Ok vs) <-> Forall (fun a => exists b, f a = Ok b) l.
Proof.
  split.
  - intros [vs H]. eauto using mapM_Forall.
  - induction 1 as [|a l [b Hb] _ [vs IH]]; simpl.
    + eauto.
    + rewrite Hb, IH. simpl. eauto.
Qed.

Lemma mapM_raises {A B : Type} (f : A -> outcome B) (l : list A) (e : exn) :
  mapM f l = Raise e -> exists a, In a l /\ f a = Raise e.
Proof.
  induction l as [|a l IH]; simpl; [discriminate|].
  destruct (f a) as [b|e'] eqn:E; simpl.
  - destruct (mapM f l) as [bs|e'']; simpl; [discriminate|].
    intros [= <-]. destruct (IH eq_refl) as (a' & Hin & Ha'). eauto.
  - intros [= <-]. eauto.
Qed.

(** X7. When the records are built, there is one record per line of
    the staged file, and every record has the thirteen keys of the
    store's table, in order, with [AQI], [severity] and [risk] renamed. *)
Theorem records_keep_lines_and_rename_columns :
  forall (parse_datetime : string -> option Timestamp) (df : list staged_row)
         (records : list Series),
    to_records parse_datetime df = Ok records ->
    List.length records = List.length df /\
    Forall (fun rec => map fst rec = record_columns) records.
Proof.
  intros pd df records H. apply to_records_Ok in H as [-> _].
  unfold where_notnull, renamed_frame. rewrite !length_map.
  split; [reflexivity|].
  apply Forall_map, Forall_map, Forall_forall. intros r _. reflexivity.
Qed.

(** X8. In every record sent to the store the [time] field is either an
    ISO-8601 string [YYYY-MM-DDTHH:MM:SS] with every field in its
    calendar range, or [None] when the line had no time: never NaN and
    never a string of another shape. *)
Theorem record_time_is_iso_or_none :
  forall (parse_datetime : string -> option Timestamp)
         (df : list staged_row) (records : list Series),
    to_records parse_datetime df = Ok records ->
    Forall (fun rec => get rec "time" PNone = PNone \/
                       exists s, get rec "time" PNone = PStr s /\
                                 is_iso8601 s = true) records.
Proof. exact records_time_is_iso. Qed.

Lemma record_time_is_iso_or_none_witness :
  exists rec,
    to_records parse_iso [Samples.staged_line] = Ok [rec] /\
    exists s, get rec "time" PNone = PStr s /\ is_iso8601 s = true.
Proof.
  destruct (to_records parse_iso [Samples.staged_line]) as [records|e] eqn:E;
    [|vm_compute in E; discriminate].
  pose proof (record_time_is_iso_or_none parse_iso [Samples.staged_line] records E) as H.
  assert (E' : records = where_notnull (renamed_frame parse_iso [Samples.staged_line])).
  { vm_compute in E. injection E as <-. vm_compute. reflexivity. }
  destruct records as [|rec [|rec' records]];
    try (vm_compute in E'; discriminate).
  exists rec. split; [reflexivity|].
  inversion H as [|? ? [Hnone|Hiso] _]; subst; [|exact Hiso].
  exfalso. injection E' as -> . vm_compute in Hnone. discriminate.
Defined.

Lemma records_keep_lines_and_rename_columns_witness :
  exists records,
    to_records parse_iso [Samples.staged_line] = Ok records /\
    List.length records = 1 /\
    Forall (fun rec => map fst rec = record_columns) records.
Proof.
  destruct (to_records parse_iso [Samples.staged_line]) as [records|e] eqn:E;
    [|vm_compute in E; discriminate].
  exists records. split; [reflexivity|].
  exact (records_keep_lines_and_rename_columns
           parse_iso [Samples.staged_line] records E).
Defined.

Lemma where_cell_value (frame : list Series) (k : string) (v : pyval) :
  (notnull v = true -> snd (where_cell frame (k, v)) = v) /\
  (isna v = true -> isna (snd (where_cell frame (k, v))) = true).
Proof.
  unfold where_cell, notnull. cbn [fst snd].
  destruct (isna v) eqn:E; cbn [negb].
  - split; [discriminate|]. intros _.
    now destruct (float64_column frame k).
  - split; [reflexivity | discriminate].
Qed.

Lemma Forall2_map_same {A B : Type} (R : A -> B -> Prop) (f : A -> B) (l : list A) :
  Forall (fun a => R a (f a)) l -> Forall2 R l (map f l).
Proof. induction 1; simpl; constructor; auto. Qed.

(** X9. The load step never alters a value that is present: in the record
    of a line, every cell that is not null (the time apart, which is
    reformatted) is the cell of the line, unchanged and in the same
    column position; and a null cell stays null (None or NaN), no value
    is invented for it. *)
Theorem records_carry_the_cells :
  forall (parse_datetime : string -> option Timestamp)
         (df : list staged_row) (records : list Series),
    to_records parse_datetime df = Ok records ->
    Forall2
      (fun r rec =>
         exists time,
           iso_time parse_datetime (c_time r) = Ok time /\
           Forall2 (fun v v' => (notnull v = true -> v' = v) /\
                                (isna v = true -> isna v' = true))
                   (map snd (columns r time)) (map snd rec))
      df records.
Proof.
  intros pd df records H.
  apply to_records_Ok in H as [-> Hall].
  unfold where_notnull, renamed_frame. rewrite map_map.
  set (frame := map _ df).
  apply Forall2_map_same. eapply Forall_impl; [|exact Hall].
  cbv beta. intros r [time Htime]. exists time. split; [exact Htime|].
  rewrite Htime. cbn [value].
  unfold rename, columns. cbn [map fst snd].
  repeat (constructor; [apply where_cell_value|]). constructor.
Qed.

Lemma records_carry_the_cells_witness :
  exists rec,
    to_records parse_iso [Samples.staged_line] = Ok [rec] /\
    get rec "pm2_5" PNone = PFloat (F64.of_Z 12) /\
    get rec "risk_flag" PNone = PStr "Low Risk".
Proof.
  destruct (to_records parse_iso [Samples.staged_line]) as [records|e] eqn:E;
    [|vm_compute in E; discriminate].
  pose proof (records_carry_the_cells parse_iso [Samples.staged_line] records E) as H.
  inversion H as [|r rec ? ? (time & Htime & Hcells) Hrest]; subst.
  inversion Hrest; subst.
  exists rec. split; [reflexivity|].
  vm_compute in E. injection E as <-. split; vm_compute; reflexivity.
Defined.

(** ** The loop over the raw documents *)

Section Documents.

Variable parse_datetime : string -> option Timestamp.
Variable parse_number : string -> option F64.float.

Lemma build_rows_from_length city hourly times : forall i rows,
  build_rows_from parse_datetime parse_number city hourly i times = Ok rows ->
  List.length rows = List.length times.
Proof.
  induction times as [|ts times IH]; intros i rows; simpl.
  - now intros [= <-].
  - destruct (build_row _ _ city hourly i ts) as [row|e]; simpl; [|discriminate].
    destruct (build_rows_from _ _ city hourly (S i) times) as [rs|e] eqn:E;
      simpl; [|discriminate].
    intros [= <-]. simpl. f_equal. eauto.
Qed.

Lemma collect_records_app_eq (fs1 fs2 : list raw_file) :
  collect_records parse_datetime parse_number (fs1 ++ fs2)
  = (r1 <- collect_records parse_datetime parse_number fs1 ;;
     r2 <- collect_records parse_datetime parse_number fs2 ;;
     Ok (r1 ++ r2)).
Proof.
  induction fs1 as [|f fs1 IH]; cbn [app collect_records].
  - cbn [bind]. now destruct (collect_records _ _ fs2).
  - destruct (content f) as [hourly|]; [|exact IH].
    destruct (h_time hourly) as [|ts times]; [exact IH|].
    rewrite IH.
    destruct (build_rows _ _ (city_of_stem (stem f)) hourly) as [rows|e];
      cbn [bind]; [|reflexivity].
    destruct (collect_records _ _ fs1) as [r1|e]; cbn [bind]; [|reflexivity].
    destruct (collect_records _ _ fs2) as [r2|e]; cbn [bind]; [|reflexivity].
    now rewrite app_assoc.
Qed.

Lemma collect_records_length files : forall recs,
  collect_records parse_datetime parse_number files = Ok recs ->
  List.length recs = list_sum (map time_entries files).
Proof.
  induction files as [|f files IH]; intros recs; cbn [collect_records map list_sum].
  - now intros [= <-].
  - unfold time_entries at 1.
    destruct (content f) as [hourly|]; [|exact (IH recs)].
    destruct (h_time hourly) as [|ts times] eqn:Et; [exact (IH recs)|].
    destruct (build_rows _ _ (city_of_stem (stem f)) hourly) as [rows|e] eqn:Er;
      cbn [bind]; [|discriminate].
    destruct (collect_records _ _ files) as [more|e]; cbn [bind]; [|discriminate].
    intros [= <-]. rewrite length_app, (IH more eq_refl).
    unfold build_rows in Er. apply build_rows_from_length in Er.
    rewrite Er, Et. reflexivity.
Qed.

End Documents.

(** X10. The records are gathered document by document, in the order of
    the documents: the records of a list of documents followed by
    another are the records of the first followed by those of the second,
    and an error in either is the error of the whole. *)
Theorem records_come_document_by_document :
  forall (parse_datetime : string -> option Timestamp)
         (parse_number : string -> option F64.float)
         (fs1 fs2 : list raw_file),
    collect_records parse_datetime parse_number (fs1 ++ fs2)
    = (r1 <- collect_records parse_datetime parse_number fs1 ;;
       r2 <- collect_records parse_datetime parse_number fs2 ;;
       Ok (r1 ++ r2)).
Proof. exact collect_records_app_eq. Qed.

(** X11. When the loop over the documents ends normally, the number of
    records is the number of time entries of all the documents together;
    a document that is not valid JSON, or has no time axis, adds none. *)
Theorem one_record_per_time_entry_overall :
  forall (parse_datetime : string -> option Timestamp)
         (parse_number : string -> option F64.float)
         (files : list raw_file) (recs : list Series),
    collect_records parse_datetime parse_number files = Ok recs ->
    List.length recs = list_sum (map time_entries files).
Proof. exact collect_records_length. Qed.

Lemma one_record_per_time_entry_overall_witness :
  exists recs,
    collect_records parse_iso parse_digits
      [Samples.pune_file; mkRawFile "broken_raw_1" None; Samples.delhi_file] = Ok recs /\
    List.length recs = 5.
Proof.
  destruct (collect_records parse_iso parse_digits
              [Samples.pune_file; mkRawFile "broken_raw_1" None; Samples.delhi_file])
    as [recs|e] eqn:E; [|vm_compute in E; discriminate].
  exists recs. split; [reflexivity|].
  exact (one_record_per_time_entry_overall parse_iso parse_digits _ recs E).
Defined.

(** ** Outcomes of the transform step *)

Lemma base_row_get (c : string) (t : Timestamp) (cell : string -> pyval)
      (k : string) (d : pyval) :
  In k POLLUTANTS ->
  get (("city", PStr c) :: ("time", PTime t)
         :: map (fun pol => (pol, cell pol)) POLLUTANTS) k d
  = cell k.
Proof.
  simpl. intros H.
  repeat (destruct H as [<-|H]; [reflexivity|]). contradiction.
Qed.

Lemma base_row_keys (r : Series) : base_row r -> map fst r = base_columns.
Proof. intros (c & t & cell & _ & _ & ->). reflexivity. Qed.

Section Outcomes.

Variable parse_datetime : string -> option Timestamp.
Variable parse_number : string -> option F64.float.

Lemma to_datetime_valid ts t :
  to_datetime parse_datetime ts = Ok t -> valid_timestamp t = true.
Proof.
  unfold to_datetime. destruct (parse_datetime ts) as [t'|]; [|discriminate].
  destruct (valid_timestamp t') eqn:E; [|discriminate]. now intros [= <-].
Qed.

Lemma reading_is_cell hourly i pol :
  reading_cell (reading parse_number hourly i pol).
Proof.
  unfold reading.
  destruct (i <? List.length (get (h_series hourly) pol [])); [right | left]; eauto.
Qed.

Lemma build_rows_from_base city hourly times : forall i rows,
  build_rows_from parse_datetime parse_number city hourly i times = Ok rows ->
  Forall base_row rows.
Proof.
  induction times as [|ts times IH]; intros i rows; simpl.
  - intros [= <-]. constructor.
  - destruct (build_row _ _ city hourly i ts) as [row|e] eqn:Er; simpl; [|discriminate].
    destruct (build_rows_from _ _ city hourly (S i) times) as [rs|e] eqn:Ers;
      simpl; [|discriminate].
    intros [= <-]. constructor; [|eauto].
    apply build_row_Ok in Er as (t & Ht & ->).
    exists city, t, (reading parse_number hourly i).
    split; [eauto using to_datetime_valid|]. split; [|reflexivity].
    intros pol. apply reading_is_cell.
Qed.

Lemma collect_records_base files : forall recs,
  collect_records parse_datetime parse_number files = Ok recs ->
  Forall base_row recs.
Proof.
  induction files as [|f files IH]; intros recs; simpl.
  - intros [= <-]. constructor.
  - destruct (content f) as [hourly|]; [|apply IH].
    destruct (h_time hourly) as [|ts times] eqn:Et; [apply IH|].
    destruct (build_rows _ _ (city_of_stem (stem f)) hourly) as [rows|e] eqn:Er;
      simpl; [|discriminate].
    destruct (collect_records _ _ files) as [more|e]; simpl; [|discriminate].
    intros [= <-]. apply Forall_app. split; [|now apply IH].
    unfold build_rows in Er. eauto using build_rows_from_base.
Qed.

End Outcomes.

(** In a frame of such rows a pollutant column is float64 unless it is
    dead. *)
Lemma float_column_live (recs : list Series) (k : string) :
  Forall base_row recs -> In k POLLUTANTS ->
  float_column (column recs k) = negb (dead_column recs k).
Proof.
  intros Hall Hk. unfold float_column, dead_column, column.
  assert (H1 : forallb (fun v => is_number v || is_None v)
                       (map (fun r => get r k PNone) recs) = true).
  { induction Hall as [|r recs (c & t & cell & _ & Hcell & ->) _ IH]; [reflexivity|].
    cbn [map forallb]. rewrite base_row_get by exact Hk. rewrite IH.
    destruct (Hcell k) as [E|[x E]]; rewrite E; reflexivity. }
  rewrite H1, andb_true_r.
  induction Hall as [|r recs (c & t & cell & _ & Hcell & ->) Hrest IH]; [reflexivity|].
  cbn [map existsb forallb]. rewrite base_row_get by exact Hk.
  cbn [map forallb] in H1. apply andb_true_iff in H1 as [_ H1].
  rewrite (IH H1).
  destruct (Hcell k) as [E|[x E]]; rewrite E; reflexivity.
Qed.

(** The rows of the frame: dead columns keep [None], the other pollutant
    cells are floats. *)
Lemma DataFrame_rows (recs : list Series) :
  Forall base_row recs ->
  Forall (fun r => base_row r /\
                   forall k, In k POLLUTANTS ->
                     if dead_column recs k then get r k PNone = PNone
                     else exists x, get r k PNone = PFloat x)
         (DataFrame recs).
Proof.
  intros Hall. unfold DataFrame. apply Forall_map.
  apply Forall_forall. intros r Hr.
  pose proof Hall as Hall'. rewrite Forall_forall in Hall'.
  destruct (Hall' r Hr) as (c & t & cell & Ht & Hcell & ->).
  set (cell' := fun pol =>
         if is_None (cell pol) && float_column (column recs pol)
         then PFloat F64.nan else cell pol).
  assert (Erow : map (store_cell recs)
                     (("city", PStr c) :: ("time", PTime t)
                        :: map (fun pol => (pol, cell pol)) POLLUTANTS)
                 = ("city", PStr c) :: ("time", PTime t)
                     :: map (fun pol => (pol, cell' pol)) POLLUTANTS)
    by reflexivity.
  rewrite Erow. split.
  - exists c, t, cell'. split; [exact Ht|]. split; [|reflexivity].
    intros pol. unfold cell'.
    destruct (is_None (cell pol) && float_column (column recs pol));
      [right; eauto | apply Hcell].
  - intros k Hk. rewrite base_row_get by exact Hk. unfold cell'.
    rewrite (float_column_live recs k Hall Hk).
    destruct (dead_column recs k) eqn:D; cbn [negb].
    + rewrite andb_false_r.
      unfold dead_column in D. rewrite forallb_forall in D.
      specialize (D _ Hr). rewrite base_row_get in D by exact Hk.
      now destruct (cell k).
    + rewrite andb_true_r.
      destruct (Hcell k) as [E|[x E]]; rewrite E; cbn [is_None]; eauto.
Qed.

Lemma mapM_total {A B : Type} (f : A -> outcome B) (d : B) (l : list A) :
  Forall (fun a => exists b, f a = Ok b) l ->
  mapM f l = Ok (map (fun a => value d (f a)) l).
Proof.
  intros H. apply mapM_Ok_iff in H as [vs Hvs].
  now rewrite Hvs, (mapM_value f d l vs Hvs).
Qed.

Lemma mapM_raises_first {A B : Type} (f : A -> outcome B) (e0 : exn) (l : list A) :
  (forall a e, f a = Raise e -> e = e0) ->
  (exists a e, In a l /\ f a = Raise e) ->
  mapM f l = Raise e0.
Proof.
  intros Honly (a & e & Hin & Ha).
  destruct (mapM f l) as [vs|e'] eqn:E.
  - apply mapM_Forall in E. rewrite Forall_forall in E.
    destruct (E a Hin) as [b Hb]. congruence.
  - apply mapM_raises in E as (a' & _ & Ha'). f_equal. eauto.
Qed.

Lemma as_float_raises v e : as_float v = Raise e -> e = TypeError.
Proof. destruct v; simpl; congruence. Qed.

Lemma weighted_raises row key w e : weighted row key w = Raise e -> e = TypeError.
Proof.
  unfold weighted. destruct (as_float _) as [x|e'] eqn:E; simpl; [discriminate|].
  intros [= <-]. eauto using as_float_raises.
Qed.

Lemma compute_severity_raises row e :
  compute_severity row = Raise e -> e = TypeError.
Proof.
  unfold compute_severity.
  repeat match goal with
         | |- context [bind (weighted ?r ?k ?w) _] =>
             let E := fresh "E" in
             destruct (weighted r k w) eqn:E; cbn [bind];
             [| intros [= <-]; eauto using weighted_raises]
         end.
  discriminate.
Qed.

Lemma weighted_cell row key w :
  reading_cell (get row key (PInt 0)) ->
  (get row key (PInt 0) = PNone /\ weighted row key w = Raise TypeError) \/
  (exists x, get row key (PInt 0) = PFloat x /\
             weighted row key w = Ok (F64.mul x (F64.of_Z w))).
Proof.
  unfold weighted. intros [E|[x E]]; rewrite E; [left | right]; eauto.
Qed.

(** The severity of a row whose weighted cells are reading cells: a
    number when all six are floats, [TypeError] as soon as one is
    [None]. *)
Lemma compute_severity_cells row :
  (forall k, In k weighted_pollutants -> reading_cell (get row k (PInt 0))) ->
  ((forall k, In k weighted_pollutants -> exists x, get row k (PInt 0) = PFloat x) ->
   exists sev, compute_severity row = Ok sev) /\
  ((exists k, In k weighted_pollutants /\ get row k (PInt 0) = PNone) ->
   compute_severity row = Raise TypeError).
Proof.
  intros Hcell. split.
  - intros Hall. unfold compute_severity, weighted.
    destruct (Hall "pm2_5") as [a ->]; [simpl; tauto|].
    destruct (Hall "pm10") as [b ->]; [simpl; tauto|].
    destruct (Hall "nitrogen_dioxide") as [c ->]; [simpl; tauto|].
    destruct (Hall "sulphur_dioxide") as [d ->]; [simpl; tauto|].
    destruct (Hall "carbon_monoxide") as [e ->]; [simpl; tauto|].
    destruct (Hall "ozone") as [f ->]; [simpl; tauto|].
    cbn [as_float bind]. eauto.
  - intros (k & Hk & Hnone).
    destruct (compute_severity row) as [sev|e] eqn:E;
      [|f_equal; eauto using compute_severity_raises].
    exfalso. unfold compute_severity in E.
    assert (Hw : forall w, weighted row k w = Raise TypeError)
      by (intros w; unfold weighted; now rewrite Hnone).
    simpl in Hk.
    repeat (destruct Hk as [<-|Hk]; [rewrite Hw in E;
      repeat match type of E with
             | context [bind (weighted ?r ?k' ?w) _] =>
                 destruct (weighted r k' w); cbn [bind] in E
             end; discriminate|]).
    contradiction.
Qed.

Lemma compute_aqi_cell (v : pyval) :
  reading_cell v -> exists a, compute_aqi v = Ok a.
Proof.
  intros [->|[x ->]].
  - exists PNone. reflexivity.
  - unfold compute_aqi. destruct (isna (PFloat x)); [eexists; reflexivity|].
    cbn [as_float bind].
    repeat match goal with
           | |- context [if ?c then _ else _] => destruct c
           end; eexists; reflexivity.
Qed.

(** Rows of a frame of base rows: what the derived columns can do. *)
Lemma derive_features_outcome (df : list Series) :
  Forall base_row df ->
  (Forall (fun r => exists sev, compute_severity (with_aqi r) = Ok sev) df ->
   derive_features df = Ok (map derived df)) /\
  ((exists r, In r df /\ compute_severity (with_aqi r) = Raise TypeError) ->
   derive_features df = Raise TypeError).
Proof.
  intros Hbase.
  assert (Haqi : mapM compute_aqi (column df "pm2_5")
                 = Ok (map (fun r => value PNone (compute_aqi (get r "pm2_5" PNone))) df)).
  { unfold column. rewrite mapM_map. apply mapM_total.
    eapply Forall_impl; [|exact Hbase]. cbv beta.
    intros r (c & t & cell & _ & Hcell & ->). apply compute_aqi_cell.
    rewrite base_row_get by (simpl; tauto). apply Hcell. }
  unfold derive_features. rewrite Haqi. cbn [bind]. rewrite assign_same.
  fold with_aqi.
  change (map (fun r => r ++ [("AQI", value PNone (compute_aqi (get r "pm2_5" PNone)))]) df)
    with (map with_aqi df).
  rewrite mapM_map. split.
  - intros Hsev. rewrite (mapM_total _ F64.nan _ Hsev). cbn [bind].
    rewrite map_map, assign_map. unfold column. rewrite map_map, mapM_map.
    rewrite (mapM_total _ PNone).
    + cbn [bind]. rewrite assign_map, map_map, mapM_map.
      rewrite (mapM_total _ PNone).
      * cbn [bind]. rewrite assign_map. reflexivity.
      * eapply Forall_impl; [|exact Hbase]. cbv beta.
        intros r Hr. pose proof (base_row_keys r Hr) as Hk.
        destruct Hr as (c & t & cell & _ & _ & ->).
        unfold with_aqi. rewrite <- !app_assoc.
        rewrite get_app_l by (rewrite Hk; simpl; tauto).
        simpl. eauto.
    + eapply Forall_impl; [|exact Hbase]. cbv beta.
      intros r Hr. pose proof (base_row_keys r Hr) as Hk.
      unfold with_aqi. rewrite <- !app_assoc.
      rewrite get_app_r by (rewrite Hk; simpl; intuition discriminate).
      cbn [app get lookup String.eqb Ascii.eqb Bool.eqb].
      unfold risk_of. cbn [as_float bind]. eexists; reflexivity.
  - intros (r & Hr & Hraise).
    rewrite (mapM_raises_first _ TypeError); [reflexivity | |].
    + intros a e. apply compute_severity_raises.
    + eauto.
Qed.

Lemma lookup_store_cell (recs : list Series) (k : string) (r : Series) :
  lookup k (map (store_cell recs) r)
  = option_map (fun v => snd (store_cell recs (k, v))) (lookup k r).
Proof.
  induction r as [|[k' v] r IH]; [reflexivity|].
  cbn [map lookup store_cell fst snd].
  destruct (String.eqb k k') eqn:E; [|exact IH].
  apply String.eqb_eq in E. subst k'. reflexivity.
Qed.

Lemma isna_store_cell (recs : list Series) (k : string) (r : Series) :
  isna (get (map (store_cell recs) r) k PNone) = isna (get r k PNone).
Proof.
  unfold get. rewrite lookup_store_cell.
  destruct (lookup k r) as [v|]; [|reflexivity].
  cbn [option_map store_cell fst snd].
  destruct (is_None v && float_column (column recs k)) eqn:E; [|reflexivity].
  apply andb_true_iff in E as [Hv _]. destruct v; try discriminate. reflexivity.
Qed.

Lemma has_reading_store_cell (recs : list Series) (subset : list string) (r : Series) :
  has_reading subset (map (store_cell recs) r) = has_reading subset r.
Proof.
  unfold has_reading, notnull.
  induction subset as [|k subset IH]; [reflexivity|].
  cbn [existsb]. now rewrite isna_store_cell, IH.
Qed.

Lemma filter_map_same {A : Type} (p : A -> bool) (h : A -> A) (l : list A) :
  (forall a, p (h a) = p a) -> filter p (map h l) = map h (filter p l).
Proof.
  intros H. induction l as [|a l IH]; [reflexivity|].
  cbn [map filter]. rewrite H, IH. now destruct (p a).
Qed.

Lemma filter_DataFrame (recs : list Series) :
  filter (has_reading POLLUTANTS) (DataFrame recs)
  = map (map (store_cell recs)) (filter (has_reading POLLUTANTS) recs).
Proof.
  unfold DataFrame. apply filter_map_same.
  intros r. apply has_reading_store_cell.
Qed.

Lemma weighted_is_pollutant (k : string) :
  In k weighted_pollutants -> In k POLLUTANTS.
Proof. simpl. intuition. Qed.

(** The severity of a row of the frame: a number when every weighted
    column is live, [TypeError] when one is dead. *)
Lemma frame_row_severity (recs : list Series) (r : Series) :
  Forall base_row recs -> In r (DataFrame recs) ->
  base_row r /\
  (existsb (dead_column recs) weighted_pollutants = false ->
   exists sev, compute_severity (with_aqi r) = Ok sev) /\
  (existsb (dead_column recs) weighted_pollutants = true ->
   compute_severity (with_aqi r) = Raise TypeError).
Proof.
  intros Hall Hr.
  pose proof (DataFrame_rows recs Hall) as Hrows.
  rewrite Forall_forall in Hrows. destruct (Hrows r Hr) as [Hb Hcells].
  split; [exact Hb|].
  pose proof (base_row_keys r Hb) as Hk.
  assert (Hget : forall k, In k weighted_pollutants ->
                   get (with_aqi r) k (PInt 0) = get r k PNone).
  { intros k Hin. unfold with_aqi.
    rewrite get_app_l by (rewrite Hk; now apply weighted_in_base).
    apply get_default. rewrite Hk. now apply weighted_in_base. }
  assert (Hcell : forall k, In k weighted_pollutants ->
                    reading_cell (get (with_aqi r) k (PInt 0))).
  { intros k Hin. rewrite (Hget k Hin).
    specialize (Hcells k (weighted_is_pollutant k Hin)).
    destruct (dead_column recs k); [left; exact Hcells | right; exact Hcells]. }
  destruct (compute_severity_cells (with_aqi r) Hcell) as [Hok Hbad].
  split.
  - intros Hlive. apply Hok. intros k Hin. rewrite (Hget k Hin).
    specialize (Hcells k (weighted_is_pollutant k Hin)).
    destruct (dead_column recs k) eqn:Ed; [|exact Hcells].
    exfalso. apply Bool.not_true_iff_false in Hlive. apply Hlive.
    apply existsb_exists. eauto.
  - intros Hdead. apply Hbad.
    apply existsb_exists in Hdead as (k & Hin & Hd).
    exists k. split; [exact Hin|]. rewrite (Hget k Hin).
    specialize (Hcells k (weighted_is_pollutant k Hin)).
    now rewrite Hd in Hcells.
Qed.

Section TransformOutcome.

Variable parse_datetime : string -> option Timestamp.
Variable parse_number : string -> option F64.float.

Local Abbreviation transform := (Transform.transform parse_datetime parse_number).
Local Abbreviation collect_records :=
  (Transform.collect_records parse_datetime parse_number).

(** What the step does once the records are collected. *)
Lemma transform_after_collect (files : list raw_file) (recs : list Series) :
  collect_records files = Ok recs -> recs <> [] ->
  transform files
  = if existsb (has_reading POLLUTANTS) recs
       && existsb (dead_column recs) weighted_pollutants
    then Raise TypeError
    else Ok (map derived (filter (has_reading POLLUTANTS) (DataFrame recs))).
Proof.
  intros Hc Hne. unfold Transform.transform. rewrite Hc. cbn [bind].
  pose proof (collect_records_base _ _ files recs Hc) as Hall.
  assert (Hdf : DataFrame recs <> []).
  { unfold DataFrame. destruct recs; [contradiction|discriminate]. }
  unfold dropna_all. destruct (DataFrame recs) as [|r0 df0] eqn:Edf; [contradiction|].
  rewrite <- Edf. cbn [bind]. clear Hdf.
  assert (Hkept : Forall (fun r => In r (DataFrame recs))
                         (filter (has_reading POLLUTANTS) (DataFrame recs))).
  { apply Forall_forall. intros r Hr. now apply filter_In in Hr. }
  assert (Hbase : Forall base_row (filter (has_reading POLLUTANTS) (DataFrame recs))).
  { eapply Forall_impl; [|exact Hkept]. cbv beta. intros r Hr.
    now apply (frame_row_severity recs r Hall Hr). }
  destruct (derive_features_outcome _ Hbase) as [Hok Hbad].
  destruct (existsb (dead_column recs) weighted_pollutants) eqn:Ed.
  - rewrite andb_true_r.
    destruct (existsb (has_reading POLLUTANTS) recs) eqn:Eh.
    + apply Hbad. apply existsb_exists in Eh as (r & Hr & Hhas).
      exists (map (store_cell recs) r). split.
      * rewrite filter_DataFrame. apply in_map. apply filter_In. now split.
      * apply (frame_row_severity recs _ Hall); [|exact Ed].
        unfold DataFrame. now apply in_map.
    + assert (Hnone : filter (has_reading POLLUTANTS) recs = []).
      { clear -Eh. induction recs as [|r rs IH]; [reflexivity|].
        cbn [existsb] in Eh. apply orb_false_iff in Eh as [E1 E2].
        cbn [filter]. rewrite E1. now apply IH. }
      rewrite filter_DataFrame, Hnone. reflexivity.
  - rewrite andb_false_r. apply Hok.
    eapply Forall_impl; [|exact Hkept]. cbv beta. intros r Hr.
    now apply (frame_row_severity recs r Hall Hr).
Qed.

Lemma collect_records_nothing (files : list raw_file) :
  Forall (fun f => time_entries f = 0) files -> collect_records files = Ok [].
Proof.
  induction 1 as [|f files Hf _ IH]; [reflexivity|].
  cbn [Transform.collect_records]. unfold time_entries in Hf.
  destruct (content f) as [hourly|]; [|exact IH].
  destruct (h_time hourly); [exact IH|discriminate].
Qed.

End TransformOutcome.

(** X12. When no document has a time entry (the documents are not
    valid JSON, or have an empty or missing time axis), the step stops
    with [KeyError]: the frame then has no column, and [dropna] cannot
    find the pollutant columns. *)
Theorem no_time_entry_is_a_key_error :
  forall (parse_datetime : string -> option Timestamp)
         (parse_number : string -> option F64.float)
         (files : list raw_file),
    Forall (fun f => time_entries f = 0) files ->
    transform parse_datetime parse_number files = Raise KeyError.
Proof.
  intros pd pn files H. unfold transform.
  now rewrite (collect_records_nothing pd pn files H).
Qed.

Lemma no_time_entry_is_a_key_error_witness :
  transform parse_iso parse_digits
    [mkRawFile "broken_raw_1" None; mkRawFile "pune_raw_2" (Some (mkHourly [] []))]
  = Raise KeyError.
Proof.
  apply no_time_entry_is_a_key_error.
  constructor; [reflexivity|]. constructor; [reflexivity|]. constructor.
Defined.

(** X14. When the records are collected, one of them has a reading, and
    one of the six weighted pollutants has no reading in any record, the
    step stops with [TypeError]: the column of that pollutant holds
    [None], and the severity formula multiplies [None] by a number. *)
Theorem pollutant_without_reading_is_a_type_error :
  forall (parse_datetime : string -> option Timestamp)
         (parse_number : string -> option F64.float)
         (files : list raw_file) (recs : list Series) (k : string),
    collect_records parse_datetime parse_number files = Ok recs ->
    (exists r, In r recs /\ has_reading POLLUTANTS r = true) ->
    In k weighted_pollutants ->
    dead_column recs k = true ->
    transform parse_datetime parse_number files = Raise TypeError.
Proof.
  intros pd pn files recs k Ec Hr Hk Hd.
  assert (Hne : recs <> []) by (destruct Hr as (r & Hin & _); now destruct recs).
  rewrite (transform_after_collect _ _ files recs Ec Hne).
  apply existsb_exists in Hr.
  assert (Hdead : existsb (dead_column recs) weighted_pollutants = true)
    by (apply existsb_exists; eauto).
  now rewrite Hr, Hdead.
Qed.

Lemma pollutant_without_reading_is_a_type_error_witness :
  transform parse_iso parse_digits
    [mkRawFile "pune_raw_1"
       (Some (mkHourly ["2024-01-01T00:00"] [("pm2_5", [Samples.num 12])]))]
  = Raise TypeError.
Proof.
  destruct (collect_records parse_iso parse_digits
              [mkRawFile "pune_raw_1"
                 (Some (mkHourly ["2024-01-01T00:00"] [("pm2_5", [Samples.num 12])]))])
    as [recs|e] eqn:E; [|vm_compute in E; discriminate].
  apply (pollutant_without_reading_is_a_type_error
           parse_iso parse_digits _ recs "ozone" E).
  - vm_compute in E. injection E as <-. eexists. split; [left; reflexivity|].
    vm_compute. reflexivity.
  - simpl. tauto.
  - vm_compute in E. injection E as <-. vm_compute. reflexivity.
Defined.

Lemma compute_severity_ext (r1 r2 : Series) :
  (forall k, In k weighted_pollutants -> get r1 k (PInt 0) = get r2 k (PInt 0)) ->
  compute_severity r1 = compute_severity r2.
Proof.
  intros H. unfold compute_severity, weighted.
  rewrite !H by (simpl; tauto). reflexivity.
Qed.

Lemma derived_keys (r : Series) :
  map fst r = base_columns -> map fst (derived r) = staged_columns.
Proof.
  intros Hk. unfold derived, with_aqi. rewrite !map_app, Hk. reflexivity.
Qed.

Lemma valid_timestamp_hour (t : Timestamp) :
  valid_timestamp t = true -> hour t < 24.
Proof.
  unfold valid_timestamp. rewrite !andb_true_iff.
  intros H. decompose [and] H. now apply Nat.ltb_lt.
Qed.

(** The cells of a derived row, for a base row whose severity is
    computed. *)
Lemma derived_row_shape (r : Series) (sev : F64.float) :
  base_row r -> compute_severity (with_aqi r) = Ok sev ->
  map fst (derived r) = staged_columns /\
  (exists c, get (derived r) "city" PNone = PStr c) /\
  (exists t, get (derived r) "time" PNone = PTime t /\
             valid_timestamp t = true /\
             get (derived r) "hour" PNone = PInt (Z.of_nat (hour t)) /\
             hour t < 24) /\
  (forall k, In k weighted_pollutants ->
     exists x, get (derived r) k PNone = PFloat x) /\
  reading_cell (get (derived r) "uv_index" PNone) /\
  compute_aqi (get (derived r) "pm2_5" PNone) = Ok (get (derived r) "AQI" PNone) /\
  compute_severity (derived r) = Ok sev /\
  get (derived r) "severity" PNone = PFloat sev /\
  get (derived r) "risk" PNone = PStr (classify_risk sev).
Proof.
  intros Hb Hsev.
  pose proof (base_row_keys r Hb) as Hk.
  destruct (derived_cells r Hk) as (Hs & Hr & Hsame & Hw).
  assert (Hsv : severity_of r = sev) by (unfold severity_of; now rewrite Hsev).
  rewrite Hsv in Hs, Hr.
  assert (Hcells : forall k, In k POLLUTANTS -> reading_cell (get r k PNone)).
  { destruct Hb as (c & t & cell & _ & Hcell & ->). intros k Hin.
    rewrite base_row_get by exact Hin. apply Hcell. }
  assert (Hd0 : forall k, In k base_columns ->
                  get (derived r) k (PInt 0) = get (with_aqi r) k (PInt 0)).
  { intros k Hin. rewrite Hw by exact Hin.
    unfold derived, with_aqi. rewrite <- !app_assoc.
    apply get_app_l. now rewrite Hk. }
  split; [now apply derived_keys|].
  split.
  { rewrite Hsame by (simpl; tauto).
    destruct Hb as (c & t & cell & _ & _ & ->). exists c. reflexivity. }
  split.
  { destruct Hb as (c & t & cell & Hv & Hcell & E). exists t.
    assert (Ht : get r "time" PNone = PTime t) by (rewrite E; reflexivity).
    split; [rewrite Hsame by (simpl; tauto); exact Ht|].
    split; [exact Hv|]. split; [|now apply valid_timestamp_hour].
    unfold derived. rewrite get_app_r
      by (unfold with_aqi; rewrite !map_app, Hk; simpl; intuition discriminate).
    assert (Ht' : forall tl1 tl2 tl3,
               get (((r ++ tl1) ++ tl2) ++ tl3) "time" PNone = PTime t).
    { intros. rewrite <- !app_assoc, get_app_l by (rewrite Hk; simpl; tauto).
      exact Ht. }
    unfold with_aqi. cbn [get lookup String.eqb Ascii.eqb Bool.eqb].
    rewrite Ht'. reflexivity. }
  split.
  { intros k Hin. rewrite Hsame by now apply weighted_in_base.
    destruct (Hcells k (weighted_is_pollutant k Hin)) as [E|E]; [|exact E].
    exfalso.
    assert (Hc : forall k0, In k0 weighted_pollutants ->
                   reading_cell (get (with_aqi r) k0 (PInt 0))).
    { intros k0 H0. rewrite Hw by now apply weighted_in_base.
      rewrite (get_default k0 r (PInt 0) PNone)
        by (rewrite Hk; now apply weighted_in_base).
      apply Hcells. now apply weighted_is_pollutant. }
    destruct (compute_severity_cells (with_aqi r) Hc) as [_ Hbad].
    rewrite Hbad in Hsev; [discriminate|].
    exists k. split; [exact Hin|].
    rewrite Hw by now apply weighted_in_base.
    rewrite (get_default k r (PInt 0) PNone)
      by (rewrite Hk; now apply weighted_in_base).
    exact E. }
  split.
  { rewrite Hsame by (simpl; tauto). apply Hcells. simpl; tauto. }
  split.
  { rewrite Hsame by (simpl; tauto).
    destruct (compute_aqi_cell (get r "pm2_5" PNone)) as [a Ha];
      [apply Hcells; simpl; tauto|].
    rewrite Ha. f_equal. unfold derived. rewrite <- !app_assoc.
    unfold with_aqi. rewrite <- !app_assoc.
    rewrite get_app_r by (rewrite Hk; simpl; intuition discriminate).
    rewrite Ha. reflexivity. }
  split.
  { rewrite <- Hsev. apply compute_severity_ext.
    intros k Hin. apply Hd0. now apply weighted_in_base. }
  split; assumption.
Qed.

(** X16. Every row that the step writes has the thirteen columns of the
    staged file, in order, and its derived cells agree with the rest of
    the row: the city is a text; the [hour] cell is the hour of the time;
    the AQI cell is the category of the PM2.5 cell; the severity is the
    weighted sum of the row's own readings; and the risk is the flag of
    that severity. *)
Theorem staged_rows_are_consistent :
  forall (parse_datetime : string -> option Timestamp)
         (parse_number : string -> option F64.float)
         (files : list raw_file) (out : list Series),
    transform parse_datetime parse_number files = Ok out ->
    Forall (fun r =>
              map fst r = staged_columns /\
              (exists c, get r "city" PNone = PStr c) /\
              (forall t, get r "time" PNone = PTime t ->
                         get r "hour" PNone = PInt (Z.of_nat (hour t))) /\
              compute_aqi (get r "pm2_5" PNone) = Ok (get r "AQI" PNone) /\
              exists sev,
                compute_severity r = Ok sev /\
                get r "severity" PNone = PFloat sev /\
                get r "risk" PNone = PStr (classify_risk sev))
           out.
Proof.
  intros pd pn files out H.
  destruct (collect_records pd pn files) as [recs|e] eqn:Ec;
    [|unfold transform in H; rewrite Ec in H; discriminate].
  pose proof (collect_records_base _ _ files recs Ec) as Hall.
  apply transform_rows in H as (recs' & Ec' & -> & Hrows).
  rewrite Ec in Ec'. injection Ec' as <-.
  apply Forall_map. apply Forall_forall. intros r Hr.
  rewrite Forall_forall in Hrows. destruct (Hrows r Hr) as [_ [sev Hsev]].
  apply filter_In in Hr as [Hr _].
  destruct (frame_row_severity recs r Hall Hr) as [Hb _].
  destruct (derived_row_shape r sev Hb Hsev)
    as (H1 & H2 & (t & Ht & _ & Hh & _) & _ & _ & H6 & H7 & H8 & H9).
  split; [exact H1|]. split; [exact H2|]. split.
  - intros t' Ht'. rewrite Ht in Ht'. injection Ht' as <-. exact Hh.
  - split; [exact H6|].
    exists sev. split; [exact H7|]. split; [exact H8|exact H9].
Qed.

Lemma staged_rows_are_consistent_witness :
  exists out,
    transform parse_iso parse_digits [Samples.pune_file; Samples.delhi_file] = Ok out /\
    Forall (fun r => map fst r = staged_columns /\
                     exists sev, compute_severity r = Ok sev /\
                                 get r "severity" PNone = PFloat sev) out.
Proof.
  destruct (transform parse_iso parse_digits [Samples.pune_file; Samples.delhi_file])
    as [out|e] eqn:E; [|vm_compute in E; discriminate].
  exists out. split; [reflexivity|].
  pose proof (staged_rows_are_consistent parse_iso parse_digits _ out E) as H.
  eapply Forall_impl; [|exact H]. cbv beta.
  intros r (H1 & _ & _ & _ & sev & H7 & H8 & _).
  split; [exact H1|]. exists sev. split; assumption.
Defined.

(** ** The AQI category *)

Lemma SFcompare_antisym (x y : spec_float) :
  SFcompare y x = option_map CompOpp (SFcompare x y).
Proof.
  destruct x as [sx|sx| |sx mx ex], y as [sy|sy| |sy my ey];
    cbn [SFcompare option_map CompOpp];
    try reflexivity;
    try (destruct sx; reflexivity);
    try (destruct sy; reflexivity);
    try (destruct sx, sy; reflexivity).
  destruct sx, sy; cbn [CompOpp]; try reflexivity.
  - rewrite (Z.compare_antisym ex ey).
    destruct (ex ?= ey)%Z; cbn [CompOpp]; try reflexivity.
    f_equal. f_equal. symmetry. apply (Pos.compare_cont_antisym mx my Eq).
  - rewrite (Z.compare_antisym ex ey).
    destruct (ex ?= ey)%Z; cbn [CompOpp]; try reflexivity.
    f_equal. symmetry. apply (Pos.compare_cont_antisym mx my Eq).
Qed.

Lemma leb_negb_gtb (x y : F64.float) (u v : Z) :
  F64.ulps x = Some u -> F64.ulps y = Some v ->
  F64.leb x y = negb (F64.gtb x y).
Proof.
  intros Hx Hy. unfold F64.leb, F64.gtb, SFleb, SFltb.
  rewrite (SFcompare_antisym x y).
  destruct (SFcompare x y) as [[| |]|] eqn:E; cbn [option_map CompOpp negb];
    try reflexivity.
  exfalso. destruct x, y; try discriminate.
Qed.

Lemma leb_of_Z (k : Z) (mT : positive) (eT : Z) (x : F64.float) (u : Z) :
  F64.of_Z k = S754_finite false mT eT ->
  (2 ^ 52 <=? Zpos mT)%Z && (Zpos mT <? 2 ^ 53)%Z && (-1074 <=? eT)%Z
  && (Zpos mT * 2 ^ (eT + 1074) =? k * 2 ^ 1074)%Z = true ->
  F64.valid x = true -> F64.ulps x = Some u ->
  F64.leb x (F64.of_Z k) = (u <=? k * 2 ^ 1074)%Z.
Proof.
  intros Hk H Hv Hu.
  pose proof (gtb_of_Z k mT eT x u Hk H Hv Hu) as Hgt.
  rewrite (leb_negb_gtb x (F64.of_Z k) u (Zpos mT * 2 ^ (eT + 1074)) Hu)
    by (rewrite Hk; reflexivity).
  destruct (F64.gtb x (F64.of_Z k)) eqn:E; cbn [negb]; symmetry.
  - apply Z.leb_gt. now apply Hgt.
  - apply Z.leb_le. apply Z.le_ngt. intros Hlt. apply Hgt in Hlt. discriminate.
Qed.

(** X17. The AQI category of a PM2.5 reading: none for a missing reading
    (None or NaN); for a finite reading, Good up to 50, Moderate up to
    100, Unhealthy up to 200, Very Unhealthy up to 300, Hazardous above,
    each bound included in the lower category; a negative reading is
    Good.  Values are counted in units of 2^-1074. *)
Theorem aqi_category_by_value :
  compute_aqi PNone = Ok PNone /\
  compute_aqi (PFloat F64.nan) = Ok PNone /\
  forall (x : F64.float) (u : Z),
    F64.valid x = true -> F64.ulps x = Some u ->
    compute_aqi (PFloat x)
    = Ok (PStr (if (u <=? 50 * 2 ^ 1074)%Z then "Good"
                else if (u <=? 100 * 2 ^ 1074)%Z then "Moderate"
                else if (u <=? 200 * 2 ^ 1074)%Z then "Unhealthy"
                else if (u <=? 300 * 2 ^ 1074)%Z then "Very Unhealthy"
                else "Hazardous")).
Proof.
  split; [reflexivity|]. split; [reflexivity|].
  intros x u Hv Hu. unfold compute_aqi.
  assert (Hn : isna (PFloat x) = false) by (destruct x; [reflexivity| |discriminate|reflexivity]; discriminate).
  rewrite Hn. cbn [as_float bind].
  rewrite (leb_of_Z 50 7036874417766400 (-47) x u);
    [|vm_compute; reflexivity|vm_compute; reflexivity|exact Hv|exact Hu].
  rewrite (leb_of_Z 100 7036874417766400 (-46) x u);
    [|vm_compute; reflexivity|vm_compute; reflexivity|exact Hv|exact Hu].
  rewrite (leb_of_Z 200 7036874417766400 (-45) x u);
    [|vm_compute; reflexivity|vm_compute; reflexivity|exact Hv|exact Hu].
  rewrite (leb_of_Z 300 5277655813324800 (-44) x u);
    [|vm_compute; reflexivity|vm_compute; reflexivity|exact Hv|exact Hu].
  destruct (u <=? 50 * 2 ^ 1074)%Z; [reflexivity|].
  destruct (u <=? 100 * 2 ^ 1074)%Z; [reflexivity|].
  destruct (u <=? 200 * 2 ^ 1074)%Z; [reflexivity|].
  destruct (u <=? 300 * 2 ^ 1074)%Z; reflexivity.
Qed.

Lemma aqi_category_by_value_witness :
  compute_aqi (PFloat (F64.dec 501 1)) = Ok (PStr "Moderate") /\
  compute_aqi (PFloat (F64.of_Z 50)) = Ok (PStr "Good").
Proof.
  split.
  - assert (Hv : F64.valid (F64.dec 501 1) = true) by (vm_compute; reflexivity).
    assert (Hu : F64.ulps (F64.dec 501 1) = Some (7050948166601933 * 2 ^ 1027)%Z)
      by (vm_compute; reflexivity).
    rewrite (proj2 (proj2 aqi_category_by_value) _ _ Hv Hu).
    vm_compute. reflexivity.
  - assert (Hv : F64.valid (F64.of_Z 50) = true) by (vm_compute; reflexivity).
    assert (Hu : F64.ulps (F64.of_Z 50) = Some (50 * 2 ^ 1074)%Z)
      by (vm_compute; reflexivity).
    rewrite (proj2 (proj2 aqi_category_by_value) _ _ Hv Hu).
    vm_compute. reflexivity.
Defined.

(** ** The city name *)

Lemma prefix_app (p s t : string) :
  String.length p <= String.length s ->
  String.prefix p (s ++ t) = String.prefix p s.
Proof.
  revert s. induction p as [|a p IH]; intros s Hlen.
  { destruct s; destruct t; reflexivity. }
  destruct s as [|b s]; [simpl in Hlen; lia|].
  cbn [String.append String.prefix].
  destruct (ascii_dec a b); [|reflexivity].
  apply IH. simpl in Hlen. lia.
Qed.

Lemma before_raw_marker (t : string) : before_raw ("_raw_" ++ t) = "".
Proof.
  cbn [String.append before_raw]. 
  assert (H : String.prefix "_raw_" (String "_" (String "r" (String "a" (String "w" (String "_" t))))) = true).
  { cbn [String.prefix]. repeat (destruct (ascii_dec _ _); [|congruence]).
    destruct t; reflexivity. }
  now rewrite H.
Qed.

Lemma string_app_assoc (a b c : string) : (a ++ b ++ c = (a ++ b) ++ c)%string.
Proof.
  induction a as [|x a IH]; [reflexivity|].
  cbn [String.append]. now rewrite IH.
Qed.

Lemma string_app_length (a b : string) :
  String.length (a ++ b) = String.length a + String.length b.
Proof.
  induction a as [|x a IH]; [reflexivity|].
  cbn [String.append String.length]. now rewrite IH.
Qed.

Lemma before_raw_suffix (name d : string) :
  before_raw (name ++ "_raw_" ++ d) = before_raw (name ++ "_raw_").
Proof.
  induction name as [|c name IH].
  - exact (eq_trans (before_raw_marker d) (eq_sym (before_raw_marker ""))).
  - change (before_raw (String c (name ++ "_raw_" ++ d))
            = before_raw (String c (name ++ "_raw_"))).
    cbn [before_raw]. rewrite IH.
    replace (String.prefix "_raw_" (String c (name ++ "_raw_" ++ d)))
      with (String.prefix "_raw_" (String c (name ++ "_raw_"))); [reflexivity|].
    change (String c (name ++ "_raw_" ++ d))
      with (String c name ++ "_raw_" ++ d)%string.
    rewrite (string_app_assoc (String c name) "_raw_" d), prefix_app; [reflexivity|].
    rewrite string_app_length. cbn [String.length]. lia.
Qed.

Lemma title_char (c : ascii) (after_letter : bool) :
  (if is_lower c || is_upper c
   then (if after_letter then to_lower c else to_upper c)
   else c) = "_"%char -> c = "_"%char.
Proof.
  destruct c as [[] [] [] [] [] [] [] []], after_letter;
    vm_compute; intros H; solve [reflexivity | discriminate H].
Qed.

Lemma title_no_underscore (s : string) : forall after_letter,
  Forall (fun c => c <> "_"%char) (list_ascii_of_string s) ->
  Forall (fun c => c <> "_"%char) (list_ascii_of_string (title after_letter s)).
Proof.
  induction s as [|c s IH]; intros b H; [constructor|].
  cbn [list_ascii_of_string] in H. inversion H as [|? ? Hc Hs]; subst.
  cbn [title].
  destruct (is_lower c || is_upper c) eqn:E; cbn [list_ascii_of_string];
    constructor; try (apply IH; exact Hs).
  - intros Hu. apply Hc. apply (title_char c b). now rewrite E.
  - exact Hc.
Qed.

Lemma underscores_to_spaces_clean (s : string) :
  Forall (fun c => c <> "_"%char) (list_ascii_of_string (underscores_to_spaces s)).
Proof.
  induction s as [|c s IH]; [constructor|].
  cbn [underscores_to_spaces list_ascii_of_string]. constructor; [|exact IH].
  destruct (Ascii.eqb c "_") eqn:E; [discriminate|].
  now apply Ascii.eqb_neq.
Qed.

(** X18. The city of a document comes from the part of the file name
    before the first [_raw_]: what follows the marker (the date stamp)
    does not change it, so the snapshots of one city on different days
    give the same city; and the city never holds an underscore. *)
Theorem city_comes_from_the_name_before_the_marker :
  forall (name d1 d2 stem : string),
    city_of_stem (name ++ "_raw_" ++ d1) = city_of_stem (name ++ "_raw_" ++ d2) /\
    Forall (fun c => c <> "_"%char) (list_ascii_of_string (city_of_stem stem)).
Proof.
  intros name d1 d2 stem. unfold city_of_stem. split.
  - now rewrite (before_raw_suffix name d1), (before_raw_suffix name d2).
  - apply title_no_underscore, underscores_to_spaces_clean.
Qed.

(** ** The tables of the analysis *)

Lemma string_compare_refl (s : string) : String.compare s s = Eq.
Proof.
  pose proof (String.compare_antisym s s) as H.
  destruct (String.compare s s); [reflexivity|discriminate|discriminate].
Qed.

Lemma string_compare_trans (x y z : string) :
  String.compare x y = Lt -> String.compare y z = Lt -> String.compare x z = Lt.
Proof.
  intros H1 H2. apply String_as_OT.cmp_lt.
  apply (String_as_OT.lt_trans x y z); now apply String_as_OT.cmp_lt.
Qed.

Lemma string_compare_flip (x y : string) :
  String.compare x y = Gt -> String.compare y x = Lt.
Proof.
  intros H. rewrite String.compare_antisym, H. reflexivity.
Qed.

Section TrendTable.

Import Report.

Local Abbreviation trend_row := (option string * Timestamp * pyval * pyval * pyval)%type.
Local Abbreviation le := (fun a b : trend_row => trend_leb a b = true).

Lemma trend_leb_total (a b : trend_row) :
  trend_leb a b = false -> trend_leb b a = true.
Proof.
  unfold trend_leb.
  destruct (trend_city a) as [x|], (trend_city b) as [y|];
    try discriminate; try reflexivity.
  - rewrite (String.compare_antisym x y).
    destruct (String.compare y x) eqn:E; cbn [CompOpp]; try discriminate.
    + intros H. apply Z.leb_gt in H. apply Z.leb_le. lia.
    + reflexivity.
  - intros H. apply Z.leb_gt in H. apply Z.leb_le. lia.
Qed.

Lemma trend_leb_trans (a b c : trend_row) :
  trend_leb a b = true -> trend_leb b c = true -> trend_leb a c = true.
Proof.
  unfold trend_leb.
  destruct (trend_city a) as [x|], (trend_city b) as [y|], (trend_city c) as [z|];
    try discriminate; try reflexivity.
  - destruct (String.compare x y) eqn:Exy; try discriminate;
      destruct (String.compare y z) eqn:Eyz; try discriminate; intros H1 H2.
    + apply String.compare_eq_iff in Exy, Eyz. subst y z.
      rewrite string_compare_refl. apply Z.leb_le in H1, H2. apply Z.leb_le. lia.
    + apply String.compare_eq_iff in Exy. subst y. now rewrite Eyz.
    + apply String.compare_eq_iff in Eyz. subst z. now rewrite Exy.
    + now rewrite (string_compare_trans x y z Exy Eyz).
  - intros H1 H2. apply Z.leb_le in H1, H2. apply Z.leb_le. lia.
Qed.

Lemma insert_sorted_perm (r : trend_row) (l : list trend_row) :
  Permutation (r :: l) (insert_sorted r l).
Proof.
  induction l as [|x l IH]; cbn [insert_sorted]; [reflexivity|].
  destruct (trend_leb r x); [reflexivity|].
  rewrite perm_swap. now constructor.
Qed.

Lemma insert_sorted_strongly (r : trend_row) (l : list trend_row) :
  StronglySorted le l -> StronglySorted le (insert_sorted r l).
Proof.
  induction 1 as [|x l Hs IH Hx]; cbn [insert_sorted].
  - constructor; constructor.
  - destruct (trend_leb r x) eqn:E.
    + constructor; [now constructor|].
      constructor; [exact E|].
      eapply Forall_impl; [|exact Hx]. cbv beta. intros y Hy.
      now apply (trend_leb_trans r x y).
    + constructor; [exact IH|].
      apply (Permutation_Forall (insert_sorted_perm r l)).
      constructor; [now apply trend_leb_total | exact Hx].
Qed.

Lemma sort_values_perm (l : list trend_row) : Permutation l (sort_values l).
Proof.
  induction l as [|r l IH]; cbn [sort_values fold_right]; [reflexivity|].
  fold (sort_values l). rewrite <- insert_sorted_perm. now constructor.
Qed.

Lemma sort_values_sorted (l : list trend_row) : StronglySorted le (sort_values l).
Proof.
  induction l as [|r l IH]; cbn [sort_values fold_right]; [constructor|].
  now apply insert_sorted_strongly.
Qed.

End TrendTable.

(** X19. The pollution trend table holds the rows of the frame, each
    once, cut to city, time, PM2.5, PM10 and ozone, and put in order:
    every row comes before the rows of a later city and, within its city,
    before the rows of a later time; rows without a city come last. *)
Theorem trend_table_is_the_sorted_frame :
  forall df : list Report.row,
    Permutation (map Report.trend_cols df) (Report.trend_df df) /\
    StronglySorted (fun a b => Report.trend_leb a b = true) (Report.trend_df df) /\
    List.length (Report.trend_df df) = List.length df.
Proof.
  intros df. unfold Report.trend_df. split; [|split].
  - apply sort_values_perm.
  - apply sort_values_sorted.
  - rewrite <- (Permutation_length (sort_values_perm (map Report.trend_cols df))).
    apply length_map.
Qed.

Section RiskTable.

Import Report.

Local Abbreviation lt := (fun a b : string => String.compare a b = Lt).

Lemma insert_unique_In (s x : string) (l : list string) :
  In x (insert_unique s l) <-> x = s \/ In x l.
Proof.
  induction l as [|y l IH]; cbn [insert_unique].
  - simpl. intuition.
  - destruct (String.compare s y) eqn:E.
    + apply String.compare_eq_iff in E. subst y. simpl. intuition.
    + simpl. intuition.
    + simpl. rewrite IH. intuition.
Qed.

Lemma insert_unique_sorted (s : string) (l : list string) :
  StronglySorted lt l -> StronglySorted lt (insert_unique s l).
Proof.
  induction 1 as [|y l Hs IH Hy]; cbn [insert_unique].
  - constructor; constructor.
  - destruct (String.compare s y) eqn:E.
    + now constructor.
    + constructor; [now constructor|].
      constructor; [exact E|].
      eapply Forall_impl; [|exact Hy]. cbv beta. intros z Hz.
      now apply (string_compare_trans s y z).
    + constructor; [exact IH|].
      apply Forall_forall. intros z Hz. apply insert_unique_In in Hz as [->|Hz].
      * now apply string_compare_flip.
      * rewrite Forall_forall in Hy. now apply Hy.
Qed.

Lemma sorted_unique_In (x : string) (l : list string) :
  In x (sorted_unique l) <-> In x l.
Proof.
  induction l as [|s l IH]; cbn [sorted_unique fold_right]; [reflexivity|].
  fold (sorted_unique l). rewrite insert_unique_In, IH. simpl. intuition.
Qed.

Lemma sorted_unique_sorted (l : list string) : StronglySorted lt (sorted_unique l).
Proof.
  induction l as [|s l IH]; cbn [sorted_unique fold_right]; [constructor|].
  now apply insert_unique_sorted.
Qed.

Lemma sorted_NoDup (l : list string) : StronglySorted lt l -> NoDup l.
Proof.
  induction 1 as [|y l Hs IH Hy]; constructor; [|exact IH].
  intros Hin. rewrite Forall_forall in Hy. specialize (Hy y Hin).
  cbv beta in Hy. rewrite string_compare_refl in Hy. discriminate.
Qed.

Lemma list_sum_cons (n : nat) (l : list nat) : list_sum (n :: l) = n + list_sum l.
Proof. reflexivity. Qed.

Lemma list_sum_map_add {A : Type} (f g : A -> nat) (l : list A) :
  list_sum (map (fun a => f a + g a) l) = list_sum (map f l) + list_sum (map g l).
Proof.
  induction l as [|a l IH]; [reflexivity|]. cbn [map]. rewrite !list_sum_cons. rewrite IH. lia.
Qed.

Lemma list_sum_map_zero {A : Type} (f : A -> nat) (l : list A) :
  (forall a, f a = 0) -> list_sum (map f l) = 0.
Proof.
  intros H. induction l as [|a l IH]; [reflexivity|].
  cbn [map]. rewrite !list_sum_cons. rewrite H, IH. reflexivity.
Qed.

Lemma list_sum_map_ext {A : Type} (f g : A -> nat) (l : list A) :
  (forall a, f a = g a) -> list_sum (map f l) = list_sum (map g l).
Proof.
  intros H. induction l as [|a l IH]; [reflexivity|].
  cbn [map]. rewrite !list_sum_cons. now rewrite H, IH.
Qed.

Lemma in_dec_cons (k x : string) (l : list string) :
  (if in_dec string_dec k (x :: l) then 1 else 0)
  = if String.eqb x k then 1
    else if in_dec string_dec k l then 1 else 0.
Proof.
  destruct (String.eqb x k) eqn:E.
  - apply String.eqb_eq in E. subst x.
    destruct (in_dec string_dec k (k :: l)) as [_|Hn]; [reflexivity|].
    exfalso. apply Hn. now left.
  - apply String.eqb_neq in E.
    destruct (in_dec string_dec k l) as [Hin|Hn];
      destruct (in_dec string_dec k (x :: l)) as [Hin'|Hn']; try reflexivity.
    + exfalso. apply Hn'. now right.
    + exfalso. destruct Hin' as [->|Hin']; [now apply E | now apply Hn].
Qed.

Lemma list_sum_indicator (k : string) (l : list string) :
  NoDup l ->
  list_sum (map (fun x => if String.eqb x k then 1 else 0) l)
  = if in_dec string_dec k l then 1 else 0.
Proof.
  induction 1 as [|x l Hx Hnd IH]; [reflexivity|].
  cbn [map]. rewrite !list_sum_cons. rewrite IH, in_dec_cons.
  destruct (String.eqb x k) eqn:E; [|reflexivity].
  apply String.eqb_eq in E. subst x.
  destruct (in_dec string_dec k l); [contradiction|reflexivity].
Qed.

Lemma list_sum_map_mul {A : Type} (f : A -> nat) (n : nat) (l : list A) :
  list_sum (map (fun a => f a * n) l) = list_sum (map f l) * n.
Proof.
  induction l as [|a l IH]; [reflexivity|]. cbn [map]. rewrite !list_sum_cons. rewrite IH. lia.
Qed.

(** The cells of the table that count a given row: one, when the row
    has a city of the index and a flag of the header. *)
Lemma cells_of_row (r : row) (I H : list string) :
  NoDup I -> NoDup H ->
  list_sum (map (fun c =>
     list_sum (map (fun f => if in_group c f r then 1 else 0) H)) I)
  = match group_key r with
    | Some (c, f) =>
        (if in_dec string_dec c I then 1 else 0)
        * (if in_dec string_dec f H then 1 else 0)
    | None => 0
    end.
Proof.
  intros HI HH. unfold in_group.
  destruct (group_key r) as [[c0 f0]|].
  - rewrite <- (list_sum_indicator c0 I HI), <- (list_sum_indicator f0 H HH).
    rewrite <- list_sum_map_mul. apply list_sum_map_ext. intros c.
    destruct (String.eqb c c0) eqn:E.
    + rewrite Nat.mul_1_l. apply list_sum_map_ext. intros f.
      cbn [andb]. reflexivity.
    + rewrite Nat.mul_0_l. apply list_sum_map_zero. reflexivity.
  - apply list_sum_map_zero. intros c. apply list_sum_map_zero. reflexivity.
Qed.

Lemma table_counts (df : list row) (I H : list string) :
  NoDup I -> NoDup H ->
  (forall c f, In (c, f) (group_keys df) -> In c I /\ In f H) ->
  list_sum (map (fun c => list_sum (map (fun f => group_size df c f) H)) I)
  = List.length (group_keys df).
Proof.
  intros HI HH. unfold group_size.
  induction df as [|r df IH]; intros Hall.
  - cbn [filter List.length group_keys].
    apply list_sum_map_zero. intros c. apply list_sum_map_zero. reflexivity.
  - rewrite (list_sum_map_ext _
      (fun c => list_sum (map (fun f => if in_group c f r then 1 else 0) H)
                + list_sum (map (fun f => List.length (filter (in_group c f) df)) H))).
    + rewrite list_sum_map_add, (cells_of_row r I H HI HH).
      cbn [group_keys]. destruct (group_key r) as [[c0 f0]|] eqn:Ek.
      * rewrite IH by (intros c f Hin; apply Hall; cbn [group_keys];
                       rewrite Ek; now right).
        destruct (Hall c0 f0) as [Hc Hf];
          [cbn [group_keys]; rewrite Ek; now left|].
        destruct (in_dec string_dec c0 I); [|contradiction].
        destruct (in_dec string_dec f0 H); [|contradiction].
        reflexivity.
      * rewrite IH by (intros c f Hin; apply Hall; cbn [group_keys];
                       now rewrite Ek).
        reflexivity.
    + intros c. rewrite <- list_sum_map_add. apply list_sum_map_ext. intros f.
      cbn [filter]. destruct (in_group c f r); reflexivity.
Qed.

Lemma in_group_keys (df : list row) (c f : string) :
  In (c, f) (group_keys df) <-> 0 < group_size df c f.
Proof.
  unfold group_size. induction df as [|r df IH]; cbn [group_keys filter].
  - simpl. split; [contradiction | lia].
  - unfold in_group at 1. destruct (group_key r) as [[c' f']|].
    + destruct (String.eqb c c' && String.eqb f f') eqn:E.
      * apply andb_true_iff in E as [E1 E2].
        apply String.eqb_eq in E1, E2. subst c' f'.
        cbn [List.length]. split; [lia | now left].
      * rewrite <- IH. split; [|now right].
        intros [[= <- <-]|Hin]; [|exact Hin].
        rewrite !String.eqb_refl in E. discriminate.
    + exact IH.
Qed.

Lemma list_sum_In (n : nat) (l : list nat) : In n l -> n <= list_sum l.
Proof.
  induction l as [|m l IH]; [contradiction|].
  intros [->|Hin]; rewrite list_sum_cons; [lia|]. specialize (IH Hin). lia.
Qed.

End RiskTable.

(** X20. The city risk table counts every row that has both a city and
    a risk flag exactly once, and no other row: its cells add up to the
    number of these rows.  It has one line per city and, on every line,
    one cell per flag, cities and flags in increasing order without
    repetition; a cell is the number of rows of that city with that
    flag, and every line has a cell that is not zero. *)
Theorem risk_table_counts_each_row_once :
  forall df : list Report.row,
    Report.table_total (Report.risk_dist df) = List.length (Report.group_keys df) /\
    map fst (Report.risk_dist df) = Report.index df /\
    Forall (fun line =>
              map fst (snd line) = Report.header df /\
              (forall f n, In (f, n) (snd line) ->
                           n = Report.group_size df (fst line) f) /\
              0 < list_sum (map snd (snd line)))
           (Report.risk_dist df) /\
    StronglySorted (fun a b => String.compare a b = Lt) (Report.index df) /\
    StronglySorted (fun a b => String.compare a b = Lt) (Report.header df).
Proof.
  intros df.
  assert (HI : StronglySorted (fun a b => String.compare a b = Lt) (Report.index df))
    by apply sorted_unique_sorted.
  assert (HH : StronglySorted (fun a b => String.compare a b = Lt) (Report.header df))
    by apply sorted_unique_sorted.
  split; [|split; [|split; [|split; assumption]]].
  - unfold Report.table_total, Report.risk_dist. rewrite map_map. cbn [snd].
    rewrite (list_sum_map_ext _
      (fun c => list_sum (map (fun f => Report.group_size df c f) (Report.header df))))
      by (intros c; now rewrite map_map).
    apply table_counts; [now apply sorted_NoDup | now apply sorted_NoDup |].
    intros c f Hin. unfold Report.index, Report.header.
    rewrite !sorted_unique_In. split.
    + change c with (fst (c, f)). now apply in_map.
    + change f with (snd (c, f)). now apply in_map.
  - unfold Report.risk_dist. rewrite map_map. cbn [fst]. apply map_id.
  - unfold Report.risk_dist. apply Forall_map. apply Forall_forall.
    intros c Hc. cbn [fst snd]. split; [|split].
    + rewrite map_map. cbn [fst]. apply map_id.
    + intros f n Hin. apply in_map_iff in Hin as (f' & [= <- <-] & _). reflexivity.
    + unfold Report.index in Hc. apply (proj1 (sorted_unique_In _ _)) in Hc.
      apply in_map_iff in Hc as ([c' f] & Hfst & Hin). cbn [fst] in Hfst. subst c'.
      assert (Hf : In f (Report.header df)).
      { unfold Report.header. apply sorted_unique_In.
        change f with (snd (c, f)). now apply in_map. }
      apply (proj1 (in_group_keys df c f)) in Hin.
      eapply Nat.lt_le_trans; [exact Hin|].
      apply list_sum_In. rewrite map_map. cbn [snd].
      apply in_map_iff. exists f. split; [reflexivity|exact Hf].
Qed.

(** ** The order of the risk counts *)

Lemma insert_by_count_perm (kc : string * nat) (l : list (string * nat)) :
  Permutation (kc :: l) (insert_by_count kc l).
Proof.
  induction l as [|x l IH]; cbn [insert_by_count]; [reflexivity|].
  destruct (snd x <=? snd kc); [reflexivity|].
  rewrite perm_swap. now constructor.
Qed.

Lemma sort_by_count_perm (l : list (string * nat)) :
  Permutation l (sort_by_count l).
Proof.
  induction l as [|kc l IH]; cbn [sort_by_count fold_right]; [reflexivity|].
  fold (sort_by_count l). rewrite <- insert_by_count_perm. now constructor.
Qed.

Lemma insert_by_count_sorted (kc : string * nat) (l : list (string * nat)) :
  StronglySorted (fun a b => snd b <= snd a) l ->
  StronglySorted (fun a b => snd b <= snd a) (insert_by_count kc l).
Proof.
  induction 1 as [|x l Hs IH Hx]; cbn [insert_by_count].
  - constructor; constructor.
  - destruct (snd x <=? snd kc) eqn:E.
    + apply Nat.leb_le in E. constructor; [now constructor|].
      constructor; [exact E|].
      eapply Forall_impl; [|exact Hx]. cbv beta. intros y Hy. lia.
    + apply Nat.leb_gt in E. constructor; [exact IH|].
      apply (Permutation_Forall (insert_by_count_perm kc l)).
      constructor; [lia | exact Hx].
Qed.

Lemma sort_by_count_sorted (l : list (string * nat)) :
  StronglySorted (fun a b => snd b <= snd a) (sort_by_count l).
Proof.
  induction l as [|kc l IH]; cbn [sort_by_count fold_right]; [constructor|].
  now apply insert_by_count_sorted.
Qed.

Lemma distinct_NoDup (flags : list (option string)) :
  forall seen, NoDup (distinct seen flags).
Proof.
  induction flags as [|[s|] flags IH]; intros seen; cbn [distinct].
  - constructor.
  - destruct (existsb (String.eqb s) seen); [apply IH|].
    constructor; [|apply IH].
    intros Hin. apply distinct_not_seen in Hin. apply Hin. now left.
  - apply IH.
Qed.

Lemma distinct_without_nulls (flags : list (option string)) :
  forall seen,
    distinct seen (filter (fun v => match v with Some _ => true | None => false end) flags)
    = distinct seen flags.
Proof.
  induction flags as [|[s|] flags IH]; intros seen; cbn [filter distinct].
  - reflexivity.
  - rewrite !IH. reflexivity.
  - apply IH.
Qed.

Lemma count_of_without_nulls (k : string) (flags : list (option string)) :
  count_of k (filter (fun v => match v with Some _ => true | None => false end) flags)
  = count_of k flags.
Proof.
  induction flags as [|[s|] flags IH]; cbn [filter].
  - reflexivity.
  - now rewrite !count_of_cons, IH.
  - now rewrite count_of_cons, IH.
Qed.

(** X21. The risk counts list each flag that occurs once, the larger
    counts first, and a row whose flag is null changes neither the counts
    nor the shares. *)
Theorem risk_counts_are_ordered_and_skip_nulls :
  forall flags : list (option string),
    StronglySorted (fun a b => snd b <= snd a) (value_counts flags) /\
    NoDup (map fst (value_counts flags)) /\
    value_counts (filter (fun v => match v with Some _ => true | None => false end)
                         flags)
    = value_counts flags /\
    risk_pct (filter (fun v => match v with Some _ => true | None => false end) flags)
    = risk_pct flags.
Proof.
  intros flags.
  assert (Hvc : value_counts
                  (filter (fun v => match v with Some _ => true | None => false end)
                          flags)
                = value_counts flags).
  { unfold value_counts. rewrite distinct_without_nulls. f_equal.
    apply map_ext. intros k. now rewrite count_of_without_nulls. }
  split; [apply sort_by_count_sorted|]. split; [|split; [exact Hvc|]].
  - unfold value_counts.
    eapply Permutation_NoDup.
    + apply Permutation_map. apply sort_by_count_perm.
    + rewrite map_map. cbn [fst]. rewrite map_id. apply distinct_NoDup.
  - unfold risk_pct. now rewrite Hvc.
Qed.

(** ** The load step as a whole *)

Lemma to_records_length (parse_datetime : string -> option Timestamp)
      (df : list staged_row) (records : list Series) :
  to_records parse_datetime df = Ok records ->
  List.length records = List.length df.
Proof.
  intros H. apply to_records_Ok in H as [-> _].
  unfold where_notnull, renamed_frame. now rewrite !length_map.
Qed.

(** X23. With a positive batch size the load step stops with an error
    only while it builds the records, before any insert call; once the
    records are built it runs over every batch and ends normally: it
    gives one verdict per batch of the lines, and inserts at most as
    many rows as the file has lines. *)
Theorem load_stops_before_inserting_or_runs_to_the_end :
  forall (parse_datetime : string -> option Timestamp) (b : nat) (MAX_RETRIES : Z)
         (insert_ok : nat -> nat -> bool) (df : list staged_row),
    0 < b ->
    (forall e,
       load parse_datetime (Z.of_nat b) MAX_RETRIES insert_ok df = Raise e <->
       to_records parse_datetime df = Raise e) /\
    (forall records,
       to_records parse_datetime df = Ok records ->
       exists st,
         load parse_datetime (Z.of_nat b) MAX_RETRIES insert_ok df = Ok st /\
         List.length (verdicts (log st)) = (List.length df + b - 1) / b /\
         total_inserted st = List.length (table st) /\
         total_inserted st <= List.length df).
Proof.
  intros pd b R ok df Hb.
  assert (Hrun : forall records,
             to_records pd df = Ok records ->
             exists st,
               load pd (Z.of_nat b) R ok df = Ok st /\
               List.length (verdicts (log st)) = (List.length df + b - 1) / b /\
               total_inserted st = List.length (table st) /\
               total_inserted st <= List.length df).
  { intros records Hrec. unfold load. rewrite Hrec. cbn [bind].
    destruct (insert_all_run b R ok records Hb)
      as (st & Hst & Ht & Hn & Hv & _).
    destruct (partition_facts records b Hb) as (Hcat & _).
    pose proof (concat_filter_split (slice (Z.of_nat b) records)
                  (fun i => succeeds R ok (batch_number (Z.of_nat b) i))
                  (map (fun k => k * b)
                       (seq 0 ((List.length records + b - 1) / b))))
      as Hsplit.
    rewrite Hcat, <- Ht in Hsplit.
    rewrite <- (to_records_length pd df records Hrec).
    exists st. split; [exact Hst|]. split; [|split; [exact Hn|lia]].
    rewrite Hv, length_map. apply length_seq. }
  split; [|exact Hrun].
  intros e. unfold load.
  destruct (to_records pd df) as [records|e'] eqn:Hrec; cbn [bind].
  - destruct (Hrun records eq_refl) as (st & Hst & _).
    unfold load in Hst. rewrite Hrec in Hst. cbn [bind] in Hst.
    rewrite Hst. split; discriminate.
  - split; intros [= ->]; reflexivity.
Qed.

Lemma load_stops_before_inserting_or_runs_to_the_end_witness :
  exists st,
    load parse_iso 200 2 Samples.store [Samples.staged_line] = Ok st /\
    total_inserted st <= 1.
Proof.
  destruct (to_records parse_iso [Samples.staged_line]) as [records|e] eqn:E;
    [|vm_compute in E; discriminate].
  destruct (proj2 (load_stops_before_inserting_or_runs_to_the_end
                     parse_iso 200 2 Samples.store [Samples.staged_line]
                     ltac:(lia)) records E)
    as (st & Hst & _ & _ & Hle).
  exists st. split; [exact Hst | exact Hle].
Defined.

(** ** Rows per time entry *)

Section RowsPerEntry.

Variable parse_datetime : string -> option Timestamp.
Variable parse_number : string -> option F64.float.

Lemma build_rows_from_parsed city hourly times : forall i rows,
  build_rows_from parse_datetime parse_number city hourly i times = Ok rows ->
  Forall (fun ts => exists t, to_datetime parse_datetime ts = Ok t) times.
Proof.
  induction times as [|ts times IH]; intros i rows; cbn [build_rows_from].
  - constructor.
  - unfold build_row at 1.
    destruct (to_datetime parse_datetime ts) as [t|e] eqn:Et; cbn [bind];
      [|discriminate].
    destruct (build_rows_from _ _ city hourly (S i) times) as [rs|e] eqn:Er;
      cbn [bind]; [|discriminate].
    intros _. constructor; eauto.
Qed.

(** In a run that collects its records, the loop ends normally on every
    document that is read. *)
Lemma collect_records_build_rows files : forall recs f hourly,
  collect_records parse_datetime parse_number files = Ok recs ->
  In f files -> content f = Some hourly ->
  exists rows,
    build_rows parse_datetime parse_number (city_of_stem (stem f)) hourly = Ok rows.
Proof.
  induction files as [|f0 files IH]; intros recs f hourly Hc Hin Hf;
    [contradiction|].
  cbn [collect_records] in Hc.
  destruct Hin as [->|Hin].
  - rewrite Hf in Hc. unfold build_rows in *.
    destruct (h_time hourly) as [|ts times] eqn:Et; [exists []; reflexivity|].
    destruct (build_rows_from _ _ (city_of_stem (stem f)) hourly 0 (ts :: times))
      as [rows|e]; cbn [bind] in Hc; [eauto|discriminate].
  - destruct (content f0) as [h0|]; [|eauto].
    destruct (h_time h0) as [|ts times]; [eauto|].
    destruct (build_rows _ _ (city_of_stem (stem f0)) h0) as [rows|e];
      cbn [bind] in Hc; [|discriminate].
    destruct (collect_records _ _ files) as [more|e] eqn:Em;
      cbn [bind] in Hc; [|discriminate].
    eauto.
Qed.

Lemma output_base_rows files out recs :
  transform parse_datetime parse_number files = Ok out ->
  collect_records parse_datetime parse_number files = Ok recs ->
  map (firstn (List.length base_columns)) out
  = filter (has_reading POLLUTANTS) (DataFrame recs) /\
  List.length out = List.length (filter (has_reading POLLUTANTS) recs).
Proof.
  intros Ht Hc. apply transform_rows in Ht as (recs' & Hc' & -> & Hall).
  rewrite Hc in Hc'. injection Hc' as <-.
  rewrite Forall_forall in Hall. split.
  - rewrite map_map. rewrite <- (map_id (filter _ _)) at 2.
    apply map_ext_in. intros r Hr. apply firstn_derived. now apply Hall.
  - now rewrite length_map, filter_DataFrame, length_map.
Qed.

End RowsPerEntry.




(** ** The staged file, written and read back *)

Lemma same_float_eq (x y : F64.float) : same_float x y = true -> x = y.
Proof.
  destruct x as [a|a| |a m e], y as [b|b| |b n f]; cbn [same_float];
    try discriminate; try reflexivity.
  - intros H. apply Bool.eqb_prop in H. now subst.
  - intros H. apply Bool.eqb_prop in H. now subst.
  - intros H. apply andb_true_iff in H as [H He].
    apply andb_true_iff in H as [Hs Hm].
    apply Bool.eqb_prop in Hs. apply Pos.eqb_eq in Hm. apply Z.eqb_eq in He.
    now subst.
Qed.

Lemma same_time_eq (t u : Timestamp) : same_time t u = true -> t = u.
Proof.
  destruct t, u. unfold same_time. simpl.
  rewrite !andb_true_iff, !Nat.eqb_eq.
  intros [[[[[-> ->] ->] ->] ->] ->]. reflexivity.
Qed.

Lemma map_seq_nth {A B : Type} (h : A -> B) (l : list A) (d : A) :
  map (fun i => h (nth i l d)) (seq 0 (List.length l)) = map h l.
Proof.
  induction l as [|a l IH]; [reflexivity|].
  cbn [List.length seq map nth]. f_equal.
  rewrite <- seq_shift, map_map. exact IH.
Qed.

Section ReadBack.

Variable float_text : F64.float -> string.
Variable na_text : string -> bool.
Variable read_number : string -> option Staged.number.
Variable parse_datetime : string -> option Timestamp.

Hypothesis empty_is_null : na_text "" = true.

Local Abbreviation read_column := (Staged.read_column na_text read_number).
Local Abbreviation reads_back := (Staged.reads_back na_text read_number parse_datetime).
Local Abbreviation field := (Staged.field float_text).
Local Abbreviation stored := (Staged.stored float_text).

(** A column of integers. *)
Lemma read_column_ints {A : Type} (l : list A) (txt : A -> string)
      (g : A -> Staged.cell) :
  Forall (fun a => na_text (txt a) = false /\
                   exists n, read_number (txt a) = Some (Staged.Int n) /\
                             g a = Staged.Val (PInt n)) l ->
  read_column (map txt l) = map g l.
Proof.
  intros H. unfold Staged.read_column. rewrite Forall_forall in H.
  assert (E : forallb (fun s => negb (na_text s)
                                && Staged.int_field read_number s) (map txt l)
              = true).
  { apply forallb_forall. intros s Hs. apply in_map_iff in Hs as (a & <- & Ha).
    destruct (H a Ha) as (Hna & n & Hn & _).
    unfold Staged.int_field. now rewrite Hna, Hn. }
  rewrite E, map_map. apply map_ext_in. intros a Ha.
  destruct (H a Ha) as (_ & n & Hn & Hg). now rewrite Hn, Hg.
Qed.

(** A column of floats and nulls. *)
Lemma read_column_floats {A : Type} (l : list A) (txt : A -> string)
      (g : A -> Staged.cell) :
  Forall (fun a => (na_text (txt a) = true /\ g a = Staged.NaN) \/
                   (na_text (txt a) = false /\
                    exists x, read_number (txt a) = Some (Staged.Float x) /\
                              g a = Staged.Val (PFloat x))) l ->
  read_column (map txt l) = map g l.
Proof.
  intros H. unfold Staged.read_column. rewrite Forall_forall in H.
  destruct (forallb (fun s => negb (na_text s)
                              && Staged.int_field read_number s) (map txt l)) eqn:Ei.
  - destruct l as [|a l]; [reflexivity|]. exfalso.
    cbn [map forallb] in Ei. apply andb_true_iff in Ei as [Ei _].
    apply andb_true_iff in Ei as [Hna Hint].
    apply negb_true_iff in Hna. unfold Staged.int_field in Hint.
    destruct (H a (or_introl eq_refl)) as [[Hs _]|(Hs & x & Hx & _)].
    + rewrite Hs in Hna. discriminate.
    + rewrite Hx in Hint. discriminate.
  - assert (Ef : forallb (fun s => na_text s
                                   || Staged.number_field read_number s)
                         (map txt l) = true).
    { apply forallb_forall. intros s Hs. apply in_map_iff in Hs as (a & <- & Ha).
      destruct (H a Ha) as [[Hna _]|(Hna & x & Hx & _)].
      - now rewrite Hna.
      - unfold Staged.number_field. rewrite Hx. apply orb_true_r. }
    rewrite Ef, map_map. apply map_ext_in. intros a Ha.
    destruct (H a Ha) as [[Hna Hg]|(Hna & x & Hx & Hg)].
    + now rewrite Hna, Hg.
    + now rewrite Hna, Hx, Hg.
Qed.

(** A column of texts and nulls. *)
Lemma read_column_texts {A : Type} (l : list A) (txt : A -> string)
      (g : A -> Staged.cell) :
  Forall (fun a => (na_text (txt a) = true /\ g a = Staged.NaN) \/
                   (Staged.plain_text na_text read_number (txt a) = true /\
                    g a = Staged.Val (PStr (txt a)))) l ->
  read_column (map txt l) = map g l.
Proof.
  intros H. rewrite Forall_forall in H.
  assert (Hplain : forall s, Staged.plain_text na_text read_number s = true ->
                     na_text s = false /\
                     Staged.number_field read_number s = false /\
                     Staged.bool_field s = false).
  { intros s Hs. unfold Staged.plain_text in Hs.
    apply andb_true_iff in Hs as [Hs Hb]. apply andb_true_iff in Hs as [Ha Hn].
    apply negb_true_iff in Ha, Hn, Hb. auto. }
  assert (Hnull : forall p : string -> bool,
             (forall s, Staged.plain_text na_text read_number s = true ->
                        p s = false) ->
             forallb (fun s => na_text s || p s) (map txt l) = true ->
             forall a, In a l -> na_text (txt a) = true /\ g a = Staged.NaN).
  { intros p Hp Hall a Ha. rewrite forallb_forall in Hall.
    specialize (Hall (txt a) (in_map txt l a Ha)).
    destruct (H a Ha) as [Hna|[Hpl _]]; [exact Hna|].
    destruct (Hplain _ Hpl) as (Hna & _). rewrite Hna, (Hp _ Hpl) in Hall.
    discriminate. }
  unfold Staged.read_column.
  destruct (forallb (fun s => negb (na_text s)
                              && Staged.int_field read_number s) (map txt l)) eqn:Ei.
  - destruct l as [|a l]; [reflexivity|]. exfalso.
    cbn [map forallb] in Ei. apply andb_true_iff in Ei as [Ei _].
    apply andb_true_iff in Ei as [Hna Hint].
    apply negb_true_iff in Hna. unfold Staged.int_field in Hint.
    destruct (H a (or_introl eq_refl)) as [[Hs _]|[Hpl _]].
    + rewrite Hs in Hna. discriminate.
    + destruct (Hplain _ Hpl) as (_ & Hn & _).
      unfold Staged.number_field in Hn.
      destruct (read_number (txt a)) as [[n|x]|]; discriminate.
  - destruct (forallb (fun s => na_text s
                                || Staged.number_field read_number s)
                      (map txt l)) eqn:Ef.
    + rewrite map_map. apply map_ext_in. intros a Ha.
      destruct (Hnull _ (fun s Hpl => proj1 (proj2 (Hplain s Hpl))) Ef a Ha)
        as [Hna Hg].
      now rewrite Hna, Hg.
    + destruct (forallb (fun s => na_text s || Staged.bool_field s)
                        (map txt l)) eqn:Eb.
      * rewrite map_map. apply map_ext_in. intros a Ha.
        destruct (Hnull _ (fun s Hpl => proj2 (proj2 (Hplain s Hpl))) Eb a Ha)
          as [Hna Hg].
        now rewrite Hna, Hg.
      * rewrite map_map. apply map_ext_in. intros a Ha.
        destruct (H a Ha) as [[Hna Hg]|[Hpl Hg]].
        -- now rewrite Hna, Hg.
        -- destruct (Hplain _ Hpl) as (Hna & _). now rewrite Hna, Hg.
Qed.

(** The frame read from a file that was written column by column. *)
Lemma read_csv_columns (cols : list string) (df : list Series)
      (txt : string -> pyval -> string) (g : string -> pyval -> Staged.cell) :
  (forall k, In k cols ->
     read_column (map (fun r => txt k (get r k PNone)) df)
     = map (fun r => g k (get r k PNone)) df) ->
  Staged.read_csv na_text read_number
    (Staged.mkCsv cols (map (fun r => map (fun k => txt k (get r k PNone)) cols) df))
  = map (fun r => map (fun k => (k, g k (get r k PNone))) cols) df.
Proof.
  intros H. unfold Staged.read_csv. cbn [Staged.header Staged.lines].
  rewrite length_map.
  assert (Hcols :
    map (fun j => read_column
                    (map (fun line => nth j line "")
                         (map (fun r => map (fun k => txt k (get r k PNone)) cols) df)))
        (seq 0 (List.length cols))
    = map (fun k => map (fun r => g k (get r k PNone)) df) cols).
  { rewrite <- (map_seq_nth (fun k => map (fun r => g k (get r k PNone)) df) cols "").
    apply map_ext_in. intros j Hj. apply in_seq in Hj.
    rewrite <- H by (apply nth_In; lia). f_equal.
    rewrite map_map. apply map_ext. intros r.
    rewrite (nth_indep _ "" (txt "" (get r "" PNone)))
      by (rewrite length_map; lia).
    apply (map_nth (fun k => txt k (get r k PNone))). }
  rewrite Hcols. clear Hcols H.
  rewrite <- (map_seq_nth (fun r => map (fun k => (k, g k (get r k PNone))) cols)
                          df []).
  apply map_ext_in. intros i Hi. apply in_seq in Hi.
  rewrite map_map.
  rewrite (map_ext_in _ (fun k => g k (get (nth i df []) k PNone))).
  - apply combine_map_r.
  - intros k _.
    rewrite (nth_indep _ Staged.NaN (g k (get [] k PNone)))
      by (rewrite length_map; lia).
    apply (map_nth (fun r => g k (get r k PNone))).
Qed.

(** A cell that reads back, by the kind of its column. *)
Lemma int_cell_reads_back (d : bool) (v : pyval) :
  (exists n, v = PInt n) -> reads_back (field d v) v = true ->
  na_text (field d v) = false /\
  exists n, read_number (field d v) = Some (Staged.Int n) /\
            stored d v = Staged.Val (PInt n).
Proof.
  intros [n ->]. cbn [Staged.reads_back Staged.field Staged.stored].
  intros H. apply andb_true_iff in H as [Hna Hn].
  apply negb_true_iff in Hna. split; [exact Hna|].
  destruct (read_number (Staged.int_text n)) as [[m|x]|]; try discriminate.
  apply Z.eqb_eq in Hn. subst m. eauto.
Qed.

Lemma float_cell_reads_back (d : bool) (v : pyval) :
  (v = PNone \/ exists x, v = PFloat x) -> reads_back (field d v) v = true ->
  (na_text (field d v) = true /\ stored d v = Staged.NaN) \/
  (na_text (field d v) = false /\
   exists x, read_number (field d v) = Some (Staged.Float x) /\
             stored d v = Staged.Val (PFloat x)).
Proof.
  intros [->|[x ->]]; cbn [Staged.reads_back Staged.field Staged.stored].
  - intros _. left. split; [exact empty_is_null | reflexivity].
  - destruct (F64.is_nan x) eqn:En; cbn [orb].
    + intros _. left. split; [exact empty_is_null|].
      destruct x; try discriminate. reflexivity.
    + intros H. right. apply andb_true_iff in H as [Hna Hx].
      apply negb_true_iff in Hna. split; [exact Hna|].
      destruct (read_number (float_text x)) as [[m|y]|]; try discriminate.
      apply same_float_eq in Hx. subst y. eauto.
Qed.

Lemma text_cell_reads_back (d : bool) (v : pyval) :
  (v = PNone \/ (exists s, v = PStr s) \/ exists t, v = PTime t) ->
  reads_back (field d v) v = true ->
  (na_text (field d v) = true /\ stored d v = Staged.NaN) \/
  (Staged.plain_text na_text read_number (field d v) = true /\
   stored d v = Staged.Val (PStr (field d v))).
Proof.
  intros [->|[[s ->]|[t ->]]]; cbn [Staged.reads_back Staged.stored].
  - intros _. left. split; [exact empty_is_null | reflexivity].
  - intros H. right. split; [exact H | reflexivity].
  - intros H. right. apply andb_true_iff in H as [H _].
    split; [exact H | reflexivity].
Qed.

(** A column of the frame, written and read back. *)
Lemma column_reads_back (df : list Series) (k : string) (d : bool) :
  Forall (fun r => reads_back (field d (get r k PNone)) (get r k PNone) = true) df ->
  Forall (fun r => exists n, get r k PNone = PInt n) df \/
  Forall (fun r => get r k PNone = PNone \/ exists x, get r k PNone = PFloat x) df \/
  Forall (fun r => get r k PNone = PNone \/ (exists s, get r k PNone = PStr s) \/
                   exists t, get r k PNone = PTime t) df ->
  read_column (map (fun r => field d (get r k PNone)) df)
  = map (fun r => stored d (get r k PNone)) df.
Proof.
  intros Hrb [Hk|[Hk|Hk]]; rewrite Forall_forall in Hrb, Hk.
  - apply (read_column_ints df (fun r => field d (get r k PNone))).
    apply Forall_forall. intros r Hr.
    now apply int_cell_reads_back; [apply Hk | apply Hrb].
  - apply (read_column_floats df (fun r => field d (get r k PNone))).
    apply Forall_forall. intros r Hr.
    now apply float_cell_reads_back; [apply Hk | apply Hrb].
  - apply (read_column_texts df (fun r => field d (get r k PNone))).
    apply Forall_forall. intros r Hr.
    now apply text_cell_reads_back; [apply Hk | apply Hrb].
Qed.

End ReadBack.

(** Whatever the conversions, a field that is a null marker is read as
    a null: so is the empty text that is written for an empty city. *)
Lemma a_null_marker_is_read_as_null
      (na_text : string -> bool) (read_number : string -> option Staged.number)
      (fields : list string) (i : nat) :
  i < List.length fields ->
  na_text (nth i fields "") = true ->
  nth i (Staged.read_column na_text read_number fields) Staged.NaN = Staged.NaN.
Proof.
  intros Hi Hna. unfold Staged.read_column.
  assert (Hnth : forall f : string -> Staged.cell,
             nth i (map f fields) Staged.NaN = f (nth i fields "")).
  { intros f. rewrite (nth_indep _ Staged.NaN (f ""))
      by (rewrite length_map; exact Hi).
    apply map_nth. }
  destruct (forallb (fun s => negb (na_text s)
                              && Staged.int_field read_number s) fields) eqn:Ei.
  - exfalso. rewrite forallb_forall in Ei.
    specialize (Ei _ (nth_In fields "" Hi)). rewrite Hna in Ei. discriminate.
  - repeat match goal with
           | |- context [if forallb ?p fields then _ else _] =>
               destruct (forallb p fields)
           end; rewrite Hnth, Hna; reflexivity.
Qed.

Lemma compute_aqi_value (v a : pyval) :
  compute_aqi v = Ok a -> a = PNone \/ exists s, a = PStr s.
Proof.
  unfold compute_aqi. destruct (isna v); [intros [= <-]; now left|].
  destruct (as_float v) as [x|e]; cbn [bind]; [|discriminate].
  repeat match goal with
         | |- context [if ?c then _ else _] => destruct c
         end; intros [= <-]; right; eexists; reflexivity.
Qed.

(** The kinds of the cells of an output row. *)
Lemma output_cells parse_datetime parse_number files out :
  transform parse_datetime parse_number files = Ok out ->
  Forall (fun r =>
            (exists c, get r "city" PNone = PStr c) /\
            (exists t, get r "time" PNone = PTime t) /\
            (forall k, In k POLLUTANTS ->
               get r k PNone = PNone \/ exists x, get r k PNone = PFloat x) /\
            (get r "AQI" PNone = PNone \/ exists s, get r "AQI" PNone = PStr s) /\
            (exists x, get r "severity" PNone = PFloat x) /\
            (exists s, get r "risk" PNone = PStr s) /\
            (exists n, get r "hour" PNone = PInt n))
         out.
Proof.
  intros H.
  destruct (collect_records parse_datetime parse_number files) as [recs|e] eqn:Ec;
    [|unfold transform in H; rewrite Ec in H; discriminate].
  pose proof (collect_records_base _ _ files recs Ec) as Hall.
  apply transform_rows in H as (recs' & Ec' & -> & Hrows).
  rewrite Ec in Ec'. injection Ec' as <-.
  apply Forall_map. apply Forall_forall. intros r Hr.
  rewrite Forall_forall in Hrows. destruct (Hrows r Hr) as [_ [sev Hsev]].
  apply filter_In in Hr as [Hr _].
  destruct (frame_row_severity recs r Hall Hr) as [Hb _].
  destruct (derived_row_shape r sev Hb Hsev)
    as (_ & H2 & (t & Ht & _ & Hh & _) & H4 & H5 & H6 & _ & H8 & H9).
  split; [exact H2|]. split; [eauto|]. split; [|split; [|split; [|split]]].
  - intros k Hk. simpl in Hk.
    destruct Hk as [<-|[<-|[<-|[<-|[<-|[<-|[<-|[]]]]]]]];
      try (right; apply H4; simpl; tauto).
    exact H5.
  - exact (compute_aqi_value _ _ H6).
  - eauto.
  - eauto.
  - eauto.
Qed.



